(** * Fire2Scripts: the event-windowed statistical pipeline

    A shallow embedding of the window extractors ([noshookpupil.cpp],
    [shookpupil.cpp]), of the aggregate statistics ([luminance.cpp],
    [pupilsizecal.cpp]) and of the calibration lookup and significance test
    ([t_test_after.cpp]).

    Numbers.  A C++ [double] that holds a parsed cell, a running sum or a
    counter is a rational [Q]: arithmetic is exact, rounding is not
    modelled.  Where the program divides, the quotient is a [double] below,
    so that 0/0 is [NaN] and not a number.  [int] and [size_t] are [Z] and
    [nat].

    Library functions.  [std::stod], [std::sqrt] and the CDF of boost's
    [students_t] are parameters of the definitions that call them.  [stod]
    is [None] when it throws and a rational otherwise: a cell it would read
    as an infinity or as a NaN is outside the model.

    Undefined behaviour.  Indexing a vector outside its range is the
    outcome [Undefined]; an exception nothing catches is [Throws]. *)

From Stdlib Require Import QArith ZArith String Ascii List Bool Lia Lqa Qabs Qround.
From Stdlib Require OrderedTypeEx.
Import ListNotations.
Local Open Scope Q_scope.

(** ** Doubles *)

Inductive double : Type :=
  | Fin (q : Q)
  | Inf (negative : bool)
  | NaN.

Definition Qlt_bool (x y : Q) : bool := negb (Qle_bool y x).

(** [x / y] on two finite doubles. *)
Definition ddiv (x y : Q) : double :=
  if Qeq_bool y 0 then
    if Qeq_bool x 0 then NaN else Inf (Qlt_bool x 0)
  else Fin (x / y).

(** [d > 0] and [d < 0]: every comparison with NaN is false. *)
Definition dgt0 (d : double) : bool :=
  match d with
  | Fin q => Qlt_bool 0 q
  | Inf negative => negb negative
  | NaN => false
  end.

Definition dlt0 (d : double) : bool :=
  match d with
  | Fin q => Qlt_bool q 0
  | Inf negative => negative
  | NaN => false
  end.

(** Equality of doubles as numbers ([Q] up to [==]). *)
Definition deq (a b : double) : Prop :=
  match a, b with
  | Fin x, Fin y => x == y
  | Inf s, Inf s' => s = s'
  | NaN, NaN => True
  | _, _ => False
  end.

(** [numeric_limits<double>::max()] and [lowest()]. *)
Definition DBL_MAX : Q := inject_Z ((2 ^ 53 - 1) * 2 ^ 971).
Definition DBL_LOWEST : Q := - DBL_MAX.

(** The result of a function that can leave by an uncaught exception or
    index a vector out of its range. *)
Inductive outcome (A : Type) : Type :=
  | Ret (a : A)
  | Throws
  | Undefined.
Arguments Ret {A} a.
Arguments Throws {A}.
Arguments Undefined {A}.

Definition bind {A B : Type} (o : outcome A) (k : A -> outcome B) : outcome B :=
  match o with
  | Ret a => k a
  | Throws => Throws
  | Undefined => Undefined
  end.

Notation "x <- o ;; k" := (bind o (fun x => k))
  (at level 61, o at next level, right associativity).

(** ** Sums written as the specification writes them *)

Fixpoint Qsum (l : list Q) : Q :=
  match l with
  | [] => 0
  | x :: r => x + Qsum r
  end.

Definition Qlen (l : list Q) : Q := inject_Z (Z.of_nat (length l)).

Definition mean_of (l : list Q) : Q := Qsum l / Qlen l.

(** (Σx² - (Σx)²/n) / (n-1) *)
Definition bessel_variance (l : list Q) : Q :=
  (Qsum (map (fun x => x * x) l) - (Qsum l * Qsum l) / Qlen l) / (Qlen l - 1).

(** Σ(x - mean)² / (n-1) *)
Definition deviation_variance (l : list Q) : Q :=
  Qsum (map (fun x => (x - mean_of l) * (x - mean_of l)) l) / (Qlen l - 1).

(** ** calculateStdDev (noshookpupil.cpp, shookpupil.cpp) *)

(** The loop [variance += pow(val - mean, 2)] followed by
    [variance /= (values.size() - 1)]. *)
Definition variance_about (values : list Q) (mean : Q) : Q :=
  fold_left (fun variance val => variance + (val - mean) ^ 2) values 0
  / (Qlen values - 1).

Definition calculateStdDev (sqrt : Q -> Q) (values : list Q) (mean : double) : double :=
  if (length values <? 2)%nat then Fin (-1)
  else
    match mean with
    | Fin m => Fin (sqrt (variance_about values m))
    | Inf _ => Inf false
    | NaN => NaN
    end.

(** ** luminance.cpp *)

Module Luminance.

(** [computeStats(values, avg, variance)]: the pair of the two outputs. *)
Definition computeStats (values : list Q) : Q * Q :=
  match values with
  | [] => (0, 0)
  | _ =>
      let '(sum, sumSq) :=
        fold_left (fun '(sum, sumSq) v => (sum + v, sumSq + v * v)) values (0, 0) in
      let n := length values in
      let avg := sum / Qlen values in
      if (1 <? n)%nat
      then (avg, (sumSq - (sum * sum) / Qlen values) / (Qlen values - 1))
      else (avg, 0)
  end.

End Luminance.

(** ** pupilsizecal.cpp *)

Module Pupilsizecal.

Record Stats : Type := mkStats {
  sum : Q;
  sumSq : Q;
  count : Z;
  minVal : Q;
  maxVal : Q
}.

Definition Stats0 : Stats := mkStats 0 0 0 DBL_MAX DBL_LOWEST.

Definition Qmin (a b : Q) : Q := if Qlt_bool b a then b else a.
Definition Qmax (a b : Q) : Q := if Qlt_bool a b then b else a.

Definition updateStats (stats : Stats) (value : Q) : Stats :=
  if Qeq_bool value (-1) then stats
  else mkStats (sum stats + value) (sumSq stats + value * value)
               (count stats + 1)
               (Qmin (minVal stats) value) (Qmax (maxVal stats) value).

(** What [computeAndPrintStats] prints: nothing but "No valid data" for an
    empty accumulator, else average, variance, min and max. *)
Record printed : Type := mkPrinted {
  p_avg : Q;
  p_variance : Q;
  p_min : Q;
  p_max : Q
}.

Definition computeAndPrintStats (stats : Stats) : option printed :=
  if (count stats =? 0)%Z then None
  else
    let avg := sum stats / inject_Z (count stats) in
    let variance :=
      if (1 <? count stats)%Z
      then (sumSq stats - (sum stats * sum stats) / inject_Z (count stats))
           / inject_Z (count stats - 1)
      else 0 in
    Some (mkPrinted avg variance (minVal stats) (maxVal stats)).

(** The data points an accumulator keeps: all but the sentinel. *)
Definition kept (values : list Q) : list Q :=
  filter (fun v => negb (Qeq_bool v (-1))) values.

End Pupilsizecal.

(** ** Strings and tables *)

(** [hay.find(needle) != string::npos] *)
Fixpoint contains (hay needle : string) : bool :=
  prefix needle hay
  || match hay with
     | EmptyString => false
     | String _ rest => contains rest needle
     end.

Definition isspace (c : ascii) : bool :=
  match nat_of_ascii c with
  | 9%nat | 10%nat | 11%nat | 12%nat | 13%nat | 32%nat => true
  | _ => false
  end.

Fixpoint ltrim (s : string) : string :=
  match s with
  | EmptyString => EmptyString
  | String c rest => if isspace c then ltrim rest else s
  end.

Definition string_rev (s : string) : string :=
  string_of_list_ascii (rev (list_ascii_of_string s)).

Definition trim (str : string) : string :=
  string_rev (ltrim (string_rev (ltrim str))).

(** A loaded CSV file: [vector<vector<string>>]. *)
Definition table : Type := list (list string).

(** [v[i]] with an [int] index: [None] is an access out of the vector's
    range (a negative [int] converts to a huge [size_t]). *)
Definition at_ {A : Type} (v : list A) (i : Z) : option A :=
  if (i <? 0)%Z then None else nth_error v (Z.to_nat i).

(** [size <= c] for a [size_t] size and an [int] c: c is converted to
    [size_t], so every size is below a negative c. *)
Definition size_le_int (size : nat) (c : Z) : bool :=
  if (c <? 0)%Z then true else (Z.of_nat size <=? c)%Z.

(** ** Column and event locator *)

Fixpoint findPupilColumns_from (i : Z) (headerRow : list string) (cols : Z * Z) : Z * Z :=
  match headerRow with
  | [] => cols
  | cell :: rest =>
      let trimmedCell := trim cell in
      let leftPupilCol := if contains trimmedCell "leftPupil" then i else fst cols in
      let rightPupilCol := if contains trimmedCell "rightPupil" then i else snd cols in
      findPupilColumns_from (i + 1) rest (leftPupilCol, rightPupilCol)
  end.

Definition findPupilColumns (headerRow : list string) : Z * Z :=
  findPupilColumns_from 0 headerRow (-1, -1)%Z.

Fixpoint findEventRow_from (i : Z) (rows : table) : Z :=
  match rows with
  | [] => -1
  | row :: rest =>
      if existsb (fun cell => contains cell "0.2 seconds") row then i
      else findEventRow_from (i + 1) rest
  end.

(** Single-event protocol: rows 1.. are searched, row 0 is the header. *)
Definition findEventRow (data : table) : Z := findEventRow_from 1 (tl data).

Fixpoint findEventRows_from (i : Z) (rows : table) (eventColumn : Z) (found : Z * Z) : Z * Z :=
  match rows with
  | [] => found
  | row :: rest =>
      if size_le_int (length row) eventColumn
      then findEventRows_from (i + 1) rest eventColumn found
      else
        let eventColumnValue := nth (Z.to_nat eventColumn) row EmptyString in
        let rowFor02 :=
          if contains eventColumnValue "0.2 seconds" && (fst found =? -1)%Z
          then i else fst found in
        let rowForShook :=
          if contains eventColumnValue "shook" && (snd found =? -1)%Z
          then i else snd found in
        if negb (rowFor02 =? -1)%Z && negb (rowForShook =? -1)%Z
        then (rowFor02, rowForShook)
        else findEventRows_from (i + 1) rest eventColumn (rowFor02, rowForShook)
  end.

(** Dual-event protocol. *)
Definition findEventRows (data : table) (eventColumn : Z) : Z * Z :=
  findEventRows_from 1 (tl data) eventColumn (-1, -1)%Z.

(** The first header cell that mentions "robotEvent" (both [main]s of the
    dual-event extractors). *)
Fixpoint findEventColumn_from (i : Z) (headerRow : list string) : Z :=
  match headerRow with
  | [] => -1
  | cell :: rest =>
      if contains (trim cell) "robotEvent" then i
      else findEventColumn_from (i + 1) rest
  end.

Definition findEventColumn (headerRow : list string) : Z :=
  findEventColumn_from 0 headerRow.

(** ** Window extractor: the loop both variants of calculatePupilAverages run *)

(** The accumulators of one window. *)
Record window : Type := mkWindow {
  sumLeft : Q;
  leftcount : Q;
  leftvals : list Q;
  sumRight : Q;
  rightcount : Q;
  rightvals : list Q;
  luminancesum : Q;
  luminancecnt : Q;
  totalcount : Q
}.

Definition window0 : window := mkWindow 0 0 [] 0 0 [] 0 0 0.

(** One row inside the window: each quantity is added when it is [> 0],
    the row is counted either way. *)
Definition window_add (w : window) (leftPupilSize rightPupilSize luminance : Q) : window :=
  let left := Qlt_bool 0 leftPupilSize in
  let right := Qlt_bool 0 rightPupilSize in
  let lum := Qlt_bool 0 luminance in
  mkWindow
    (if left then sumLeft w + leftPupilSize else sumLeft w)
    (if left then leftcount w + 1 else leftcount w)
    (if left then leftvals w ++ [leftPupilSize] else leftvals w)
    (if right then sumRight w + rightPupilSize else sumRight w)
    (if right then rightcount w + 1 else rightcount w)
    (if right then rightvals w ++ [rightPupilSize] else rightvals w)
    (if lum then luminancesum w + luminance else luminancesum w)
    (if lum then luminancecnt w + 1 else luminancecnt w)
    (totalcount w + 1).

(** A parsed row. *)
Record sample : Type := mkSample {
  timeValue : Q;
  leftPupilSize : Q;
  rightPupilSize : Q;
  luminance : Q
}.

(** What the head of the loop body does with one row: [Skipped] (the size
    test or a [stod] that throws inside the [try]), a parsed sample, or
    [OutOfRange] when a cell is indexed outside the row. *)
Inductive row_result : Type :=
  | Skipped
  | Parsed (s : sample)
  | OutOfRange.

Section Extractor.

(** [std::stod]: [None] when it throws. *)
Variable stod : string -> option Q.
Variable sqrt : Q -> Q.

(** [stod(row[c])] inside the [try] block. *)
Definition cell (row : list string) (c : Z) (k : Q -> row_result) : row_result :=
  match at_ row c with
  | None => OutOfRange
  | Some text =>
      match stod text with
      | None => Skipped
      | Some v => k v
      end
  end.

(** The luminance column is [leftPupilCol - 1], kept in a [double] and
    used as the index. *)
Definition parse_row (row : list string) (timeCol leftPupilCol rightPupilCol : Z) : row_result :=
  if size_le_int (length row) (Z.max leftPupilCol rightPupilCol) then Skipped
  else
    cell row timeCol (fun t =>
    cell row leftPupilCol (fun l =>
    cell row rightPupilCol (fun r =>
    cell row (leftPupilCol - 1) (fun lum =>
    Parsed (mkSample t l r lum))))).

Definition in_before (beforeTime t : Q) : bool :=
  Qle_bool (beforeTime - 5.0) t && Qle_bool t beforeTime.

Definition in_after (afterAnchor t : Q) : bool :=
  Qle_bool afterAnchor t && Qle_bool t (afterAnchor + 5.0).

Definition add_sample (beforeTime afterAnchor : Q) (ws : window * window) (s : sample)
  : window * window :=
  let before :=
    if in_before beforeTime (timeValue s)
    then window_add (fst ws) (leftPupilSize s) (rightPupilSize s) (luminance s)
    else fst ws in
  let after :=
    if in_after afterAnchor (timeValue s)
    then window_add (snd ws) (leftPupilSize s) (rightPupilSize s) (luminance s)
    else snd ws in
  (before, after).

(** The [for] loop over the rows after the header. *)
Fixpoint scan_rows (rows : table) (timeCol leftPupilCol rightPupilCol : Z)
         (beforeTime afterAnchor : Q) (ws : window * window)
  : outcome (window * window) :=
  match rows with
  | [] => Ret ws
  | row :: rest =>
      match parse_row row timeCol leftPupilCol rightPupilCol with
      | OutOfRange => Undefined
      | Skipped =>
          scan_rows rest timeCol leftPupilCol rightPupilCol beforeTime afterAnchor ws
      | Parsed s =>
          scan_rows rest timeCol leftPupilCol rightPupilCol beforeTime afterAnchor
                    (add_sample beforeTime afterAnchor ws s)
      end
  end.

(** [(count >= total * 0.5) ? sum / count : -1] *)
Definition window_average (sum count total : Q) : double :=
  if Qle_bool (total * 0.5) count then ddiv sum count else Fin (-1).

Definition size_of (l : list Q) : double := Fin (Qlen l).

(** The fourteen doubles both variants return. *)
Definition datalist_of (before after : window) : list double :=
  let avgLeftBefore := window_average (sumLeft before) (leftcount before) (totalcount before) in
  let avgRightBefore := window_average (sumRight before) (rightcount before) (totalcount before) in
  let avgLeftAfter := window_average (sumLeft after) (leftcount after) (totalcount after) in
  let avgRightAfter := window_average (sumRight after) (rightcount after) (totalcount after) in
  let avgluminancebefore :=
    window_average (luminancesum before) (luminancecnt before) (totalcount before) in
  let avgluminanceafter :=
    window_average (luminancesum after) (luminancecnt after) (totalcount after) in
  [ avgluminancebefore;
    avgLeftBefore; size_of (leftvals before);
    calculateStdDev sqrt (leftvals before) avgLeftBefore;
    avgRightBefore; size_of (rightvals before);
    calculateStdDev sqrt (rightvals before) avgRightBefore;
    avgluminanceafter;
    avgLeftAfter; size_of (leftvals after);
    calculateStdDev sqrt (leftvals after) avgLeftAfter;
    avgRightAfter; size_of (rightvals after);
    calculateStdDev sqrt (rightvals before) avgRightBefore ].

(** [stod(data[row][timeCol])] outside any [try]: the exception is not
    caught. *)
Definition anchor_time (data : table) (row timeCol : Z) : outcome Q :=
  match at_ data row with
  | None => Undefined
  | Some r =>
      match at_ r timeCol with
      | None => Undefined
      | Some text =>
          match stod text with
          | None => Throws
          | Some t => Ret t
          end
      end
  end.

Definition extract (data : table) (timeCol leftPupilCol rightPupilCol : Z)
           (beforeTime afterAnchor : Q) : outcome (list double) :=
  ws <- scan_rows (tl data) timeCol leftPupilCol rightPupilCol
                  beforeTime afterAnchor (window0, window0) ;;
  Ret (datalist_of (fst ws) (snd ws)).

End Extractor.

(** ** The summary files and the report both extractors build *)

(** One line of leftpupil.txt or rightpupil.txt. *)
Record summary_line : Type := mkLine {
  index : Q;
  luminanceBefore : double;
  pupilBefore : double;
  countBefore : double;
  stdBefore : double;
  luminanceAfter : double;
  pupilAfter : double;
  countAfter : double;
  stdAfter : double
}.

(** The per-subject lines written to the console. *)
Inductive message : Type :=
  | CouldNotLoad (fileIndex : string)
  | PupilColumnNotFound (fileIndex : string)
  | EventColumnNotFound (fileIndex : string)
  | EventNotFound (fileIndex : string)
  | InvalidLeftEye (fileIndex : string)
  | ValidLeftEye (fileIndex : string)
  | InvalidRightEye (fileIndex : string)
  | ValidRightEye (fileIndex : string)
  | InvalidLuminance (fileIndex : string).

(** The two append-only files, the tallies printed after the loop and the
    console.  The running sums of the valid averages, which only feed the
    printed totals, are left out. *)
Record report : Type := mkReport {
  leftpupil_txt : list summary_line;
  rightpupil_txt : list summary_line;
  missingEventIndices : list string;
  validleftcnt : Z;
  validrightcnt : Z;
  invalidluminancecnt : Z;
  invalidluminance : list string;
  console : list message
}.

Definition report0 : report := mkReport [] [] [] 0 0 0 [] [].

(** [set<string>::insert] *)
Definition set_insert (x : string) (s : list string) : list string :=
  if existsb (String.eqb x) s then s else s ++ [x].

Definition say (m : message) (st : report) : report :=
  mkReport (leftpupil_txt st) (rightpupil_txt st) (missingEventIndices st)
           (validleftcnt st) (validrightcnt st) (invalidluminancecnt st)
           (invalidluminance st) (console st ++ [m]).

Definition note_missing_event (fileIndex : string) (st : report) : report :=
  mkReport (leftpupil_txt st) (rightpupil_txt st)
           (set_insert fileIndex (missingEventIndices st))
           (validleftcnt st) (validrightcnt st) (invalidluminancecnt st)
           (invalidluminance st) (console st).

(** [validleftcnt++] and [validrightcnt++] *)
Definition count_valid_left (st : report) : report :=
  mkReport (leftpupil_txt st) (rightpupil_txt st) (missingEventIndices st)
           (validleftcnt st + 1) (validrightcnt st) (invalidluminancecnt st)
           (invalidluminance st) (console st).

Definition count_valid_right (st : report) : report :=
  mkReport (leftpupil_txt st) (rightpupil_txt st) (missingEventIndices st)
           (validleftcnt st) (validrightcnt st + 1) (invalidluminancecnt st)
           (invalidluminance st) (console st).

(** The two files saveVectorToFile is called with. *)
Inductive summary_file : Type := LeftPupilTxt | RightPupilTxt.

(** [opened] is the outcome of opening the file for appending: when the
    stream is not open ([if (!outFile)]) an error is printed and the
    function returns with nothing written; else one line is appended. *)
Definition saveVectorToFile (opened : bool) (index : Q)
           (luminancebefore pupilbefore beforecnt beforesd
            luminanceafter pupilafter aftercnt aftersd : double)
           (filename : summary_file) (st : report) : report :=
  if negb opened then st
  else
    let line := mkLine index luminancebefore pupilbefore beforecnt beforesd
                       luminanceafter pupilafter aftercnt aftersd in
    match filename with
    | LeftPupilTxt =>
        mkReport (leftpupil_txt st ++ [line]) (rightpupil_txt st) (missingEventIndices st)
                 (validleftcnt st) (validrightcnt st) (invalidluminancecnt st)
                 (invalidluminance st) (console st)
    | RightPupilTxt =>
        mkReport (leftpupil_txt st) (rightpupil_txt st ++ [line]) (missingEventIndices st)
                 (validleftcnt st) (validrightcnt st) (invalidluminancecnt st)
                 (invalidluminance st) (console st)
    end.

Definition note_invalid_luminance (fileIndex : string) (st : report) : report :=
  mkReport (leftpupil_txt st) (rightpupil_txt st) (missingEventIndices st)
           (validleftcnt st) (validrightcnt st) (invalidluminancecnt st + 1)
           (invalidluminance st ++ [fileIndex]) (console st).

Section Mains.

Variable stod : string -> option Q.

(** Whether the summary file can be opened for appending when the subject
    with this file index is saved. *)
Variable opens : summary_file -> string -> bool.

(** [stod(fileIndex)], an argument of the call of saveVectorToFile. *)
Definition index_of (fileIndex : string) : outcome Q :=
  match stod fileIndex with
  | None => Throws
  | Some i => Ret i
  end.

(** The part of the loop body below the call of calculatePupilAverages,
    the same text in both files.  [datalist[i]] is [d i]. *)
Definition record_subject (st : report) (fileIndex : string) (datalist : list double)
  : outcome report :=
  let d i := nth i datalist NaN in
  if dgt0 (d 0%nat) || dgt0 (d 7%nat) then
    st1 <- (if dlt0 (d 1%nat) || dlt0 (d 8%nat)
            then Ret (say (InvalidLeftEye fileIndex) st)
            else
              i <- index_of fileIndex ;;
              Ret (saveVectorToFile (opens LeftPupilTxt fileIndex)
                            i (d 0%nat) (d 1%nat) (d 2%nat) (d 3%nat)
                            (d 7%nat) (d 8%nat) (d 9%nat) (d 10%nat) LeftPupilTxt
                            (count_valid_left (say (ValidLeftEye fileIndex) st)))) ;;
    (if dlt0 (d 4%nat) || dlt0 (d 11%nat)
     then Ret (say (InvalidRightEye fileIndex) st1)
     else
       i <- index_of fileIndex ;;
       Ret (saveVectorToFile (opens RightPupilTxt fileIndex)
                     i (d 0%nat) (d 4%nat) (d 5%nat) (d 6%nat)
                     (d 7%nat) (d 11%nat) (d 12%nat) (d 13%nat) RightPupilTxt
                     (count_valid_right (say (ValidRightEye fileIndex) st1))))
  else
    Ret (say (InvalidLuminance fileIndex) (note_invalid_luminance fileIndex st)).

(** [fileName.substr(0, 5)] *)
Definition fileIndex_of (fileName : string) : string := substring 0 5 fileName.

(** The loop over the directory: the files in the order the iterator
    gives them, each with what loadCSV read. *)
Fixpoint for_each_file (body : report -> string -> table -> outcome report)
         (files : list (string * table)) (st : report) : outcome report :=
  match files with
  | [] => Ret st
  | (fileName, data) :: rest =>
      st' <- body st (fileIndex_of fileName) data ;;
      for_each_file body rest st'
  end.

(** The report both [main]s print after the loop, [totalcnt] being the
    number of regular .csv files of the folder.  Its averages divide
    doubles; [invalidluminancecnt / totalcnt] divides two [int]s, and is
    kept here: with no .csv file the divisor is zero. *)
Definition final_report (totalcnt : Z) (st : report) : outcome (report * Z) :=
  if (totalcnt =? 0)%Z then Undefined
  else Ret (st, Z.quot (invalidluminancecnt st) totalcnt).

End Mains.

(** Every opening of a summary file succeeds. *)
Definition always_open : summary_file -> string -> bool := fun _ _ => true.

(** ** noshookpupil.cpp: the single-event extractor *)

Module Noshookpupil.
Section WithLibrary.

Variable stod : string -> option Q.
Variable sqrt : Q -> Q.
Variable opens : summary_file -> string -> bool.

Definition calculatePupilAverages (data : table)
         (timeCol leftPupilCol rightPupilCol eventRow : Z) : outcome (list double) :=
if (eventRow =? -1)%Z then Ret [Fin (-1); Fin (-1); Fin (-1); Fin (-1)]
else
  t <- anchor_time stod data eventRow timeCol ;;
  let eventTime := t + 0.229 in
  let beforeTime := t in
  extract stod sqrt data timeCol leftPupilCol rightPupilCol beforeTime eventTime.

Definition process_file (st : report) (fileIndex : string) (data : table) : outcome report :=
match data with
| [] => Ret st
| headerRow :: _ =>
    let pupilColumns := findPupilColumns headerRow in
    let eventRow := findEventRow data in
    if (eventRow =? -1)%Z then Ret (note_missing_event fileIndex st)
    else
      datalist <- calculatePupilAverages data 0 (fst pupilColumns) (snd pupilColumns)
                                         eventRow ;;
      record_subject stod opens st fileIndex datalist
end.

(** The loop of [main] over the regular .csv files of the folder. *)
Definition main (files : list (string * table)) : outcome report :=
for_each_file process_file files report0.

(** [main] from the folder, which exists, to its end: the loop, then the
    report. *)
Definition program (files : list (string * table)) : outcome (report * Z) :=
st <- main files ;; final_report (Z.of_nat (length files)) st.

End WithLibrary.
End Noshookpupil.

(** ** shookpupil.cpp: the dual-event extractor *)

Module Shookpupil.
Section WithLibrary.

Variable stod : string -> option Q.
Variable sqrt : Q -> Q.
Variable opens : summary_file -> string -> bool.

Definition calculatePupilAverages (data : table)
         (timeCol leftPupilCol rightPupilCol rowFor02 rowForShook : Z)
: outcome (list double) :=
beforeTime <- anchor_time stod data rowFor02 timeCol ;;
timeAfter <- anchor_time stod data rowForShook timeCol ;;
extract stod sqrt data timeCol leftPupilCol rightPupilCol beforeTime timeAfter.

Definition process_file (st : report) (fileIndex : string) (data : table) : outcome report :=
match data with
| [] => Ret (say (CouldNotLoad fileIndex) st)
| headerRow :: _ =>
    let pupilColumns := findPupilColumns headerRow in
    if (fst pupilColumns =? -1)%Z || (snd pupilColumns =? -1)%Z
    then Ret (say (PupilColumnNotFound fileIndex) st)
    else
      let eventColumn := findEventColumn headerRow in
      if (eventColumn =? -1)%Z then Ret (say (EventColumnNotFound fileIndex) st)
      else
        let eventRows := findEventRows data eventColumn in
        if (fst eventRows =? -1)%Z || (snd eventRows =? -1)%Z
        then Ret (say (EventNotFound fileIndex) st)
        else
          datalist <- calculatePupilAverages data 0 (fst pupilColumns) (snd pupilColumns)
                                             (fst eventRows) (snd eventRows) ;;
          record_subject stod opens st fileIndex datalist
end.

(** The loop of [main] over the regular .csv files of the folder. *)
Definition main (files : list (string * table)) : outcome report :=
for_each_file process_file files report0.

(** [main] from the folder, which exists, to its end: the loop, then the
    report. *)
Definition program (files : list (string * table)) : outcome (report * Z) :=
st <- main files ;; final_report (Z.of_nat (length files)) st.

End WithLibrary.
End Shookpupil.

(** Either variant of calculatePupilAverages returns [datalist], the
    before window ending at [bt] and the after window starting at [aft]:
    in the single-event variant [bt] is the time of the tag row and [aft]
    is [bt + 0.229]; in the dual-event variant they are the times of the
    two marker rows. *)
Definition either_variant_returns (stod : string -> option Q) (sqrt : Q -> Q)
           (data : table) (timeCol leftPupilCol rightPupilCol : Z)
           (bt aft : Q) (datalist : list double) : Prop :=
  (exists eventRow,
      eventRow <> (-1)%Z
      /\ anchor_time stod data eventRow timeCol = Ret bt
      /\ aft = bt + 0.229
      /\ Noshookpupil.calculatePupilAverages stod sqrt data timeCol leftPupilCol
            rightPupilCol eventRow = Ret datalist)
  \/ (exists rowFor02 rowForShook,
         anchor_time stod data rowFor02 timeCol = Ret bt
         /\ anchor_time stod data rowForShook timeCol = Ret aft
         /\ Shookpupil.calculatePupilAverages stod sqrt data timeCol leftPupilCol
               rightPupilCol rowFor02 rowForShook = Ret datalist).

(** ** t_test_after.cpp: calibration lookup and significance test *)

Module TTestAfter.

Record PupilData : Type := mkPupilData {
  luminance : Q;
  avgSize : Q;
  count : Z;
  stdDev : Q
}.

(** [map<double, PupilData>]: the entries in the order of the container,
    which is that of their keys. *)
Definition mapping : Type := list (Q * PupilData).

(** [mapping[key] = value]: the entry is inserted at its place; an entry
    with an equivalent key keeps its key and takes the new value. *)
Fixpoint assign (m : mapping) (key : Q) (value : PupilData) : mapping :=
  match m with
  | [] => [(key, value)]
  | (k, v) :: rest =>
      if Qlt_bool key k then (key, value) :: m
      else if Qlt_bool k key then (k, v) :: assign rest key value
      else (k, value) :: rest
  end.

(** [(int)x], truncation towards zero, for an [x] whose truncation an
    [int] holds; for any other [x] the conversion is undefined, which
    [cast_to_int] below says. *)
Definition to_int (x : Q) : Z := if Qle_bool 0 x then Qfloor x else Qceiling x.

(** [(int)x] with its domain: [None] is the undefined conversion of a
    value whose truncation no [int] (of 32 bits) holds. *)
Definition cast_to_int (x : Q) : option Z :=
  if (- 2 ^ 31 <=? to_int x)%Z && (to_int x <=? 2 ^ 31 - 1)%Z then Some (to_int x)
  else None.

(** A data line of a mapping file, as the seven extractions read it. *)
Record mapping_line : Type := mkMappingLine {
  l_luminance : Q;
  l_avgLeft : Q;
  l_leftCount : Q;
  l_leftStd : Q;
  l_avgRight : Q;
  l_rightCount : Q;
  l_rightStd : Q
}.

(** [None] is a mapping file that cannot be opened. *)
Definition readLuminanceMapping (file : option (list mapping_line)) : mapping * mapping :=
  match file with
  | None => ([], [])
  | Some lines =>
      fold_left
        (fun '(leftMapping, rightMapping) l =>
           (assign leftMapping (l_luminance l)
                   (mkPupilData (l_luminance l) (l_avgLeft l) (to_int (l_leftCount l))
                                (l_leftStd l)),
            assign rightMapping (l_luminance l)
                   (mkPupilData (l_luminance l) (l_avgRight l) (to_int (l_rightCount l))
                                (l_rightStd l))))
        lines ([], [])
  end.

(** [mapping.lower_bound(target)] as a position: the number of entries in
    front of the first one whose key is not less than the target;
    [length m] is [end()]. *)
Fixpoint lower_bound (m : mapping) (target : Q) : nat :=
  match m with
  | [] => 0
  | (k, _) :: rest => if Qlt_bool k target then S (lower_bound rest target) else 0
  end.

Definition no_data : PupilData := mkPupilData (-1) (-1) (-1) (-1).

(** The entry an iterator at position [i] points to. *)
Definition entry (m : mapping) (i : nat) : Q * PupilData := nth i m (-1, no_data).

Definition getClosestLuminanceMatch (m : mapping) (targetLum : Q) : PupilData :=
  match m with
  | [] => no_data
  | _ =>
      let it := lower_bound m targetLum in
      if (it =? length m)%nat then snd (entry m (it - 1))
      else if (it =? 0)%nat then snd (entry m it)
      else
        let lower := (it - 1)%nat in
        if Qlt_bool (Qabs (fst (entry m lower) - targetLum))
                    (Qabs (fst (entry m it) - targetLum))
        then snd (entry m lower)
        else snd (entry m it)
  end.

Section Test.

Variable sqrt : Q -> Q.
(** [cdf(students_t(df), x)] *)
Variable students_t_cdf : Z -> Q -> Q.

Definition pooled (std1 : Q) (n1 : Z) (std2 : Q) (n2 : Z) : Q :=
  std1 ^ 2 / inject_Z n1 + std2 ^ 2 / inject_Z n2.

Definition computeTTest (mean1 std1 : Q) (n1 : Z) (mean2 std2 : Q) (n2 : Z) : Q :=
  if (n1 <? 2)%Z || (n2 <? 2)%Z then -1
  else
    let pooledVar := pooled std1 n1 std2 n2 in
    if Qeq_bool pooledVar 0 then -1
    else
      let tScore := (mean1 - mean2) / sqrt pooledVar in
      let df := (Z.min n1 n2 - 1)%Z in
      2 * (1 - students_t_cdf df (Qabs tScore)).

End Test.

(** The lookup as one pass over the entries: [prev] is the last entry
    whose key is less than the target.  It is shown below to be what
    getClosestLuminanceMatch computes. *)
Fixpoint walk (prev : Q * PupilData) (rest : mapping) (target : Q) : PupilData :=
  match rest with
  | [] => snd prev
  | (k, v) :: rest' =>
      if Qlt_bool k target then walk (k, v) rest' target
      else if Qlt_bool (Qabs (fst prev - target)) (Qabs (k - target))
           then snd prev else v
  end.

(** The body of getClosestLuminanceMatch below the test for emptiness. *)
Definition lookup (m : mapping) (targetLum : Q) : PupilData :=
  let it := lower_bound m targetLum in
  if (it =? length m)%nat then snd (entry m (it - 1))
  else if (it =? 0)%nat then snd (entry m it)
  else
    let lower := (it - 1)%nat in
    if Qlt_bool (Qabs (fst (entry m lower) - targetLum))
                (Qabs (fst (entry m it) - targetLum))
    then snd (entry m lower)
    else snd (entry m it).

(** The keys of a [std::map] are strictly increasing. *)
Fixpoint ordered (m : mapping) : Prop :=
  match m with
  | [] => True
  | (k, _) :: rest =>
      match rest with
      | [] => True
      | (k', _) :: _ => k < k' /\ ordered rest
      end
  end.

End TTestAfter.

(** ** What a window holds, in the words of the specification *)

Inductive quantity : Type := LeftPupil | RightPupil | Luminance.

Definition value_of (q : quantity) (s : sample) : Q :=
  match q with
  | LeftPupil => leftPupilSize s
  | RightPupil => rightPupilSize s
  | Luminance => luminance s
  end.

Definition sum_of (q : quantity) (w : window) : Q :=
  match q with
  | LeftPupil => sumLeft w
  | RightPupil => sumRight w
  | Luminance => luminancesum w
  end.

Definition count_of (q : quantity) (w : window) : Q :=
  match q with
  | LeftPupil => leftcount w
  | RightPupil => rightcount w
  | Luminance => luminancecnt w
  end.

(** The value reported for a quantity of a window. *)
Definition reported (q : quantity) (w : window) : double :=
  window_average (sum_of q w) (count_of q w) (totalcount w).

(** The rows of a recording that reach the window tests: those that pass
    the size test and whose four cells parse. *)
Fixpoint parsed_rows (stod : string -> option Q) (rows : table)
         (timeCol leftPupilCol rightPupilCol : Z) : list sample :=
  match rows with
  | [] => []
  | row :: rest =>
      match parse_row stod row timeCol leftPupilCol rightPupilCol with
      | Parsed s => s :: parsed_rows stod rest timeCol leftPupilCol rightPupilCol
      | _ => parsed_rows stod rest timeCol leftPupilCol rightPupilCol
      end
  end.

(** The samples whose time lies in [[lo, hi]]. *)
Definition window_samples (lo hi : Q) (samples : list sample) : list sample :=
  filter (fun s => Qle_bool lo (timeValue s) && Qle_bool (timeValue s) hi) samples.

(** The values of a quantity that are valid: strictly positive. *)
Definition valid_values (q : quantity) (samples : list sample) : list Q :=
  filter (Qlt_bool 0) (map (value_of q) samples).

Definition samples_count (samples : list sample) : Q :=
  inject_Z (Z.of_nat (length samples)).

(** Window [w] has accumulated exactly the samples [S]. *)
Definition holds (w : window) (S : list sample) : Prop :=
  totalcount w == samples_count S
  /\ leftvals w = valid_values LeftPupil S
  /\ rightvals w = valid_values RightPupil S
  /\ forall q, sum_of q w == Qsum (valid_values q S)
             /\ count_of q w == Qlen (valid_values q S).

(** The validity rule in the words of the specification, for a reported
    value [r], the values [V] taken as valid and the number [m] of samples
    of the window: the sentinel exactly below half, otherwise the quotient
    of the sum by the count. *)
Definition validity_rule (r : double) (V : list Q) (m : Q) : Prop :=
  (deq r (Fin (-1)) <-> Qlen V < 0.5 * m)
  /\ (~ Qlen V < 0.5 * m -> deq r (ddiv (Qsum V) (Qlen V)))
  /\ (Qlen V == 0.5 * m -> ~ deq r (Fin (-1))).

(** ** Instances of the library parameters, to run the model *)

Definition digit (c : ascii) : option Z :=
  let n := Z.of_nat (nat_of_ascii c) in
  if (48 <=? n)%Z && (n <=? 57)%Z then Some (n - 48)%Z else None.

(** The leading digits of [s]: their value, how many there are, the rest. *)
Fixpoint digits (s : string) (value : Z) (n : nat) : Z * nat * string :=
  match s with
  | EmptyString => (value, n, s)
  | String c rest =>
      match digit c with
      | Some d => digits rest (10 * value + d)%Z (S n)
      | None => (value, n, s)
      end
  end.

(** [stod] on plain decimal numerals: blanks, a sign, digits, a point,
    digits; what follows is ignored, and no digit at all is the exception. *)
Definition stod_decimal (s : string) : option Q :=
  let s := ltrim s in
  let '(negative, s) :=
    match s with
    | String "-" rest => (true, rest)
    | String "+" rest => (false, rest)
    | _ => (false, s)
    end in
  let '(whole, n1, rest) := digits s 0 0 in
  let '(frac, n2, _) :=
    match rest with
    | String "." rest' => digits rest' 0 0
    | _ => (0%Z, 0%nat, rest)
    end in
  if (n1 + n2 =? 0)%nat then None
  else
    let v := Qred (inject_Z whole + inject_Z frac / inject_Z (10 ^ Z.of_nat n2)) in
    Some (if negative then - v else v).

(** A square root by Heron's iteration. *)
Fixpoint heron (n : nat) (x y : Q) : Q :=
  match n with
  | O => y
  | S n' => heron n' x (Qred ((y + x / y) / 2))
  end.

Definition sqrt_heron (x : Q) : Q :=
  if Qle_bool x 0 then 0 else heron 4 x (Qred ((x + 1) / 2)).

(** A distribution function with the shape of Student's: 1/2 at 0,
    increasing to 1. *)
Definition cdf_example (df : Z) (x : Q) : Q := (1 # 2) + x / (2 * (1 + Qabs x)).

(** ** Example recordings *)

Local Open Scope string_scope.

Definition header5 : list string :=
  ["time"; "luminance"; "leftPupil"; "rightPupil"; "robotEvent"].

(** Three rows up to the tag at 5.0 (one left sample is the sentinel), two
    rows after it. *)
Definition recording : table :=
  [ header5;
    ["4.0"; "10.0"; "4.0"; "3.0"; ""];
    ["4.5"; "10.0"; "-1"; "3.0"; ""];
    ["5.0"; "10.0"; "4.0"; "3.0"; "0.2 seconds"];
    ["5.5"; "12.0"; "4.2"; "2.0"; "shook"];
    ["6.0"; "12.0"; "4.4"; "4.0"; ""] ].

(** The recording starts at the tag: one row in the before window. *)
Definition recording_from_tag : table :=
  [ header5;
    ["5.0"; "10.0"; "4.0"; "3.0"; "0.2 seconds"];
    ["5.5"; "12.0"; "4.2"; "2.0"; "shook"];
    ["6.0"; "12.0"; "4.4"; "4.0"; ""] ].

(** The recording ends at the tag: no row in the after window of the
    single-event protocol. *)
Definition recording_to_tag : table :=
  [ header5;
    ["4.0"; "10.0"; "4.0"; "3.0"; ""];
    ["4.5"; "10.0"; "4.0"; "3.0"; ""];
    ["5.0"; "10.0"; "4.0"; "3.0"; "0.2 seconds"] ].

(** No "shook" marker. *)
Definition recording_no_shook : table :=
  [ header5;
    ["4.5"; "10.0"; "4.0"; "3.0"; ""];
    ["5.0"; "10.0"; "4.0"; "3.0"; "0.2 seconds"];
    ["5.5"; "12.0"; "4.2"; "2.0"; ""] ].

(** No "0.2 seconds" tag. *)
Definition recording_no_tag : table :=
  [ header5;
    ["4.5"; "10.0"; "4.0"; "3.0"; ""];
    ["5.0"; "10.0"; "4.0"; "3.0"; ""] ].

(** No left pupil column. *)
Definition recording_no_left : table :=
  [ ["time"; "luminance"; "rightPupil"; "robotEvent"];
    ["4.5"; "10.0"; "3.0"; ""];
    ["5.0"; "10.0"; "3.0"; "0.2 seconds"];
    ["5.5"; "12.0"; "2.0"; "shook"] ].

(** The left pupil column is the first one. *)
Definition recording_left_first : table :=
  [ ["leftPupil"; "rightPupil"; "robotEvent"];
    ["4.0"; "3.0"; "0.2 seconds"];
    ["4.2"; "2.0"; "shook"] ].

Local Close Scope string_scope.

Module Examples.
Import TTestAfter.

Definition row10 : PupilData := mkPupilData 10 5 5 0.1.
Definition row20 : PupilData := mkPupilData 20 6 5 0.1.

(** Scenario 3 of the specification, left eye. *)
Definition two_rows : mapping := [(10, row10); (20, row20)].

End Examples.

(** ** The locator, in the words of its callers *)

(** The event column of a row holds the marker: the row reaches past the
    column and the cell there contains it. *)
Definition event_cell_has (eventColumn : Z) (marker : string) (row : list string) : bool :=
  negb (size_le_int (length row) eventColumn)
  && contains (nth (Z.to_nat eventColumn) row EmptyString) marker.

(** The index of the first of [rows], counted from [i], that satisfies
    [p]; -1 when none does. *)
Fixpoint first_match {A : Type} (p : A -> bool) (i : Z) (rows : list A) : Z :=
  match rows with
  | [] => -1
  | row :: rest => if p row then i else first_match p (i + 1) rest
  end.

(** [r] is the index in [l] of the first element from position [from] on
    that satisfies [p], or -1 when there is none. *)
Definition first_index_where {A : Type} (p : A -> bool) (from : nat) (l : list A) (r : Z)
  : Prop :=
  (r = (-1)%Z
   /\ forall j x, (from <= j)%nat -> nth_error l j = Some x -> p x = false)
  \/ (exists i x,
         r = Z.of_nat i /\ (from <= i)%nat /\ nth_error l i = Some x /\ p x = true
         /\ forall j y, (from <= j < i)%nat -> nth_error l j = Some y -> p y = false).

(** [r] is the index in [l] of the last element that satisfies [p], or -1
    when there is none. *)
Definition last_index_where {A : Type} (p : A -> bool) (l : list A) (r : Z) : Prop :=
  (r = (-1)%Z /\ forall x, In x l -> p x = false)
  \/ (exists i x,
         r = Z.of_nat i /\ nth_error l i = Some x /\ p x = true
         /\ forall j y, (i < j)%nat -> nth_error l j = Some y -> p y = false).

(** ** The lines of the summary files *)

(** What [main] has tested before it writes a line: neither mean of the
    eye is below zero, and one of the two luminance means is above. *)
Definition line_ok (line : summary_line) : Prop :=
  dlt0 (pupilBefore line) = false
  /\ dlt0 (pupilAfter line) = false
  /\ dgt0 (luminanceBefore line) || dgt0 (luminanceAfter line) = true.

(** What holds of the report after [n] files: each counter of valid eyes
    is at least the number of lines of its file and at most [n], and is
    that number of lines when every opening succeeds ([always_opens]);
    the counter of invalid luminances is the length of their list; every
    line passed the tests of [main], and its index satisfies
    [from_file]. *)
Definition report_inv (always_opens : Prop) (from_file : Q -> Prop) (n : nat) (st : report)
  : Prop :=
  (Z.of_nat (length (leftpupil_txt st)) <= validleftcnt st <= Z.of_nat n)%Z
  /\ (Z.of_nat (length (rightpupil_txt st)) <= validrightcnt st <= Z.of_nat n)%Z
  /\ (always_opens ->
      validleftcnt st = Z.of_nat (length (leftpupil_txt st))
      /\ validrightcnt st = Z.of_nat (length (rightpupil_txt st)))
  /\ invalidluminancecnt st = Z.of_nat (length (invalidluminance st))
  /\ Forall (fun line => line_ok line /\ from_file (index line)) (leftpupil_txt st)
  /\ Forall (fun line => line_ok line /\ from_file (index line)) (rightpupil_txt st).

(** ** loadCSV *)

(** The fields that repeated calls of [getline(stream, field, delim)]
    read from [s] until a call fails.  [field] is what the current call
    has extracted so far and [started] tells whether it has extracted any
    character: at the end of the input a call that extracted nothing
    fails, and one that extracted some characters succeeds. *)
Fixpoint getlines (delim : ascii) (s : string) (field : string) (started : bool)
  : list string :=
  match s with
  | EmptyString => if started then [field] else []
  | String c rest =>
      if Ascii.eqb c delim then field :: getlines delim rest EmptyString false
      else getlines delim rest (field ++ String c EmptyString) true
  end.

Definition newline : ascii := "010"%char.
Definition comma : ascii := ","%char.

(** [loadCSV(filePath)] on the content of the file; [None] is a file that
    cannot be opened. *)
Definition loadCSV (file : option string) : table :=
  match file with
  | None => []
  | Some content =>
      map (fun line => getlines comma line EmptyString false)
          (getlines newline content EmptyString false)
  end.

(** The fields written one after the other with [delim] between them. *)
Fixpoint join (delim : ascii) (fields : list string) : string :=
  match fields with
  | [] => EmptyString
  | x :: rest =>
      match rest with
      | [] => x
      | _ => x ++ String delim (join delim rest)
      end
  end.

(** The character [c] occurs in [s]. *)
Definition has_char (c : ascii) (s : string) : Prop := In c (list_ascii_of_string s).

(** [s], if not empty, begins and ends with a character that is not white
    space. *)
Definition no_outer_space (s : string) : Prop :=
  ltrim s = s /\ ltrim (string_rev s) = string_rev s.

(** A recording as loadCSV gives it: no row ends in an empty cell. *)
Definition recording_csv : table :=
  [ header5;
    ["4.5"; "10.0"; "4.0"; "3.0"; "none"];
    ["5.0"; "10.0"; "4.0"; "3.0"; "0.2 seconds"];
    ["5.5"; "12.0"; "4.2"; "2.0"; "shook"] ]%string.

(** ** t_test_after.cpp: readPupilData and main *)

Module TTestAfterMain.
Import TTestAfter.

(** A line of leftpupil.txt or rightpupil.txt as the nine extractions of
    readPupilData read it. *)
Record pupil_line : Type := mkPupilLine {
  f_index : string;
  f_lumBefore : Q;
  f_pupilBefore : Q;
  f_beforeCount : Q;
  f_beforeStdDev : Q;
  f_lumAfter : Q;
  f_pupilAfter : Q;
  f_afterCount : Q;
  f_afterStdDev : Q
}.

(** [map<string, PupilData>], in the order of its keys. *)
Definition pupil_map : Type := list (string * PupilData).

(** [data[index] = value] *)
Fixpoint assign_index (m : pupil_map) (key : string) (value : PupilData) : pupil_map :=
  match m with
  | [] => [(key, value)]
  | (k, v) :: rest =>
      if String.ltb key k then (key, value) :: m
      else if String.ltb k key then (k, v) :: assign_index rest key value
      else (k, value) :: rest
  end.

(** [data.find(index)]: [None] is [end()]. *)
Fixpoint find_index (m : pupil_map) (key : string) : option PupilData :=
  match m with
  | [] => None
  | (k, v) :: rest => if String.eqb key k then Some v else find_index rest key
  end.

(** The lines are those read before the first extraction that fails;
    [None] is a file that cannot be opened.  The values after the event
    are kept. *)
Definition readPupilData (file : option (list pupil_line)) : pupil_map :=
  match file with
  | None => []
  | Some lines =>
      fold_left
        (fun data l =>
           assign_index data (f_index l)
             (mkPupilData (f_lumAfter l) (f_pupilAfter l) (to_int (f_afterCount l))
                          (f_afterStdDev l)))
        lines []
  end.

(** The file as the rounds of the loop condition
    [inFile >> index >> lumBefore >> ... >> afterStdDev] find it: [Some]
    is a round whose nine extractions succeed, [None] one in which an
    extraction fails (a field that is no number, or the end of the file).
    The loop ends at the first round that fails, so the records read are
    those in front of it. *)
Fixpoint extracted (rounds : list (option pupil_line)) : list pupil_line :=
  match rounds with
  | Some record :: rest => record :: extracted rest
  | _ => []
  end.

(** The loop of readPupilData on the rounds, with the domain of the
    conversion [(int)afterCount]: a count whose truncation no [int] holds
    makes the conversion, and the run, undefined. *)
Fixpoint read_rounds (rounds : list (option pupil_line)) (data : pupil_map)
  : outcome pupil_map :=
  match rounds with
  | Some l :: rest =>
      match cast_to_int (f_afterCount l) with
      | Some afterCount =>
          read_rounds rest
            (assign_index data (f_index l)
               (mkPupilData (f_lumAfter l) (f_pupilAfter l) afterCount (f_afterStdDev l)))
      | None => Undefined
      end
  | _ => Ret data
  end.

(** readPupilData on a file given by its rounds; [None] is a file that
    cannot be opened. *)
Definition readPupilData_rounds (file : option (list (option pupil_line)))
  : outcome pupil_map :=
  match file with
  | None => Ret []
  | Some rounds => read_rounds rounds []
  end.

(** [set<string>::insert], the set in its order. *)
Fixpoint insert_index (s : list string) (x : string) : list string :=
  match s with
  | [] => [x]
  | y :: rest =>
      if String.ltb x y then x :: s
      else if String.ltb y x then y :: insert_index rest x
      else s
  end.

(** What is printed for one eye of a subject. *)
Inductive verdict : Type :=
  | NotAvailable
  | Reject (p : Q)
  | Fail (p : Q).

(** A line of the table. *)
Inductive table_line : Type :=
  | Missing (index : string)
  | Tested (index : string) (left right : verdict).

(** The table and the counters of the summary. *)
Record summary : Type := mkSummary {
  lines : list table_line;
  totalLeft : Z;
  totalRight : Z;
  leftPass : Z;
  rightPass : Z;
  missingLuminanceMappingCount : Z;
  missingPupilDataCount : Z
}.

Definition summary0 : summary := mkSummary [] 0 0 0 0 0 0.

(** [return 1] before the table, or [return 0] after the summary. *)
Inductive exit : Type :=
  | Exit1
  | Exit0 (s : summary).

Section Main.

Variable sqrt : Q -> Q.
Variable students_t_cdf : Z -> Q -> Q.
(** The content of [output_mappings/<index>_luminance_mapping.txt]. *)
Variable mapping_file : string -> option (list mapping_line).

Definition verdict_of (pValue alpha : Q) : verdict :=
  if Qeq_bool pValue (-1) then NotAvailable
  else if Qlt_bool pValue alpha then Reject pValue
  else Fail pValue.

Definition tested (v : verdict) : Z :=
  match v with
  | NotAvailable => 0
  | _ => 1
  end.

Definition passed (v : verdict) : Z :=
  match v with
  | Reject _ => 1
  | _ => 0
  end.

(** The body of the loop over the indices. *)
Definition test_index (leftPupilData rightPupilData : pupil_map) (alpha : Q)
           (s : summary) (index : string) : summary :=
  let '(leftLuminanceMapping, rightLuminanceMapping) :=
    readLuminanceMapping (mapping_file index) in
  match leftLuminanceMapping, rightLuminanceMapping with
  | [], _ | _, [] =>
      mkSummary (lines s ++ [Missing index]) (totalLeft s) (totalRight s)
                (leftPass s) (rightPass s)
                (missingLuminanceMappingCount s + 1) (missingPupilDataCount s)
  | _, _ =>
      match find_index leftPupilData index, find_index rightPupilData index with
      | Some leftActual, Some rightActual =>
          let leftExpected :=
            getClosestLuminanceMatch leftLuminanceMapping (luminance leftActual) in
          let rightExpected :=
            getClosestLuminanceMatch rightLuminanceMapping (luminance rightActual) in
          let leftPValue :=
            computeTTest sqrt students_t_cdf
              (avgSize leftActual) (stdDev leftActual) (count leftActual)
              (avgSize leftExpected) (stdDev leftExpected) (count leftExpected) in
          let rightPValue :=
            computeTTest sqrt students_t_cdf
              (avgSize rightActual) (stdDev rightActual) (count rightActual)
              (avgSize rightExpected) (stdDev rightExpected) (count rightExpected) in
          let l := verdict_of leftPValue alpha in
          let r := verdict_of rightPValue alpha in
          mkSummary (lines s ++ [Tested index l r])
                    (totalLeft s + tested l) (totalRight s + tested r)
                    (leftPass s + passed l) (rightPass s + passed r)
                    (missingLuminanceMappingCount s) (missingPupilDataCount s)
      | _, _ =>
          mkSummary (lines s ++ [Missing index]) (totalLeft s) (totalRight s)
                    (leftPass s) (rightPass s)
                    (missingLuminanceMappingCount s) (missingPupilDataCount s + 1)
      end
  end.

(** The indices of both files, each once, in their order. *)
Definition indices_of (leftPupilData rightPupilData : pupil_map) : list string :=
  fold_left insert_index (map fst rightPupilData)
            (fold_left insert_index (map fst leftPupilData) []).

Definition main (leftpupil_txt rightpupil_txt : option (list pupil_line)) (alpha : Q)
  : exit :=
  let leftPupilData := readPupilData leftpupil_txt in
  let rightPupilData := readPupilData rightpupil_txt in
  match leftPupilData, rightPupilData with
  | [], _ | _, [] => Exit1
  | _, _ =>
      Exit0 (fold_left (test_index leftPupilData rightPupilData alpha)
                       (indices_of leftPupilData rightPupilData) summary0)
  end.

End Main.

(** What a verdict printed at level [alpha] says of its p-value. *)
Definition verdict_sound (alpha : Q) (v : verdict) : Prop :=
  match v with
  | NotAvailable => True
  | Reject p => 0 <= p <= 1 /\ p < alpha
  | Fail p => 0 <= p <= 1 /\ alpha <= p
  end.

Definition line_index (l : table_line) : string :=
  match l with
  | Missing index => index
  | Tested index _ _ => index
  end.

Definition left_of (l : table_line) : verdict :=
  match l with
  | Missing _ => NotAvailable
  | Tested _ v _ => v
  end.

Definition right_of (l : table_line) : verdict :=
  match l with
  | Missing _ => NotAvailable
  | Tested _ _ v => v
  end.

Definition is_missing (l : table_line) : Z :=
  match l with
  | Missing _ => 1
  | Tested _ _ _ => 0
  end.

(** The sum of [f] over the lines of the table. *)
Definition tally (f : table_line -> Z) (ls : list table_line) : Z :=
  fold_right (fun l n => (f l + n)%Z) 0%Z ls.

(** The counters of the summary are the tallies of the lines of the
    table. *)
Definition accounted (s : summary) : Prop :=
  totalLeft s = tally (fun l => tested (left_of l)) (lines s)
  /\ totalRight s = tally (fun l => tested (right_of l)) (lines s)
  /\ leftPass s = tally (fun l => passed (left_of l)) (lines s)
  /\ rightPass s = tally (fun l => passed (right_of l)) (lines s)
  /\ (missingLuminanceMappingCount s + missingPupilDataCount s)%Z
     = tally is_missing (lines s)
  /\ (0 <= missingLuminanceMappingCount s)%Z
  /\ (0 <= missingPupilDataCount s)%Z.

(** The line of [file] that readPupilData keeps for [index]: the last
    one. *)
Definition last_line (file : list pupil_line) (index : string) : option pupil_line :=
  find (fun l => String.eqb index (f_index l)) (rev file).

(** The keys of [s] increase. *)
Fixpoint increasing (s : list string) : Prop :=
  match s with
  | [] => True
  | x :: rest =>
      match rest with
      | [] => True
      | y :: _ => String.ltb x y = true /\ increasing rest
      end
  end.

End TTestAfterMain.

Module TTestExamples.
Import TTestAfter TTestAfterMain.
Local Open Scope string_scope.

(** Subject 00012 was appended twice, by two runs of the extractor. *)
Definition left_file : list pupil_line :=
  [ mkPupilLine "00012" 10 4 2 0.1 12 4.3 10 0.2;
    mkPupilLine "00013" 10 4 3 0.1 14 4.1 8 0.3;
    mkPupilLine "00012" 10 4 2 0.1 13 4.4 9 0.2 ].

Definition right_file : list pupil_line :=
  [ mkPupilLine "00012" 10 4.1 2 0.1 12 5.9 10 0.2;
    mkPupilLine "00014" 10 4.2 3 0.1 14 4.0 8 0.3 ].

(** Mapping files exist for 00012 and 00013. *)
Definition mapping_files (index : string) : option (list mapping_line) :=
  if String.eqb index "00012" || String.eqb index "00013"
  then Some [ mkMappingLine 10 5 5 0.1 5.2 5 0.1;
              mkMappingLine 20 6 5 0.1 6.2 5 0.1 ]
  else None.

End TTestExamples.

(** ** The deviation slots of the returned vector *)

(** What a deviation slot holds for the valid values [V] of an eye in a
    window with [m] rows: the sentinel below two values; the root of a
    number equal to Bessel's variance of [V] when the mean of the eye is
    valid; the root of the deviation about -1 when it is not. *)
Definition deviation_slot (sqrt : Q -> Q) (V : list Q) (m : Q) (slot : double) : Prop :=
  ((length V < 2)%nat -> slot = Fin (-1))
  /\ ((2 <= length V)%nat -> ~ Qlen V < 0.5 * m ->
      exists v, slot = Fin (sqrt v) /\ v == bessel_variance V)
  /\ ((2 <= length V)%nat -> Qlen V < 0.5 * m ->
      slot = Fin (sqrt (variance_about V (-1)))).

(** ** luminanceexpected.cpp *)

Module LuminanceExpected.

Record MappingRow : Type := mkMappingRow {
  luminance : Q;
  avgLeft : Q;
  countLeft : Z;
  stdDevLeft : Q;
  avgRight : Q;
  countRight : Z;
  stdDevRight : Q
}.

(** [MappingRow best{}]: every field is zero. *)
Definition zero_row : MappingRow := mkMappingRow 0 0 0 0 0 0 0.

(** One turn of the loop of findClosestMapping on [(best, bestDiff)]. *)
Definition closer (lum : Q) (st : MappingRow * Q) (row : MappingRow) : MappingRow * Q :=
  let '(best, bestDiff) := st in
  let diff := Qabs (luminance row - lum) in
  if Qlt_bool diff bestDiff then (row, diff) else (best, bestDiff).

Definition findClosestMapping (mapping : list MappingRow) (lum : Q) : MappingRow :=
  fst (fold_left (closer lum) mapping (zero_row, DBL_MAX)).

End LuminanceExpected.

(** A row of luminanceexpected.cpp and a data line of t_test_after.cpp
    that carry the same luminance and the same two averages. *)
Definition same_row (row : LuminanceExpected.MappingRow) (l : TTestAfter.mapping_line) : Prop :=
  LuminanceExpected.luminance row = TTestAfter.l_luminance l
  /\ LuminanceExpected.avgLeft row = TTestAfter.l_avgLeft l
  /\ LuminanceExpected.avgRight row = TTestAfter.l_avgRight l.

(** The rows readLuminanceMapping stores for a data line. *)
Definition left_data (l : TTestAfter.mapping_line) : TTestAfter.PupilData :=
  TTestAfter.mkPupilData (TTestAfter.l_luminance l) (TTestAfter.l_avgLeft l)
                         (TTestAfter.to_int (TTestAfter.l_leftCount l))
                         (TTestAfter.l_leftStd l).

Definition right_data (l : TTestAfter.mapping_line) : TTestAfter.PupilData :=
  TTestAfter.mkPupilData (TTestAfter.l_luminance l) (TTestAfter.l_avgRight l)
                         (TTestAfter.to_int (TTestAfter.l_rightCount l))
                         (TTestAfter.l_rightStd l).

(** No two lines carry the same luminance. *)
Definition distinct_luminances (lines : list TTestAfter.mapping_line) : Prop :=
  ForallOrdPairs
    (fun a b => ~ TTestAfter.l_luminance a == TTestAfter.l_luminance b) lines.

(** The luminances of the lines increase strictly. *)
Fixpoint lines_increasing (lines : list TTestAfter.mapping_line) : Prop :=
  match lines with
  | [] => True
  | a :: rest =>
      match rest with
      | [] => True
      | b :: _ => TTestAfter.l_luminance a < TTestAfter.l_luminance b
      end /\ lines_increasing rest
  end.

Module ExpectedExamples.

Definition line10 : TTestAfter.mapping_line := TTestAfter.mkMappingLine 10 3 5 0.5 3.2 5 0.4.
Definition line20 : TTestAfter.mapping_line := TTestAfter.mkMappingLine 20 2 6 0.3 2.1 6 0.2.
Definition row10 : LuminanceExpected.MappingRow :=
  LuminanceExpected.mkMappingRow 10 3 5 0.5 3.2 5 0.4.
Definition row20 : LuminanceExpected.MappingRow :=
  LuminanceExpected.mkMappingRow 20 2 6 0.3 2.1 6 0.2.

End ExpectedExamples.

(** ** Files of two sections: luminance.cpp and pupilsizecal.cpp *)

(** [line.find_first_not_of(" \t\r\n") == string::npos] *)
Definition blank_char (c : ascii) : bool :=
  match nat_of_ascii c with
  | 9%nat | 10%nat | 13%nat | 32%nat => true
  | _ => false
  end.

Fixpoint blank (line : string) : bool :=
  match line with
  | EmptyString => true
  | String c rest => blank_char c && blank rest
  end.

(** The lines [getline(inFile, line)] reads from a file. *)
Definition lines_of (content : string) : list string :=
  getlines newline content EmptyString false.

(** The lines of a file of the folder; [None] is a file that cannot be
    opened. *)
Definition file_lines (file : option string) : list string :=
  match file with
  | None => []
  | Some content => lines_of content
  end.

(** The lines in front of the first blank line, and the lines behind it. *)
Fixpoint before_section (is_blank : string -> bool) (lines : list string) : list string :=
  match lines with
  | [] => []
  | line :: rest => if is_blank line then [] else line :: before_section is_blank rest
  end.

Fixpoint after_section (is_blank : string -> bool) (lines : list string) : list string :=
  match lines with
  | [] => []
  | line :: rest => if is_blank line then rest else after_section is_blank rest
  end.

Module LuminanceMain.
Section Main.

Variable stod : string -> option Q.

(** The body of the loop over the lines, on [readingBefore] and the two
    global vectors. *)
Definition read_line (st : bool * (list Q * list Q)) (line : string)
  : bool * (list Q * list Q) :=
  let '(readingBefore, (globalBefore, globalAfter)) := st in
  if blank line then (false, (globalBefore, globalAfter))
  else
    match stod line with
    | Some val =>
        if readingBefore then (readingBefore, (globalBefore ++ [val], globalAfter))
        else (readingBefore, (globalBefore, globalAfter ++ [val]))
    | None => (readingBefore, (globalBefore, globalAfter))
    end.

Definition read_file (globals : list Q * list Q) (file : option string) : list Q * list Q :=
  match file with
  | None => globals
  | Some content => snd (fold_left read_line (lines_of content) (true, globals))
  end.

(** [folder] is [None] when the luminance folder does not exist (exit
    code 1, here [None]); else its regular .txt files in the order of the
    directory iterator.  The result is what is printed: average and
    variance before, average and variance after. *)
Definition main (folder : option (list (option string))) : option ((Q * Q) * (Q * Q)) :=
  match folder with
  | None => None
  | Some files =>
      let '(globalBefore, globalAfter) := fold_left read_file files ([], []) in
      Some (Luminance.computeStats globalBefore, Luminance.computeStats globalAfter)
  end.

(** The numbers on the lines that are not blank and that [stod] reads. *)
Definition line_values (lines : list string) : list Q :=
  flat_map (fun line =>
              if blank line then []
              else match stod line with Some val => [val] | None => [] end) lines.

End Main.
End LuminanceMain.

Module PupilsizecalMain.

Import Pupilsizecal.

Record file_vectors : Type := mkVectors {
  fileLeftBefore : list Q;
  fileRightBefore : list Q;
  fileLeftAfter : list Q;
  fileRightAfter : list Q
}.

Record accumulators : Type := mkAcc {
  globalLeftBefore : Stats;
  globalRightBefore : Stats;
  globalLeftAfter : Stats;
  globalRightAfter : Stats;
  personLeftBefore : Stats;
  personRightBefore : Stats;
  personLeftAfter : Stats;
  personRightAfter : Stats
}.

Definition accumulators0 : accumulators :=
  mkAcc Stats0 Stats0 Stats0 Stats0 Stats0 Stats0 Stats0 Stats0.

(** [if (v != -1) updateStats(stats, v);] *)
Definition update_if_valid (stats : Stats) (v : Q) : Stats :=
  if negb (Qeq_bool v (-1)) then updateStats stats v else stats.

(** The lambda [computeFileAvg]. *)
Definition computeFileAvg (vals : list Q) : Q :=
  let '(sum, count) :=
    fold_left (fun '(sum, count) v =>
                 if negb (Qeq_bool v (-1)) then (sum + v, (count + 1)%Z) else (sum, count))
              vals (0, 0%Z) in
  if (0 <? count)%Z then sum / inject_Z count else -1.

Section Main.

(** [ss >> leftVal >> rightVal] on a line. *)
Variable parse_pair : string -> option (Q * Q).

Definition read_line (st : bool * (accumulators * file_vectors)) (line : string)
  : bool * (accumulators * file_vectors) :=
  let '(isAfterSection, (acc, vec)) := st in
  if blank line then (true, (acc, vec))
  else
    match parse_pair line with
    | None => (isAfterSection, (acc, vec))
    | Some (leftVal, rightVal) =>
        if negb isAfterSection then
          (isAfterSection,
           (mkAcc (update_if_valid (globalLeftBefore acc) leftVal)
                  (update_if_valid (globalRightBefore acc) rightVal)
                  (globalLeftAfter acc) (globalRightAfter acc)
                  (personLeftBefore acc) (personRightBefore acc)
                  (personLeftAfter acc) (personRightAfter acc),
            mkVectors (fileLeftBefore vec ++ [leftVal]) (fileRightBefore vec ++ [rightVal])
                      (fileLeftAfter vec) (fileRightAfter vec)))
        else
          (isAfterSection,
           (mkAcc (globalLeftBefore acc) (globalRightBefore acc)
                  (update_if_valid (globalLeftAfter acc) leftVal)
                  (update_if_valid (globalRightAfter acc) rightVal)
                  (personLeftBefore acc) (personRightBefore acc)
                  (personLeftAfter acc) (personRightAfter acc),
            mkVectors (fileLeftBefore vec) (fileRightBefore vec)
                      (fileLeftAfter vec ++ [leftVal]) (fileRightAfter vec ++ [rightVal])))
    end.

Definition read_file (acc : accumulators) (file : option string) : accumulators :=
  match file with
  | None => acc
  | Some content =>
      let '(acc, vec) :=
        snd (fold_left read_line (lines_of content) (false, (acc, mkVectors [] [] [] []))) in
      let fileLeftBeforeAvg := computeFileAvg (fileLeftBefore vec) in
      let fileRightBeforeAvg := computeFileAvg (fileRightBefore vec) in
      let fileLeftAfterAvg := computeFileAvg (fileLeftAfter vec) in
      let fileRightAfterAvg := computeFileAvg (fileRightAfter vec) in
      mkAcc (globalLeftBefore acc) (globalRightBefore acc)
            (globalLeftAfter acc) (globalRightAfter acc)
            (update_if_valid (personLeftBefore acc) fileLeftBeforeAvg)
            (update_if_valid (personRightBefore acc) fileRightBeforeAvg)
            (update_if_valid (personLeftAfter acc) fileLeftAfterAvg)
            (update_if_valid (personRightAfter acc) fileRightAfterAvg)
  end.

(** What is printed, in the order of the eight calls of
    computeAndPrintStats; [None] is the exit code 1 of a missing folder.
    [folder] lists the regular .txt files of the folder. *)
Definition main (folder : option (list (option string))) : option (list (option printed)) :=
  match folder with
  | None => None
  | Some files =>
      let acc := fold_left read_file files accumulators0 in
      Some (map computeAndPrintStats
                [globalLeftBefore acc; globalRightBefore acc;
                 globalLeftAfter acc; globalRightAfter acc;
                 personLeftBefore acc; personRightBefore acc;
                 personLeftAfter acc; personRightAfter acc])
  end.

(** The pairs on the lines that are not blank and that are read. *)
Definition line_pairs (lines : list string) : list (Q * Q) :=
  flat_map (fun line =>
              if blank line then []
              else match parse_pair line with Some p => [p] | None => [] end) lines.

(** The values of one eye in one section of a file. *)
Definition before_values (eye : Q * Q -> Q) (file : option string) : list Q :=
  map eye (line_pairs (before_section blank (file_lines file))).

Definition after_values (eye : Q * Q -> Q) (file : option string) : list Q :=
  map eye (line_pairs (after_section blank (file_lines file))).

(** The accumulator over all data points of the files, and the one over
    the averages of the files. *)
Definition over_points (values : option string -> list Q) (files : list (option string))
  : Stats :=
  fold_left updateStats (flat_map values files) Stats0.

Definition over_persons (values : option string -> list Q) (files : list (option string))
  : Stats :=
  fold_left updateStats (map (fun file => computeFileAvg (values file)) files) Stats0.

End Main.
End PupilsizecalMain.

Module SectionExamples.

Definition luminance_file : string :=
  join newline ["10"; "12"; ""; "20"; ""; "22"]%string.

Definition pupil_file : string :=
  join newline ["3 4"; "-1 5"; ""; "2 -1"]%string.

(** [ss >> leftVal >> rightVal] on two numbers separated by one space. *)
Definition parse_pair (line : string) : option (Q * Q) :=
  match getlines " "%char line EmptyString false with
  | [a; b] =>
      match stod_decimal a, stod_decimal b with
      | Some x, Some y => Some (x, y)
      | _, _ => None
      end
  | _ => None
  end.

End SectionExamples.

(** ** The four extractors of raw values: pupilsizeshook.cpp,
       pupilsizenoshook.cpp, luminanceshook.cpp, luminancenoshook.cpp *)

(** [(unsigned)c] for an [int] c, with an [unsigned] of 32 bits. *)
Definition to_unsigned (c : Z) : Z := (c mod 2 ^ 32)%Z.

(** [size <= (unsigned)c] *)
Definition size_le_unsigned (size : nat) (c : Z) : bool :=
  (Z.of_nat size <=? to_unsigned c)%Z.

(** The loop over the rows after the header. *)
Fixpoint for_rows {A : Type} (body : A -> list string -> outcome A) (rows : table) (acc : A)
  : outcome A :=
  match rows with
  | [] => Ret acc
  | row :: rest => acc' <- body acc row ;; for_rows body rest acc'
  end.

(** The loop over the regular .csv files of the folder, each with what
    loadCSV read.  [body] gives the two sections to write, or [None] when
    the file is passed over; the result lists what is written, in this
    order, under the index of the input file.  A file that cannot be
    created is passed over. *)
Fixpoint for_each_csv {A : Type} (writable : string -> bool)
         (body : table -> outcome (option A)) (files : list (string * table))
  : outcome (list (string * A)) :=
  match files with
  | [] => Ret []
  | (fileName, data) :: rest =>
      r <- body data ;;
      outs <- for_each_csv writable body rest ;;
      Ret (match r with
           | Some out =>
               if writable (fileIndex_of fileName) then (fileIndex_of fileName, out) :: outs
               else outs
           | None => outs
           end)
  end.

(** Every row has fewer cells than an [int] can count. *)
Definition narrow (data : table) : Prop :=
  Forall (fun row : list string => (Z.of_nat (length row) < 2 ^ 31)%Z) data.

Section RawExtractors.

Variable stod : string -> option Q.

(** [stod(data[row][0])] inside a [try]: [Ret None] is the exception,
    caught. *)
Definition time_at (data : table) (row : Z) : outcome (option Q) :=
  match at_ data row with
  | None => Undefined
  | Some r =>
      match at_ r 0 with
      | None => Undefined
      | Some text => Ret (stod text)
      end
  end.

(** The body of the loop of the two pupil size extractors. *)
Definition pupil_row (leftCol rightCol : Z) (beforeTime afterStart : Q)
           (acc : list (Q * Q) * list (Q * Q)) (row : list string)
  : outcome (list (Q * Q) * list (Q * Q)) :=
  if size_le_unsigned (length row) (Z.max leftCol rightCol) then Ret acc
  else
    match at_ row 0 with
    | None => Undefined
    | Some c0 =>
        match stod c0 with
        | None => Ret acc
        | Some timeValue =>
            match at_ row leftCol with
            | None => Undefined
            | Some cl =>
                match stod cl with
                | None => Ret acc
                | Some leftPupil =>
                    match at_ row rightCol with
                    | None => Undefined
                    | Some cr =>
                        match stod cr with
                        | None => Ret acc
                        | Some rightPupil =>
                            Ret (if in_before beforeTime timeValue
                                 then fst acc ++ [(leftPupil, rightPupil)] else fst acc,
                                 if in_after afterStart timeValue
                                 then snd acc ++ [(leftPupil, rightPupil)] else snd acc)
                        end
                    end
                end
            end
        end
    end.

(** The body of the loop of the two luminance extractors below the test
    on the size of the row, whose result is [skip]. *)
Definition luminance_row (skip : nat -> bool) (luminanceCol : Z) (beforeTime afterStart : Q)
           (acc : list Q * list Q) (row : list string) : outcome (list Q * list Q) :=
  if skip (length row) then Ret acc
  else
    match at_ row 0 with
    | None => Undefined
    | Some c0 =>
        match stod c0 with
        | None => Ret acc
        | Some timeValue =>
            match at_ row luminanceCol with
            | None => Undefined
            | Some cl =>
                match stod cl with
                | None => Ret acc
                | Some luminance =>
                    if Qeq_bool luminance (-1) then Ret acc
                    else
                      Ret (if in_before beforeTime timeValue
                           then fst acc ++ [luminance] else fst acc,
                           if in_after afterStart timeValue
                           then snd acc ++ [luminance] else snd acc)
                end
            end
        end
    end.

(** The number in a cell of a row, when the cell exists and is read. *)
Definition number_at (row : list string) (col : Z) : option Q :=
  match at_ row col with
  | Some text => stod text
  | None => None
  end.

(** The time of a row of the table. *)
Definition time_of (data : table) (row : Z) : option Q :=
  number_at (nth (Z.to_nat row) data []) 0.

(** What a row contributes: its time and its values, when all are read. *)
Definition pupil_sample (leftCol rightCol : Z) (row : list string) : list (Q * (Q * Q)) :=
  match number_at row 0, number_at row leftCol, number_at row rightCol with
  | Some t, Some l, Some r => [(t, (l, r))]
  | _, _, _ => []
  end.

Definition luminance_sample (luminanceCol : Z) (row : list string) : list (Q * Q) :=
  match number_at row 0, number_at row luminanceCol with
  | Some t, Some lum => if Qeq_bool lum (-1) then [] else [(t, lum)]
  | _, _ => []
  end.

(** The values of the samples in the two windows, in the order of the
    rows. *)
Definition windows {A : Type} (beforeTime afterStart : Q) (samples : list (Q * A))
  : list A * list A :=
  (map snd (filter (fun s => in_before beforeTime (fst s)) samples),
   map snd (filter (fun s => in_after afterStart (fst s)) samples)).

End RawExtractors.

Module Pupilsizeshook.
Section WithLibrary.

Variable stod : string -> option Q.
Variable writable : string -> bool.

Definition process_file (data : table) : outcome (option (list (Q * Q) * list (Q * Q))) :=
match data with
| [] => Ret None
| headerRow :: _ =>
    let pupilColumns := findPupilColumns headerRow in
    if (fst pupilColumns =? -1)%Z || (snd pupilColumns =? -1)%Z then Ret None
    else
      let eventColumn := findEventColumn headerRow in
      if (eventColumn =? -1)%Z then Ret None
      else
        let eventRows := findEventRows data eventColumn in
        if (fst eventRows =? -1)%Z || (snd eventRows =? -1)%Z then Ret None
        else
          b <- time_at stod data (fst eventRows) ;;
          match b with
          | None => Ret None
          | Some beforeTime =>
              a <- time_at stod data (snd eventRows) ;;
              match a with
              | None => Ret None
              | Some afterTime =>
                  out <- for_rows (pupil_row stod (fst pupilColumns) (snd pupilColumns)
                                             beforeTime afterTime)
                                  (tl data) ([], []) ;;
                  Ret (Some out)
              end
          end
end.

Definition main (files : list (string * table))
  : outcome (list (string * (list (Q * Q) * list (Q * Q)))) :=
for_each_csv writable process_file files.

End WithLibrary.
End Pupilsizeshook.

Module Pupilsizenoshook.
Section WithLibrary.

Variable stod : string -> option Q.
Variable writable : string -> bool.

Definition process_file (data : table) : outcome (option (list (Q * Q) * list (Q * Q))) :=
match data with
| [] => Ret None
| headerRow :: _ =>
    let pupilColumns := findPupilColumns headerRow in
    if (fst pupilColumns =? -1)%Z || (snd pupilColumns =? -1)%Z then Ret None
    else
      let eventRow := findEventRow data in
      if (eventRow =? -1)%Z then Ret None
      else
        b <- time_at stod data eventRow ;;
        match b with
        | None => Ret None
        | Some beforeTime =>
            let eventTime := beforeTime + 0.229 in
            out <- for_rows (pupil_row stod (fst pupilColumns) (snd pupilColumns)
                                       beforeTime eventTime)
                            (tl data) ([], []) ;;
            Ret (Some out)
        end
end.

Definition main (files : list (string * table))
  : outcome (list (string * (list (Q * Q) * list (Q * Q)))) :=
for_each_csv writable process_file files.

End WithLibrary.
End Pupilsizenoshook.

Module Luminanceshook.
Section WithLibrary.

Variable stod : string -> option Q.
Variable writable : string -> bool.

Definition process_file (data : table) : outcome (option (list Q * list Q)) :=
match data with
| [] => Ret None
| headerRow :: _ =>
    let pupilColumns := findPupilColumns headerRow in
    if (fst pupilColumns =? -1)%Z || (snd pupilColumns =? -1)%Z then Ret None
    else
      let luminanceCol := (fst pupilColumns - 1)%Z in
      let eventColumn := findEventColumn headerRow in
      if (eventColumn =? -1)%Z then Ret None
      else
        let eventRows := findEventRows data eventColumn in
        if (fst eventRows =? -1)%Z || (snd eventRows =? -1)%Z then Ret None
        else
          beforeTime <- anchor_time stod data (fst eventRows) 0 ;;
          afterTime <- anchor_time stod data (snd eventRows) 0 ;;
          out <- for_rows (luminance_row stod
                             (fun size => size_le_unsigned size (Z.max luminanceCol 0))
                             luminanceCol beforeTime afterTime)
                          (tl data) ([], []) ;;
          Ret (Some out)
end.

Definition main (files : list (string * table)) : outcome (list (string * (list Q * list Q))) :=
for_each_csv writable process_file files.

End WithLibrary.
End Luminanceshook.

Module Luminancenoshook.
Section WithLibrary.

Variable stod : string -> option Q.
Variable writable : string -> bool.

Definition process_file (data : table) : outcome (option (list Q * list Q)) :=
match data with
| [] => Ret None
| headerRow :: _ =>
    let pupilColumns := findPupilColumns headerRow in
    if (fst pupilColumns =? -1)%Z then Ret None
    else
      let luminanceCol := (fst pupilColumns - 1)%Z in
      let eventRow := findEventRow data in
      if (eventRow =? -1)%Z then Ret None
      else
        b <- time_at stod data eventRow ;;
        match b with
        | None => Ret None
        | Some beforeTime =>
            let eventTime := beforeTime + 0.229 in
            out <- for_rows (luminance_row stod
                               (fun size => size_le_unsigned size luminanceCol)
                               luminanceCol beforeTime eventTime)
                            (tl data) ([], []) ;;
            Ret (Some out)
        end
end.

Definition main (files : list (string * table)) : outcome (list (string * (list Q * list Q))) :=
for_each_csv writable process_file files.

End WithLibrary.
End Luminancenoshook.

(** What the extractors write for a table: the values of the rows after
    the header whose time lies in a window, [bt] and [aft] being the time
    of the row that ends the before window and the start of the after
    window. *)
Definition pupil_sections (stod : string -> option Q) (data : table) (bt aft : Q)
  : list (Q * Q) * list (Q * Q) :=
  windows bt aft
          (flat_map (pupil_sample stod (fst (findPupilColumns (hd [] data)))
                                  (snd (findPupilColumns (hd [] data))))
                    (tl data)).

Definition luminance_sections (stod : string -> option Q) (data : table) (bt aft : Q)
  : list Q * list Q :=
  windows bt aft
          (flat_map (luminance_sample stod (fst (findPupilColumns (hd [] data)) - 1))
                    (tl data)).

(** The times of the two windows of a table: in the dual-event protocol
    the times of the two marker rows, in the single-event protocol the
    time of the tag row and 0.229 seconds later. *)
Definition dual_event_times (stod : string -> option Q) (data : table) (bt aft : Q) : Prop :=
  time_of stod data (fst (findEventRows data (findEventColumn (hd [] data)))) = Some bt
  /\ time_of stod data (snd (findEventRows data (findEventColumn (hd [] data)))) = Some aft.

Definition single_event_times (stod : string -> option Q) (data : table) (bt aft : Q) : Prop :=
  time_of stod data (findEventRow data) = Some bt /\ aft = bt + 0.229.

(** [o] was written for a file of the folder, with content [P]. *)
Definition written_for {A : Type} (files : list (string * table)) (P : table -> A -> Prop)
           (o : string * A) : Prop :=
  exists fileName data,
    In (fileName, data) files /\ fst o = fileIndex_of fileName /\ P data (snd o).

Module RawExamples.

(** A recording whose first column is the time and whose luminance
    column stands in front of the left pupil column. *)
Definition shook_table : table :=
  [ ["time"; "luminance"; "leftPupil"; "rightPupil"; "robotEvent"];
    ["1"; "10"; "3"; "4"; "none"];
    ["2"; "11"; "-1"; "4.5"; "0.2 seconds"];
    ["3"; "-1"; "3.5"; "5"; "shook"];
    ["4"; "12"; "3.2"; "x"; "none"] ]%string.

(** The left pupil column comes first: no column is in front of it. *)
Definition left_first_table : table :=
  [ ["leftPupil"; "rightPupil"; "robotEvent"];
    ["1"; "4"; "0.2 seconds"];
    ["2"; "5"; "shook"] ]%string.

End RawExamples.

(** ** calibration.cpp: which indices exist in which folder *)

Module Calibration.

(** [set.count(index)] *)
Definition count (s : list string) (index : string) : bool := existsb (String.eqb index) s.

(** The scan of one folder on its own set and on [allIndices].  [None] is
    a folder that does not exist; else the names of its regular .csv
    files are given in the order of the directory iterator. *)
Definition scan_folder (folder : option (list string)) (st : list string * list string)
  : list string * list string :=
  match folder with
  | None => st
  | Some names =>
      fold_left (fun '(own, allIndices) fileName =>
                   let fileIndex := fileIndex_of fileName in
                   (TTestAfterMain.insert_index own fileIndex,
                    TTestAfterMain.insert_index allIndices fileIndex))
                names st
  end.

(** The lines of the comparison file below its two header lines: index,
    "YES" for evolab, "YES" for shook or noshook.  [None] is a comparison
    file that cannot be created. *)
Definition main (evolab shook noshook : option (list string)) (writable : bool)
  : option (list (string * bool * bool)) :=
  let '(evolabIndices, all1) := scan_folder evolab ([], []) in
  let '(shookIndices, all2) := scan_folder shook ([], all1) in
  let '(noshookIndices, allIndices) := scan_folder noshook ([], all2) in
  if writable then
    Some (map (fun index =>
                 (index, count evolabIndices index,
                  count shookIndices index || count noshookIndices index))
              allIndices)
  else None.

(** The indices of the files of a folder. *)
Definition indices (folder : option (list string)) : list string :=
  match folder with
  | None => []
  | Some names => map fileIndex_of names
  end.

End Calibration.

(** ** findcalibration.cpp: the search for the calibration keywords *)

Module Findcalibration.

(** [::tolower] on a byte, in the "C" locale. *)
Definition tolower (c : ascii) : ascii :=
  let n := nat_of_ascii c in
  if (65 <=? n)%nat && (n <=? 90)%nat then ascii_of_nat (n + 32) else c.

Fixpoint toLowerCase (str : string) : string :=
  match str with
  | EmptyString => EmptyString
  | String c rest => String (tolower c) (toLowerCase rest)
  end.

Record CalibrationResult : Type := mkResult {
  index : string;
  hasStart : bool;
  hasFinish : bool;
  startRow : Z;
  startCol : Z;
  finishRow : Z;
  finishCol : Z
}.

(** The body of the loop over the cells of a line, on the result and
    [colNum]. *)
Definition scan_cell (rowNum : Z) (st : CalibrationResult * Z) (cell : string)
  : CalibrationResult * Z :=
  let '(result, colNum) := st in
  let lowerCell := toLowerCase cell in
  let result :=
    if contains lowerCell "start calibration" && negb (hasStart result)
    then mkResult (index result) true (hasFinish result) rowNum colNum
                  (finishRow result) (finishCol result)
    else result in
  let result :=
    if contains lowerCell "finished calibration" && negb (hasFinish result)
    then mkResult (index result) (hasStart result) true (startRow result) (startCol result)
                  rowNum colNum
    else result in
  (result, (colNum + 1)%Z).

(** The body of the loop over the lines, on the result and [rowNum]. *)
Definition scan_line (st : CalibrationResult * Z) (cells : list string)
  : CalibrationResult * Z :=
  let '(result, rowNum) := st in
  (fst (fold_left (scan_cell rowNum) cells (result, 0%Z)), (rowNum + 1)%Z).

(** [file] is what reading the file gives, [None] when it cannot be
    opened; the lines and their cells are cut as in loadCSV. *)
Definition searchCalibrationKeywords (fileName : string) (file : option string)
  : CalibrationResult :=
  let result := mkResult (fileIndex_of fileName) false false (-1) (-1) (-1) (-1) in
  match file with
  | None => result
  | Some content => fst (fold_left scan_line (loadCSV (Some content)) (result, 0%Z))
  end.

Record counts : Type := mkCounts {
  countBoth : Z;
  countOnlyStart : Z;
  countOnlyFinish : Z;
  countNone : Z;
  totalFiles : Z;
  moved : list string
}.

(** The body of the loop of [main] over the regular .csv files; the file
    names that are moved to the folder "complete" are listed in [moved]. *)
Definition classify (st : counts) (entry : string * option string) : counts :=
  let result := searchCalibrationKeywords (fst entry) (snd entry) in
  if hasStart result && hasFinish result then
    mkCounts (countBoth st + 1) (countOnlyStart st) (countOnlyFinish st) (countNone st)
             (totalFiles st + 1) (moved st ++ [fst entry])
  else if hasStart result then
    mkCounts (countBoth st) (countOnlyStart st + 1) (countOnlyFinish st) (countNone st)
             (totalFiles st + 1) (moved st)
  else if hasFinish result then
    mkCounts (countBoth st) (countOnlyStart st) (countOnlyFinish st + 1) (countNone st)
             (totalFiles st + 1) (moved st)
  else
    mkCounts (countBoth st) (countOnlyStart st) (countOnlyFinish st) (countNone st + 1)
             (totalFiles st + 1) (moved st).

(** [None] is the exit code 1 of a missing folder. *)
Definition main (folder : option (list (string * option string))) : option counts :=
  match folder with
  | None => None
  | Some files => Some (fold_left classify files (mkCounts 0 0 0 0 0 []))
  end.

(** The cell at a row and a column of a table holds the keyword, in any
    capitalisation. *)
Definition keyword_at (keyword : string) (t : table) (i j : nat) : bool :=
  match nth_error t i with
  | Some cells =>
      match nth_error cells j with
      | Some cell => contains (toLowerCase cell) keyword
      | None => false
      end
  | None => false
  end.

(** [(i, j)] comes before [(i', j')] in reading order. *)
Definition reads_before (i j i' j' : nat) : Prop :=
  (i < i')%nat \/ (i = i' /\ (j < j')%nat).

(** A search found nothing, or the first cell in reading order. *)
Definition first_cell_with (keyword : string) (t : table) (found : bool) (row col : Z)
  : Prop :=
  (found = false /\ row = (-1)%Z /\ col = (-1)%Z
   /\ forall i j, keyword_at keyword t i j = false)
  \/ (exists i j,
         found = true /\ row = Z.of_nat i /\ col = Z.of_nat j
         /\ keyword_at keyword t i j = true
         /\ forall i' j', reads_before i' j' i j -> keyword_at keyword t i' j' = false).

End Findcalibration.

Module CalibrationExamples.

Definition evolab_file : string :=
  join newline ["time,event"; "1,none"; "2,Start Calibration"; "3,x,FINISHED calibration"]%string.

End CalibrationExamples.

(** ** The samples of a recording and the validity rule, without the loop *)

(** What a row contributes to the windows: when its cells at the time
    column, at the two pupil columns and at the column in front of the
    left pupil column all exist and are numbers, one sample made of the
    four numbers; else nothing. *)
Definition row_sample (stod : string -> option Q) (timeCol leftPupilCol rightPupilCol : Z)
           (row : list string) : list sample :=
  match number_at stod row timeCol, number_at stod row leftPupilCol,
        number_at stod row rightPupilCol, number_at stod row (leftPupilCol - 1) with
  | Some t, Some l, Some r, Some lum => [mkSample t l r lum]
  | _, _, _, _ => []
  end.

(** The samples of the rows after the header, in the order of the rows. *)
Definition collected (stod : string -> option Q) (data : table)
           (timeCol leftPupilCol rightPupilCol : Z) : list sample :=
  flat_map (row_sample stod timeCol leftPupilCol rightPupilCol) (tl data).

(** The values of a quantity that are not the sentinel -1: the valid
    values in the words of the specification. *)
Definition non_sentinel_values (q : quantity) (samples : list sample) : list Q :=
  filter (fun v => negb (Qeq_bool v (-1))) (map (value_of q) samples).

(** The rule the code follows for a reported value [r], with [V] the
    values counted as valid and [m] the number of samples of the window:
    the sentinel exactly below half; else the mean of [V] when there is a
    value, and the quotient 0/0 for a window without a sample. *)
Definition window_rule (r : double) (V : list Q) (m : Q) : Prop :=
  (r = Fin (-1) <-> Qlen V < 0.5 * m)
  /\ (~ Qlen V < 0.5 * m -> V <> [] -> exists x, r = Fin x /\ x == mean_of V)
  /\ (~ Qlen V < 0.5 * m -> V = [] -> m == 0 /\ r = NaN)
  /\ (Qlen V == 0.5 * m -> r <> Fin (-1)).

(** Three rows up to the tag whose left pupil size is 0, a value that is
    not the sentinel. *)
Definition recording_zero_left : table :=
  [ header5;
    ["4.0"; "10.0"; "0"; "3.0"; ""];
    ["4.5"; "10.0"; "0"; "3.0"; ""];
    ["5.0"; "10.0"; "0"; "3.0"; "0.2 seconds"];
    ["5.5"; "12.0"; "4.2"; "2.0"; "shook"];
    ["6.0"; "12.0"; "4.4"; "4.0"; ""] ]%string.

(** * Properties *)

(** ** Comparisons and sums *)

Lemma Qlt_bool_iff (x y : Q) : Qlt_bool x y = true <-> x < y.
Proof.
  unfold Qlt_bool. rewrite negb_true_iff.
  split; intro H.
  - apply Qnot_le_lt. intro L. apply Qle_bool_iff in L. congruence.
  - destruct (Qle_bool y x) eqn:E; [|reflexivity].
    apply Qle_bool_iff in E. apply Qlt_not_le in H. contradiction.
Qed.

Lemma Qlt_bool_false_iff (x y : Q) : Qlt_bool x y = false <-> y <= x.
Proof.
  unfold Qlt_bool. rewrite negb_false_iff. apply Qle_bool_iff.
Qed.

Lemma Qle_bool_false_iff (x y : Q) : Qle_bool x y = false <-> y < x.
Proof.
  rewrite <- Qlt_bool_iff. unfold Qlt_bool.
  destruct (Qle_bool x y); simpl; split; congruence.
Qed.

Lemma Qlen_nil : Qlen [] == 0.
Proof. reflexivity. Qed.

Lemma Qlen_cons (x : Q) (l : list Q) : Qlen (x :: l) == Qlen l + 1.
Proof.
  unfold Qlen. cbn [length]. rewrite Nat2Z.inj_succ, <- Z.add_1_r, inject_Z_plus.
  reflexivity.
Qed.

Lemma Qlen_app (l r : list Q) : Qlen (l ++ r) == Qlen l + Qlen r.
Proof.
  unfold Qlen. rewrite length_app, Nat2Z.inj_add, inject_Z_plus. reflexivity.
Qed.

Lemma Qlen_nonneg (l : list Q) : 0 <= Qlen l.
Proof.
  unfold Qlen. change 0 with (inject_Z 0). rewrite <- Zle_Qle. lia.
Qed.

Lemma Qsum_app (l r : list Q) : Qsum (l ++ r) == Qsum l + Qsum r.
Proof.
  induction l as [|x l IH]; cbn [Qsum app].
  - ring.
  - rewrite IH. ring.
Qed.

(** A loop [acc += f v] computes the sum of the [f v]. *)
Lemma fold_left_add (f : Q -> Q) (l : list Q) (acc : Q) :
  fold_left (fun a v => a + f v) l acc == acc + Qsum (map f l).
Proof.
  revert acc. induction l as [|x l IH]; intro acc; cbn [fold_left map Qsum].
  - ring.
  - rewrite IH. ring.
Qed.

(** Σ(x - m)² = Σx² - 2 m Σx + n m² *)
Lemma sum_sq_dev (l : list Q) (m : Q) :
  Qsum (map (fun x => (x - m) * (x - m)) l)
  == Qsum (map (fun x => x * x) l) - 2 * m * Qsum l + Qlen l * (m * m).
Proof.
  induction l as [|x l IH].
  - cbn [map Qsum]. rewrite Qlen_nil. ring.
  - cbn [map Qsum]. rewrite IH, Qlen_cons. ring.
Qed.

Lemma sum_sq_dev_mean (l : list Q) :
  l <> [] ->
  Qsum (map (fun x => (x - mean_of l) * (x - mean_of l)) l)
  == Qsum (map (fun x => x * x) l) - (Qsum l * Qsum l) / Qlen l.
Proof.
  intro H. rewrite sum_sq_dev. unfold mean_of.
  assert (0 < Qlen l) as Hn.
  { destruct l as [|x l]; [congruence|].
    rewrite Qlen_cons. pose proof (Qlen_nonneg l). lra. }
  field. lra.
Qed.

Lemma variance_about_eq (l : list Q) (m : Q) :
  variance_about l m == Qsum (map (fun x => (x - m) * (x - m)) l) / (Qlen l - 1).
Proof.
  unfold variance_about.
  rewrite (fold_left_add (fun val => (val - m) ^ 2)).
  assert (Qsum (map (fun val => (val - m) ^ 2) l)
          == Qsum (map (fun x => (x - m) * (x - m)) l)) as ->.
  { induction l as [|x l IH]; cbn [map Qsum]; [reflexivity|].
    rewrite IH. ring. }
  rewrite Qplus_0_l. reflexivity.
Qed.

(** The two accumulators of computeStats. *)
Lemma computeStats_loop (l : list Q) (s q : Q) :
  let r := fold_left (fun '(sum, sumSq) v => (sum + v, sumSq + v * v)) l (s, q) in
  fst r == s + Qsum l /\ snd r == q + Qsum (map (fun x => x * x) l).
Proof.
  revert s q. induction l as [|x l IH]; intros s q; cbn [fold_left map Qsum fst snd].
  - split; ring.
  - destruct (IH (s + x) (q + x * x)) as [H1 H2]. cbn zeta in H1, H2.
    rewrite H1, H2. split; ring.
Qed.

Lemma updateStats_loop (l : list Q) (st : Pupilsizecal.Stats) :
  let r := fold_left Pupilsizecal.updateStats l st in
  Pupilsizecal.sum r == Pupilsizecal.sum st + Qsum (Pupilsizecal.kept l)
  /\ Pupilsizecal.sumSq r
     == Pupilsizecal.sumSq st + Qsum (map (fun x => x * x) (Pupilsizecal.kept l))
  /\ Pupilsizecal.count r
     = (Pupilsizecal.count st + Z.of_nat (length (Pupilsizecal.kept l)))%Z.
Proof.
  revert st. induction l as [|x l IH]; intro st; cbn [fold_left].
  - cbn. repeat split; try ring.
  - specialize (IH (Pupilsizecal.updateStats st x)). cbn zeta in IH |- *.
    destruct IH as (H1 & H2 & H3). rewrite H1, H2, H3.
    unfold Pupilsizecal.updateStats, Pupilsizecal.kept. cbn [filter].
    destruct (Qeq_bool x (-1)); cbn [negb Pupilsizecal.sum Pupilsizecal.sumSq
                                      Pupilsizecal.count map Qsum length].
    + repeat split; reflexivity.
    + repeat split; try ring. lia.
Qed.

(** C9: for every non-empty list of values the mean that is computed is
    sum/n ([computeStats], [computeAndPrintStats] over the accumulated
    data points); with two values or more the variance is Bessel's
    (Σx² - (Σx)²/n)/(n-1), which is also Σ(x - mean)²/(n-1), the quantity
    [calculateStdDev] takes the root of when it is given that mean; and the
    standard deviation of a single value is the sentinel -1. *)
Theorem C9_mean_and_bessel_variance (values : list Q) :
  values <> [] ->
  fst (Luminance.computeStats values) == mean_of values
  /\ ((2 <= length values)%nat ->
      snd (Luminance.computeStats values) == bessel_variance values
      /\ variance_about values (mean_of values) == bessel_variance values
      /\ deviation_variance values == bessel_variance values
      /\ forall sqrt,
           calculateStdDev sqrt values (Fin (mean_of values))
           = Fin (sqrt (variance_about values (mean_of values))))
  /\ (length values = 1%nat ->
      forall sqrt mean, calculateStdDev sqrt values mean = Fin (-1))
  /\ (Pupilsizecal.kept values <> [] ->
      exists p,
        Pupilsizecal.computeAndPrintStats
          (fold_left Pupilsizecal.updateStats values Pupilsizecal.Stats0) = Some p
        /\ Pupilsizecal.p_avg p == mean_of (Pupilsizecal.kept values)
        /\ ((2 <= length (Pupilsizecal.kept values))%nat ->
            Pupilsizecal.p_variance p == bessel_variance (Pupilsizecal.kept values))).
Proof.
  intro Hne.
  assert (forall l : list Q, l <> [] ->
            Qsum (map (fun x => (x - mean_of l) * (x - mean_of l)) l) / (Qlen l - 1)
            == bessel_variance l) as Hdev.
  { intros l Hl. unfold bessel_variance. rewrite (sum_sq_dev_mean l Hl). reflexivity. }
  split; [|split; [|split]].
  - unfold Luminance.computeStats. destruct values as [|x l]; [congruence|].
    pose proof (computeStats_loop (x :: l) 0 0) as [H1 _]. cbn zeta in H1.
    destruct (fold_left _ (x :: l) (0, 0)) as [s q]. cbn [fst] in H1.
    unfold mean_of. destruct (1 <? length (x :: l))%nat; cbn [fst]; rewrite H1; field_simplify_eq;
      try ring; rewrite Qlen_cons; pose proof (Qlen_nonneg l); lra.
  - intro H2. split; [|split; [|split]].
    + unfold Luminance.computeStats. destruct values as [|x l]; [congruence|].
      pose proof (computeStats_loop (x :: l) 0 0) as [H1 H3]. cbn zeta in H1, H3.
      destruct (fold_left _ (x :: l) (0, 0)) as [s q]. cbn [fst snd] in H1, H3.
      apply Nat.ltb_lt in H2. rewrite H2. cbn [snd]. unfold bessel_variance.
      rewrite H1, H3, !Qplus_0_l. reflexivity.
    + rewrite variance_about_eq. apply Hdev, Hne.
    + unfold deviation_variance. apply Hdev, Hne.
    + intro sqrt. unfold calculateStdDev.
      destruct (length values <? 2)%nat eqn:E; [|reflexivity].
      apply Nat.ltb_lt in E. lia.
  - intros H1 sqrt mean. unfold calculateStdDev. rewrite H1. reflexivity.
  - intro Hk.
    pose proof (updateStats_loop values Pupilsizecal.Stats0) as (H1 & H2 & H3).
    cbn zeta in H1, H2, H3. cbn [Pupilsizecal.Stats0 Pupilsizecal.sum Pupilsizecal.sumSq
                                   Pupilsizecal.count] in H1, H2, H3.
    set (st := fold_left Pupilsizecal.updateStats values Pupilsizecal.Stats0) in *.
    assert (0 < length (Pupilsizecal.kept values))%nat as Hpos.
    { destruct (Pupilsizecal.kept values); [congruence|cbn; lia]. }
    unfold Pupilsizecal.computeAndPrintStats.
    destruct (Pupilsizecal.count st =? 0)%Z eqn:E0; [apply Z.eqb_eq in E0; lia|].
    eexists. split; [reflexivity|]. cbn [Pupilsizecal.p_avg Pupilsizecal.p_variance].
    assert (inject_Z (Pupilsizecal.count st) == Qlen (Pupilsizecal.kept values)) as Hc.
    { rewrite H3. reflexivity. }
    split.
    + unfold mean_of. rewrite H1, Hc, Qplus_0_l. reflexivity.
    + intro H2'. destruct (1 <? Pupilsizecal.count st)%Z eqn:E1;
        [|apply Z.ltb_ge in E1; lia].
      unfold bessel_variance.
      assert (inject_Z (Pupilsizecal.count st - 1)
              == Qlen (Pupilsizecal.kept values) - 1) as Hc1.
      { rewrite <- Hc. unfold Zminus. rewrite inject_Z_plus. reflexivity. }
      rewrite H1, H2, Hc, Hc1, !Qplus_0_l. reflexivity.
Qed.

Lemma C9_mean_and_bessel_variance_witness :
  [2; 4; 6] <> []
  /\ fst (Luminance.computeStats [2; 4; 6]) == mean_of [2; 4; 6].
Proof.
  split; [discriminate|].
  apply (C9_mean_and_bessel_variance [2; 4; 6]). discriminate.
Defined.

(** ** The significance test *)

Lemma heron_pos (n : nat) (x y : Q) : 0 < x -> 0 < y -> 0 < heron n x y.
Proof.
  revert y. induction n as [|n IH]; intros y Hx Hy; cbn [heron]; [exact Hy|].
  apply IH; [exact Hx|]. rewrite Qred_correct.
  assert (0 < x / y) by (apply Qlt_shift_div_l; lra).
  apply Qlt_shift_div_l; lra.
Qed.

Lemma sqrt_heron_pos (x : Q) : 0 < x -> 0 < sqrt_heron x.
Proof.
  intro Hx. unfold sqrt_heron.
  destruct (Qle_bool x 0) eqn:E.
  - apply Qle_bool_iff in E. lra.
  - apply heron_pos; [exact Hx|]. rewrite Qred_correct.
    apply Qlt_shift_div_l; lra.
Qed.

Lemma cdf_example_range (df : Z) (x : Q) :
  (1 <= df)%Z -> 0 <= x -> (1 # 2) <= cdf_example df x <= 1.
Proof.
  intros _ Hx. unfold cdf_example. rewrite (Qabs_pos x Hx).
  assert (0 <= x / (2 * (1 + x))) by (apply Qle_shift_div_l; lra).
  assert (x / (2 * (1 + x)) <= (1 # 2)) by (apply Qle_shift_div_r; lra).
  lra.
Qed.

Section TestProperties.

Import TTestAfter.

Variable sqrt : Q -> Q.
Variable students_t_cdf : Z -> Q -> Q.

(** The root of a positive number is positive. *)
Hypothesis sqrt_pos : forall x, 0 < x -> 0 < sqrt x.

(** At a non-negative argument the distribution function of Student's t
    with at least one degree of freedom lies between 1/2 and 1. *)
Hypothesis cdf_upper_half :
  forall df x, (1 <= df)%Z -> 0 <= x -> (1 # 2) <= students_t_cdf df x <= 1.

Lemma pooled_nonneg (std1 : Q) (n1 : Z) (std2 : Q) (n2 : Z) :
  (2 <= n1)%Z -> (2 <= n2)%Z -> 0 <= pooled std1 n1 std2 n2.
Proof.
  intros H1 H2. unfold pooled.
  assert (0 < inject_Z n1) by (change 0 with (inject_Z 0); rewrite <- Zlt_Qlt; lia).
  assert (0 < inject_Z n2) by (change 0 with (inject_Z 0); rewrite <- Zlt_Qlt; lia).
  assert (0 <= std1 ^ 2) by (cbn; nra).
  assert (0 <= std2 ^ 2) by (cbn; nra).
  assert (0 <= std1 ^ 2 / inject_Z n1) by (apply Qle_shift_div_l; lra).
  assert (0 <= std2 ^ 2 / inject_Z n2) by (apply Qle_shift_div_l; lra).
  lra.
Qed.

(** C2: computeTTest returns -1 exactly when a sample size is below 2 or
    the pooled variance std1²/n1 + std2²/n2, written out here, is zero;
    in every other case the divisor sqrt(std1²/n1 + std2²/n2) is not
    zero, the result is 2 (1 - F(|t|)) with
    t = (mean1 - mean2) / sqrt(std1²/n1 + std2²/n2) and F the
    distribution function for min(n1, n2) - 1 degrees of freedom, and it
    lies in [0, 1]. *)
Theorem C2_computeTTest_sentinel_and_range
        (mean1 std1 : Q) (n1 : Z) (mean2 std2 : Q) (n2 : Z) :
  (computeTTest sqrt students_t_cdf mean1 std1 n1 mean2 std2 n2 == -1
   <-> ((n1 < 2)%Z \/ (n2 < 2)%Z
        \/ std1 ^ 2 / inject_Z n1 + std2 ^ 2 / inject_Z n2 == 0))
  /\ (~ ((n1 < 2)%Z \/ (n2 < 2)%Z
         \/ std1 ^ 2 / inject_Z n1 + std2 ^ 2 / inject_Z n2 == 0) ->
      ~ sqrt (std1 ^ 2 / inject_Z n1 + std2 ^ 2 / inject_Z n2) == 0
      /\ computeTTest sqrt students_t_cdf mean1 std1 n1 mean2 std2 n2
         = 2 * (1 - students_t_cdf (Z.min n1 n2 - 1)
                      (Qabs ((mean1 - mean2)
                             / sqrt (std1 ^ 2 / inject_Z n1 + std2 ^ 2 / inject_Z n2))))
      /\ 0 <= computeTTest sqrt students_t_cdf mean1 std1 n1 mean2 std2 n2 <= 1).
Proof.
  assert (pooled std1 n1 std2 n2 = std1 ^ 2 / inject_Z n1 + std2 ^ 2 / inject_Z n2) as Ep
      by reflexivity.
  rewrite <- Ep. clear Ep.
  unfold computeTTest.
  destruct (n1 <? 2)%Z eqn:E1; cbn [orb].
  { apply Z.ltb_lt in E1. split; [split; [auto|reflexivity]|]. intro H. tauto. }
  destruct (n2 <? 2)%Z eqn:E2.
  { apply Z.ltb_lt in E2. split; [split; [auto|reflexivity]|]. intro H. tauto. }
  apply Z.ltb_ge in E1, E2.
  destruct (Qeq_bool (pooled std1 n1 std2 n2) 0) eqn:E3.
  { apply Qeq_bool_iff in E3. split; [split; [auto|reflexivity]|]. intro H. tauto. }
  assert (~ pooled std1 n1 std2 n2 == 0) as Hnz.
  { intro H. apply Qeq_bool_iff in H. congruence. }
  pose proof (pooled_nonneg std1 n1 std2 n2 E1 E2) as Hnn.
  assert (0 < pooled std1 n1 std2 n2) as Hpos.
  { destruct (Qlt_le_dec 0 (pooled std1 n1 std2 n2)) as [L|L]; [exact L|].
    exfalso. apply Hnz. lra. }
  pose proof (cdf_upper_half (Z.min n1 n2 - 1)
                (Qabs ((mean1 - mean2) / sqrt (pooled std1 n1 std2 n2)))
                ltac:(lia) (Qabs_nonneg _)) as [Hlo Hhi].
  split.
  - split.
    + intro H. exfalso. lra.
    + intros [H|[H|H]]; [lia|lia|contradiction].
  - intros _. split; [|split].
    + pose proof (sqrt_pos _ Hpos). lra.
    + reflexivity.
    + lra.
Qed.

End TestProperties.

Lemma C2_computeTTest_sentinel_and_range_witness :
  0 <= TTestAfter.computeTTest sqrt_heron cdf_example 5 0.2 10 5.5 0.3 12 <= 1.
Proof.
  apply (C2_computeTTest_sentinel_and_range sqrt_heron cdf_example
           sqrt_heron_pos cdf_example_range 5 0.2 10 5.5 0.3 12).
  intros [H|[H|H]]; [lia|lia|].
  vm_compute in H. discriminate.
Defined.

(** ** The calibration lookup *)

Module LookupProperties.
Import TTestAfter.

Lemma Qabs_cases (x : Q) : (0 <= x /\ Qabs x == x) \/ (x <= 0 /\ Qabs x == - x).
Proof.
  destruct (Qlt_le_dec x 0) as [H|H].
  - right. split; [lra|]. apply Qabs_neg. lra.
  - left. split; [exact H|]. apply Qabs_pos, H.
Qed.

Ltac qabs x :=
  let H := fresh "Hsign" in
  let E := fresh "Eabs" in
  destruct (Qabs_cases x) as [[H E]|[H E]]; rewrite ?E in *.

Lemma ordered_tail (e : Q * PupilData) (m : mapping) : ordered (e :: m) -> ordered m.
Proof.
  destruct e as [k v], m as [|[k' v'] r]; cbn; tauto.
Qed.

Lemma ordered_head_lt (m : mapping) :
  forall k v, ordered ((k, v) :: m) -> forall k' v', In (k', v') m -> k < k'.
Proof.
  induction m as [|[k2 v2] r IH]; intros k v Ho k' v' Hin; [contradiction|].
  destruct Ho as [Hlt Ho]. destruct Hin as [Heq|Hin].
  - inversion Heq; subst. exact Hlt.
  - apply Qlt_trans with k2; [exact Hlt|]. eapply IH; eauto.
Qed.

Lemma ordered_app_lt (pre rest : mapping) (k1 : Q) (v1 : PupilData) :
  ordered (pre ++ (k1, v1) :: rest) -> forall k v, In (k, v) pre -> k < k1.
Proof.
  induction pre as [|[kp vp] pre IH]; intros Ho k v Hin; [contradiction|].
  destruct Hin as [Heq|Hin].
  - inversion Heq; subst. cbn [app] in Ho.
    eapply ordered_head_lt; [exact Ho|]. apply in_or_app. right. left. reflexivity.
  - eapply IH; eauto. eapply ordered_tail; exact Ho.
Qed.

Lemma ordered_app_r (pre rest : mapping) : ordered (pre ++ rest) -> ordered rest.
Proof.
  induction pre as [|e pre IH]; intro Ho; [exact Ho|].
  apply IH. eapply ordered_tail; exact Ho.
Qed.

(** Equivalent keys name one entry. *)
Lemma ordered_key_unique (m : mapping) :
  ordered m ->
  forall k1 v1 k2 v2, In (k1, v1) m -> In (k2, v2) m -> k1 == k2 -> v1 = v2.
Proof.
  induction m as [|[k v] r IH]; intros Ho k1 v1 k2 v2 H1 H2 E; [contradiction|].
  destruct H1 as [H1|H1], H2 as [H2|H2].
  - congruence.
  - inversion H1; subst. pose proof (ordered_head_lt _ _ _ Ho _ _ H2). lra.
  - inversion H2; subst. pose proof (ordered_head_lt _ _ _ Ho _ _ H1). lra.
  - eapply IH; eauto. eapply ordered_tail; exact Ho.
Qed.

(** [assign] keeps the keys increasing, so every mapping that
    readLuminanceMapping builds is ordered. *)
Lemma assign_head (m : mapping) (key : Q) (value : PupilData) (b : Q) :
  (forall k v, In (k, v) m -> b < k) -> b < key ->
  forall k v, In (k, v) (assign m key value) -> b < k.
Proof.
  induction m as [|[k0 v0] r IH]; intros Hm Hb k v Hin; cbn [assign] in Hin.
  - destruct Hin as [Hin|[]]. inversion Hin; subst. exact Hb.
  - destruct (Qlt_bool key k0).
    + destruct Hin as [Hin|Hin]; [inversion Hin; subst; exact Hb|].
      eapply Hm; exact Hin.
    + destruct (Qlt_bool k0 key).
      * destruct Hin as [Hin|Hin].
        -- inversion Hin; subst. eapply Hm. left. reflexivity.
        -- eapply IH; eauto. intros k' v' H'. eapply Hm. right. exact H'.
      * destruct Hin as [Hin|Hin].
        -- inversion Hin; subst. eapply Hm. left. reflexivity.
        -- eapply Hm. right. exact Hin.
Qed.

Lemma ordered_cons (k : Q) (v : PupilData) (m : mapping) :
  ordered m -> (forall k' v', In (k', v') m -> k < k') -> ordered ((k, v) :: m).
Proof.
  intros Ho Hlt. destruct m as [|[k' v'] r]; [exact I|].
  split; [|exact Ho]. eapply Hlt. left. reflexivity.
Qed.

Lemma assign_ordered (m : mapping) (key : Q) (value : PupilData) :
  ordered m -> ordered (assign m key value).
Proof.
  induction m as [|[k0 v0] r IH]; intro Ho; cbn [assign]; [exact I|].
  destruct (Qlt_bool key k0) eqn:E1.
  - apply Qlt_bool_iff in E1. split; [exact E1|exact Ho].
  - destruct (Qlt_bool k0 key) eqn:E2.
    + apply Qlt_bool_iff in E2. apply ordered_cons.
      * apply IH. eapply ordered_tail; exact Ho.
      * apply assign_head; [|exact E2].
        intros k v Hin. eapply ordered_head_lt; eauto.
    + apply ordered_cons; [eapply ordered_tail; exact Ho|].
      intros k v Hin. eapply ordered_head_lt; eauto.
Qed.

(** Both mappings readLuminanceMapping returns have strictly increasing
    keys, whatever the lines of the file and their order. *)
Lemma readLuminanceMapping_ordered (file : option (list mapping_line)) :
  ordered (fst (readLuminanceMapping file)) /\ ordered (snd (readLuminanceMapping file)).
Proof.
  destruct file as [lines|]; [|split; exact I]. unfold readLuminanceMapping.
  assert (forall l r, ordered l -> ordered r ->
            let p := fold_left
              (fun '(leftMapping, rightMapping) l =>
                 (assign leftMapping (l_luminance l)
                    (mkPupilData (l_luminance l) (l_avgLeft l) (to_int (l_leftCount l))
                                 (l_leftStd l)),
                  assign rightMapping (l_luminance l)
                    (mkPupilData (l_luminance l) (l_avgRight l) (to_int (l_rightCount l))
                                 (l_rightStd l))))
              lines (l, r) in
            ordered (fst p) /\ ordered (snd p)) as H.
  { induction lines as [|x lines IH]; intros l r Hl Hr; cbn [fold_left].
    - split; assumption.
    - apply IH; apply assign_ordered; assumption. }
  apply H; exact I.
Qed.

Lemma getClosest_lookup (m : mapping) (t : Q) :
  m <> [] -> getClosestLuminanceMatch m t = lookup m t.
Proof.
  destruct m; [congruence|reflexivity].
Qed.

Lemma lookup_cons_ge (k : Q) (v : PupilData) (m : mapping) (t : Q) :
  Qlt_bool k t = false -> lookup ((k, v) :: m) t = v.
Proof.
  intro H. unfold lookup. cbn [lower_bound]. rewrite H. reflexivity.
Qed.

Lemma lookup_cons_lt (m : mapping) (t : Q) :
  forall k v, Qlt_bool k t = true -> lookup ((k, v) :: m) t = walk (k, v) m t.
Proof.
  induction m as [|[k2 v2] r IH]; intros k v H.
  - unfold lookup. cbn [lower_bound]. rewrite H. reflexivity.
  - cbn [walk]. destruct (Qlt_bool k2 t) eqn:E2.
    + rewrite <- (IH k2 v2 E2). unfold lookup. cbn [lower_bound]. rewrite H, E2.
      cbn [length Nat.eqb Nat.sub entry nth]. rewrite !Nat.sub_0_r. reflexivity.
    + unfold lookup. cbn [lower_bound]. rewrite H, E2. reflexivity.
Qed.

Lemma walk_optimal (t : Q) (rest : mapping) :
  forall prev, ordered (prev :: rest) -> fst prev < t ->
    exists k v, In (k, v) (prev :: rest) /\ walk prev rest t = v
      /\ forall k', (k' <= fst prev \/ exists v', In (k', v') rest) ->
                    Qabs (k - t) <= Qabs (k' - t).
Proof.
  induction rest as [|[k2 v2] r IH]; intros [kp vp] Ho Hp; cbn [fst] in *.
  - exists kp, vp. split; [left; reflexivity|]. split; [reflexivity|].
    intros k' [Hk'|[v' []]]. qabs (kp - t); qabs (k' - t); lra.
  - cbn [walk]. destruct (Qlt_bool k2 t) eqn:E2.
    + apply Qlt_bool_iff in E2.
      destruct (IH (k2, v2) (ordered_tail _ _ Ho) E2) as (k & v & Hin & Hw & Hopt).
      exists k, v. split; [right; exact Hin|]. split; [exact Hw|].
      intros k' [Hk'|[v' [Heq|Hin']]].
      * apply Hopt. left. cbn [fst]. destruct Ho as [Hlt _]. lra.
      * inversion Heq; subst. apply Hopt. left. cbn [fst]. lra.
      * apply Hopt. right. exists v'. exact Hin'.
    + apply Qlt_bool_false_iff in E2. destruct Ho as [Hlt Ho].
      assert (forall k' v', In (k', v') r -> k2 < k') as Hr
          by (intros; eapply ordered_head_lt; eauto).
      cbn [snd fst].
      destruct (Qlt_bool (Qabs (kp - t)) (Qabs (k2 - t))) eqn:E3.
      * apply Qlt_bool_iff in E3.
        exists kp, vp. split; [left; reflexivity|]. split; [reflexivity|].
        intros k' [Hk'|[v' [Heq|Hin']]].
        -- qabs (kp - t); qabs (k' - t); lra.
        -- inversion Heq; subst. lra.
        -- pose proof (Hr _ _ Hin').
           qabs (kp - t); qabs (k2 - t); qabs (k' - t); lra.
      * apply Qlt_bool_false_iff in E3.
        exists k2, v2. split; [right; left; reflexivity|]. split; [reflexivity|].
        intros k' [Hk'|[v' [Heq|Hin']]].
        -- qabs (kp - t); qabs (k2 - t); qabs (k' - t); lra.
        -- inversion Heq; subst. lra.
        -- pose proof (Hr _ _ Hin').
           qabs (k2 - t); qabs (k' - t); lra.
Qed.

(** The row returned is a stored one at the least distance. *)
Lemma closest_optimal (m : mapping) (t : Q) :
  ordered m -> m <> [] ->
  exists k v, In (k, v) m /\ getClosestLuminanceMatch m t = v
    /\ forall k' v', In (k', v') m -> Qabs (k - t) <= Qabs (k' - t).
Proof.
  intros Ho Hne. rewrite (getClosest_lookup m t Hne).
  destruct m as [|[k0 v0] r]; [congruence|].
  destruct (Qlt_bool k0 t) eqn:E.
  - rewrite (lookup_cons_lt r t k0 v0 E). apply Qlt_bool_iff in E.
    destruct (walk_optimal t r (k0, v0) Ho E) as (k & v & Hin & Hw & Hopt).
    exists k, v. split; [exact Hin|]. split; [exact Hw|].
    intros k' v' [Heq|Hin'].
    + inversion Heq; subst. apply Hopt. left. cbn [fst]. lra.
    + apply Hopt. right. exists v'. exact Hin'.
  - rewrite (lookup_cons_ge k0 v0 r t E). apply Qlt_bool_false_iff in E.
    exists k0, v0. split; [left; reflexivity|]. split; [reflexivity|].
    intros k' v' [Heq|Hin'].
    + inversion Heq; subst. lra.
    + pose proof (ordered_head_lt _ _ _ Ho _ _ Hin').
      qabs (k0 - t); qabs (k' - t); lra.
Qed.

(** A target that is a stored key returns the row of that key. *)
Lemma closest_exact (m : mapping) (t : Q) :
  ordered m ->
  forall k v, In (k, v) m -> k == t -> getClosestLuminanceMatch m t = v.
Proof.
  intros Ho k v Hin Hk.
  assert (m <> []) as Hne by (intro E; subst; contradiction).
  destruct (closest_optimal m t Ho Hne) as (k0 & v0 & Hin0 & Hv & Hopt).
  rewrite Hv. pose proof (Hopt k v Hin) as Hle.
  eapply ordered_key_unique; eauto.
  qabs (k0 - t); qabs (k - t); lra.
Qed.

Lemma walk_skip (t : Q) (pre rest : mapping) (e1 : Q * PupilData) :
  forall prev, (forall k v, In (k, v) pre -> k < t) -> fst e1 < t ->
    walk prev (pre ++ e1 :: rest) t = walk e1 rest t.
Proof.
  induction pre as [|[kp vp] pre IH]; intros prev Hpre H1.
  - destruct e1 as [k1 v1]. cbn [app walk]. cbn [fst] in H1.
    apply Qlt_bool_iff in H1. rewrite H1. reflexivity.
  - cbn [app walk].
    assert (Qlt_bool kp t = true) as ->
        by (apply Qlt_bool_iff; eapply Hpre; left; reflexivity).
    apply IH; [|exact H1]. intros k v Hin. eapply Hpre. right. exact Hin.
Qed.

End LookupProperties.

(** C3: in a non-empty mapping (its keys increasing, as in every
    [std::map]) getClosestLuminanceMatch returns a stored row whose
    luminance is at the least absolute distance from the target; when the
    target is not equidistant between two stored keys every other stored
    key is strictly farther; a target equal to a stored luminance returns
    that row; the empty mapping returns the row with all fields -1. *)
Theorem C3_closest_row (m : TTestAfter.mapping) (t : Q) :
  TTestAfter.ordered m ->
  (m <> [] ->
   exists k v,
     In (k, v) m /\ TTestAfter.getClosestLuminanceMatch m t = v
     /\ (forall k' v', In (k', v') m -> Qabs (k - t) <= Qabs (k' - t))
     /\ ((forall k1 v1 k2 v2,
            In (k1, v1) m -> In (k2, v2) m -> k1 < k2 -> ~ k2 - t == t - k1) ->
         forall k' v', In (k', v') m -> ~ k' == k -> Qabs (k - t) < Qabs (k' - t)))
  /\ (forall k v, In (k, v) m -> k == t -> TTestAfter.getClosestLuminanceMatch m t = v)
  /\ (m = [] ->
      TTestAfter.getClosestLuminanceMatch m t = TTestAfter.mkPupilData (-1) (-1) (-1) (-1)).
Proof.
  intro Ho. split; [|split].
  - intro Hne.
    destruct (LookupProperties.closest_optimal m t Ho Hne) as (k & v & Hin & Hv & Hopt).
    exists k, v. repeat split; try assumption.
    intros Hneq k' v' Hin' Hk.
    pose proof (Hopt k' v' Hin') as Hle.
    destruct (Qlt_le_dec (Qabs (k - t)) (Qabs (k' - t))) as [L|G]; [exact L|exfalso].
    destruct (Q_dec k k') as [[Hlt|Hgt]|Heq].
    + apply (Hneq k v k' v' Hin Hin' Hlt).
      LookupProperties.qabs (k - t); LookupProperties.qabs (k' - t); lra.
    + apply (Hneq k' v' k v Hin' Hin Hgt).
      LookupProperties.qabs (k - t); LookupProperties.qabs (k' - t); lra.
    + apply Hk. symmetry. exact Heq.
  - apply LookupProperties.closest_exact, Ho.
  - intros ->. reflexivity.
Qed.

Lemma C3_closest_row_witness :
  exists k v,
    In (k, v) Examples.two_rows
    /\ TTestAfter.getClosestLuminanceMatch Examples.two_rows 14 = v
    /\ (forall k' v', In (k', v') Examples.two_rows -> Qabs (k - 14) <= Qabs (k' - 14))
    /\ ((forall k1 v1 k2 v2,
           In (k1, v1) Examples.two_rows -> In (k2, v2) Examples.two_rows ->
           k1 < k2 -> ~ k2 - 14 == 14 - k1) ->
        forall k' v', In (k', v') Examples.two_rows -> ~ k' == k ->
                      Qabs (k - 14) < Qabs (k' - 14)).
Proof.
  apply (C3_closest_row Examples.two_rows 14).
  - cbn. split; [reflexivity|exact I].
  - discriminate.
Defined.

(** C4, as stated, fails: with the rows of luminance 10 and 20 stored and
    the target 15, equidistant between them, the row of 20 is returned. *)
Lemma C4_tie_counterexample :
  TTestAfter.ordered Examples.two_rows
  /\ In (10, Examples.row10) Examples.two_rows
  /\ In (20, Examples.row20) Examples.two_rows
  /\ 10 < 20
  /\ 20 - 15 == 15 - 10
  /\ TTestAfter.getClosestLuminanceMatch Examples.two_rows 15 = Examples.row20
  /\ Examples.row20 <> Examples.row10.
Proof.
  repeat split; try reflexivity; cbn; auto.
  discriminate.
Qed.

(** C4, amended: when two neighbouring stored luminances L1 < L2 are
    equally far from the target, the row of the higher one, L2, is
    returned (the candidate of [lower_bound] wins the tie). *)
Theorem C4_tie_returns_upper (pre suf : TTestAfter.mapping)
        (L1 : Q) (r1 : TTestAfter.PupilData) (L2 : Q) (r2 : TTestAfter.PupilData) (t : Q) :
  TTestAfter.ordered (pre ++ (L1, r1) :: (L2, r2) :: suf) ->
  L2 - t == t - L1 ->
  TTestAfter.getClosestLuminanceMatch (pre ++ (L1, r1) :: (L2, r2) :: suf) t = r2.
Proof.
  intros Ho Hmid.
  pose proof (LookupProperties.ordered_app_r _ _ Ho) as Ho2.
  destruct Ho2 as [H12 _].
  assert (L1 < t) as H1 by lra.
  assert (t < L2) as H2 by lra.
  assert (TTestAfter.walk (L1, r1) ((L2, r2) :: suf) t = r2) as Hw.
  { cbn [TTestAfter.walk fst snd].
    assert (Qlt_bool L2 t = false) as -> by (apply Qlt_bool_false_iff; lra).
    assert (Qlt_bool (Qabs (L1 - t)) (Qabs (L2 - t)) = false) as ->; [|reflexivity].
    apply Qlt_bool_false_iff.
    LookupProperties.qabs (L1 - t); LookupProperties.qabs (L2 - t); lra. }
  rewrite LookupProperties.getClosest_lookup by (destruct pre; discriminate).
  destruct pre as [|[kp vp] pre].
  - cbn [app]. rewrite LookupProperties.lookup_cons_lt by (apply Qlt_bool_iff; exact H1).
    exact Hw.
  - cbn [app].
    assert (forall k v, In (k, v) ((kp, vp) :: pre) -> k < t) as Hpre.
    { intros k v Hin. pose proof (LookupProperties.ordered_app_lt _ _ _ _ Ho k v Hin). lra. }
    rewrite LookupProperties.lookup_cons_lt
      by (apply Qlt_bool_iff; eapply Hpre; left; reflexivity).
    rewrite LookupProperties.walk_skip; [exact Hw| |exact H1].
    intros k v Hin. eapply Hpre. right. exact Hin.
Qed.

Lemma C4_tie_returns_upper_witness :
  TTestAfter.getClosestLuminanceMatch
    ([] ++ (10, Examples.row10) :: (20, Examples.row20) :: []) 15 = Examples.row20.
Proof.
  apply (C4_tie_returns_upper [] [] 10 Examples.row10 20 Examples.row20 15).
  - cbn. split; [reflexivity|exact I].
  - reflexivity.
Defined.

(** ** The window extractor *)

Lemma ddiv_proper (x x' y y' : Q) : x == x' -> y == y' -> deq (ddiv x y) (ddiv x' y').
Proof.
  intros Hx Hy. unfold ddiv.
  destruct (Qeq_bool y 0) eqn:E; destruct (Qeq_bool y' 0) eqn:E'.
  - destruct (Qeq_bool x 0) eqn:F; destruct (Qeq_bool x' 0) eqn:F'; cbn.
    + exact I.
    + apply Qeq_bool_iff in F. apply Qeq_bool_neq in F'. apply F'. lra.
    + apply Qeq_bool_iff in F'. apply Qeq_bool_neq in F. apply F. lra.
    + destruct (Qlt_bool x 0) eqn:G; destruct (Qlt_bool x' 0) eqn:G'; try reflexivity.
      * apply Qlt_bool_iff in G. apply Qlt_bool_false_iff in G'. lra.
      * apply Qlt_bool_iff in G'. apply Qlt_bool_false_iff in G. lra.
  - apply Qeq_bool_iff in E. apply Qeq_bool_neq in E'. exfalso. apply E'. lra.
  - apply Qeq_bool_iff in E'. apply Qeq_bool_neq in E. exfalso. apply E. lra.
  - cbn. rewrite Hx, Hy. reflexivity.
Qed.

Lemma valid_values_positive (q : quantity) (S : list sample) :
  Forall (fun v => 0 < v) (valid_values q S).
Proof.
  apply Forall_forall. intros v Hin. unfold valid_values in Hin.
  apply filter_In in Hin. apply Qlt_bool_iff, Hin.
Qed.

Lemma Qsum_positive (l : list Q) : Forall (fun v => 0 < v) l -> l <> [] -> 0 < Qsum l.
Proof.
  induction 1 as [|x l Hx Hl IH]; intro Hne; [congruence|].
  cbn [Qsum]. destruct l as [|y l]; [cbn; lra|].
  assert (0 < Qsum (y :: l)) by (apply IH; discriminate). lra.
Qed.

Lemma Qlen_zero (l : list Q) : Qlen l == 0 -> l = [].
Proof.
  destruct l as [|x l]; [reflexivity|]. rewrite Qlen_cons.
  pose proof (Qlen_nonneg l). lra.
Qed.

Lemma samples_count_snoc (S : list sample) (s : sample) :
  samples_count (S ++ [s]) == samples_count S + 1.
Proof.
  unfold samples_count. rewrite length_app, Nat2Z.inj_add, inject_Z_plus. reflexivity.
Qed.

Lemma valid_values_snoc (q : quantity) (S : list sample) (s : sample) :
  valid_values q (S ++ [s])
  = valid_values q S ++ (if Qlt_bool 0 (value_of q s) then [value_of q s] else []).
Proof.
  unfold valid_values. rewrite map_app, filter_app. cbn [map filter].
  destruct (Qlt_bool 0 (value_of q s)); reflexivity.
Qed.

Lemma window_samples_snoc (lo hi : Q) (S : list sample) (s : sample) :
  window_samples lo hi (S ++ [s])
  = window_samples lo hi S
    ++ (if Qle_bool lo (timeValue s) && Qle_bool (timeValue s) hi then [s] else []).
Proof.
  unfold window_samples. rewrite filter_app. cbn [filter].
  destruct (Qle_bool lo (timeValue s) && Qle_bool (timeValue s) hi); reflexivity.
Qed.


Lemma holds_window0 : holds window0 [].
Proof.
  unfold holds. cbn. repeat split; destruct q; reflexivity.
Qed.

(** A row in the window: the valid values are added, the row is counted. *)
Lemma holds_add (w : window) (S : list sample) (s : sample) :
  holds w S ->
  holds (window_add w (leftPupilSize s) (rightPupilSize s) (luminance s)) (S ++ [s]).
Proof.
  intros (Ht & Hl & Hr & Hq). unfold holds, window_add. cbn [totalcount leftvals rightvals].
  split; [rewrite samples_count_snoc, Ht; reflexivity|].
  split; [rewrite valid_values_snoc, Hl; cbn [value_of];
          destruct (Qlt_bool 0 (leftPupilSize s)); [reflexivity|rewrite app_nil_r; reflexivity]|].
  split; [rewrite valid_values_snoc, Hr; cbn [value_of];
          destruct (Qlt_bool 0 (rightPupilSize s)); [reflexivity|rewrite app_nil_r; reflexivity]|].
  intro q. destruct (Hq q) as [Hs Hc]. rewrite valid_values_snoc.
  destruct q; cbn [sum_of count_of value_of sumLeft leftcount sumRight rightcount
                   luminancesum luminancecnt] in *;
    match goal with |- context [Qlt_bool 0 ?v] => destruct (Qlt_bool 0 v) end;
    rewrite ?app_nil_r, ?Qsum_app, ?Qlen_app, ?Hs, ?Hc; cbn [Qsum]; split;
    try reflexivity; try ring; unfold Qlen; cbn; ring.
Qed.

Section ExtractorProperties.

Variable stod : string -> option Q.
Variable sqrt : Q -> Q.

Lemma scan_rows_parsed (rows : table) (tc lc rc : Z) (bt aft : Q) :
  forall ws ws',
    scan_rows stod rows tc lc rc bt aft ws = Ret ws' ->
    ws' = fold_left (add_sample bt aft) (parsed_rows stod rows tc lc rc) ws.
Proof.
  induction rows as [|row rest IH]; intros ws ws' H; cbn [scan_rows parsed_rows] in *.
  - cbn [fold_left]. congruence.
  - destruct (parse_row stod row tc lc rc); cbn [fold_left];
      [apply IH, H|apply IH, H|discriminate].
Qed.

Lemma fold_add_sample_holds (bt aft : Q) (samples : list sample) :
  forall done wb wa,
    holds wb (window_samples (bt - 5.0) bt done) ->
    holds wa (window_samples aft (aft + 5.0) done) ->
    holds (fst (fold_left (add_sample bt aft) samples (wb, wa)))
          (window_samples (bt - 5.0) bt (done ++ samples))
    /\ holds (snd (fold_left (add_sample bt aft) samples (wb, wa)))
             (window_samples aft (aft + 5.0) (done ++ samples)).
Proof.
  induction samples as [|s rest IH]; intros done wb wa Hb Ha; cbn [fold_left].
  - rewrite app_nil_r. split; assumption.
  - replace (done ++ s :: rest) with ((done ++ [s]) ++ rest)
      by (rewrite <- app_assoc; reflexivity).
    unfold add_sample at 2 4. cbn [fst snd].
    apply IH; rewrite window_samples_snoc.
    + unfold in_before.
      destruct (Qle_bool (bt - 5.0) (timeValue s) && Qle_bool (timeValue s) bt);
        [apply holds_add, Hb|rewrite app_nil_r; exact Hb].
    + unfold in_after.
      destruct (Qle_bool aft (timeValue s) && Qle_bool (timeValue s) (aft + 5.0));
        [apply holds_add, Ha|rewrite app_nil_r; exact Ha].
Qed.

(** What a returning extraction has computed. *)
Lemma extract_spec (data : table) (tc lc rc : Z) (bt aft : Q) (datalist : list double) :
  extract stod sqrt data tc lc rc bt aft = Ret datalist ->
  exists before after,
    datalist = datalist_of sqrt before after
    /\ holds before (window_samples (bt - 5.0) bt (parsed_rows stod (tl data) tc lc rc))
    /\ holds after (window_samples aft (aft + 5.0) (parsed_rows stod (tl data) tc lc rc)).
Proof.
  unfold extract, bind. intro H.
  destruct (scan_rows stod (tl data) tc lc rc bt aft (window0, window0)) as [ws| |] eqn:E;
    try discriminate.
  inversion H; subst. exists (fst ws), (snd ws). split; [reflexivity|].
  apply scan_rows_parsed in E. subst ws.
  apply (fold_add_sample_holds bt aft _ []); apply holds_window0.
Qed.

(** The returns of the two variants are those of the shared loop at
    their anchors. *)
Lemma noshook_extract (data : table) (tc lc rc eventRow : Z) (datalist : list double) :
  eventRow <> (-1)%Z ->
  Noshookpupil.calculatePupilAverages stod sqrt data tc lc rc eventRow = Ret datalist ->
  exists t,
    anchor_time stod data eventRow tc = Ret t
    /\ extract stod sqrt data tc lc rc t (t + 0.229) = Ret datalist.
Proof.
  intros Hne H. unfold Noshookpupil.calculatePupilAverages in H.
  destruct (eventRow =? -1)%Z eqn:E; [apply Z.eqb_eq in E; contradiction|].
  destruct (anchor_time stod data eventRow tc) as [t| |]; try discriminate.
  exists t. split; [reflexivity|exact H].
Qed.

Lemma shook_extract (data : table) (tc lc rc rowFor02 rowForShook : Z)
      (datalist : list double) :
  Shookpupil.calculatePupilAverages stod sqrt data tc lc rc rowFor02 rowForShook
  = Ret datalist ->
  exists beforeTime timeAfter,
    anchor_time stod data rowFor02 tc = Ret beforeTime
    /\ anchor_time stod data rowForShook tc = Ret timeAfter
    /\ extract stod sqrt data tc lc rc beforeTime timeAfter = Ret datalist.
Proof.
  intro H. unfold Shookpupil.calculatePupilAverages in H.
  destruct (anchor_time stod data rowFor02 tc) as [t1| |]; try discriminate.
  destruct (anchor_time stod data rowForShook tc) as [t2| |]; try discriminate.
  exists t1, t2. repeat split. exact H.
Qed.

Lemma either_variant_extract (data : table) (tc lc rc : Z) (bt aft : Q)
      (datalist : list double) :
  either_variant_returns stod sqrt data tc lc rc bt aft datalist ->
  extract stod sqrt data tc lc rc bt aft = Ret datalist.
Proof.
  intros [(eventRow & Hne & Ht & -> & H)|(r1 & r2 & H1 & H2 & H)].
  - destruct (noshook_extract data tc lc rc eventRow datalist Hne H) as (t & Ht' & He).
    rewrite Ht in Ht'. inversion Ht'; subst. exact He.
  - destruct (shook_extract data tc lc rc r1 r2 datalist H) as (t1 & t2 & H1' & H2' & He).
    rewrite H1 in H1'. rewrite H2 in H2'. inversion H1'; inversion H2'; subst. exact He.
Qed.

(** A column that is negative or beyond the row has no cell. *)
Lemma at_outside {A : Type} (v : list A) (i : Z) :
  size_le_int (length v) i = true -> at_ v i = None.
Proof.
  unfold size_le_int, at_. destruct (i <? 0)%Z eqn:E; [reflexivity|].
  intro H. apply Z.leb_le in H. apply Z.ltb_ge in E.
  apply nth_error_None. lia.
Qed.

Lemma number_at_outside (row : list string) (col : Z) :
  size_le_int (length row) col = true -> number_at stod row col = None.
Proof.
  intro H. unfold number_at. rewrite (at_outside row col H). reflexivity.
Qed.

(** The size test at the larger pupil column is the test at one of them. *)
Lemma size_le_int_max (n : nat) (lc rc : Z) :
  size_le_int n (Z.max lc rc) = true ->
  size_le_int n lc = true \/ size_le_int n rc = true.
Proof.
  destruct (Z.max_spec lc rc) as [[_ ->]|[_ ->]]; auto.
Qed.

(** A row that the loop gets through contributes its sample, if it has
    one. *)
Lemma parse_row_sample (row : list string) (tc lc rc : Z) :
  parse_row stod row tc lc rc <> OutOfRange ->
  row_sample stod tc lc rc row
  = match parse_row stod row tc lc rc with Parsed s => [s] | _ => [] end.
Proof.
  unfold parse_row. destruct (size_le_int (length row) (Z.max lc rc)) eqn:Es.
  - intros _. unfold row_sample.
    destruct (size_le_int_max _ _ _ Es) as [H|H];
      rewrite (number_at_outside _ _ H);
      destruct (number_at stod row tc); try reflexivity;
      destruct (number_at stod row lc); reflexivity.
  - unfold row_sample, number_at, cell.
    destruct (at_ row tc) as [a|]; [|intro H; exfalso; apply H; reflexivity].
    destruct (stod a) as [t|]; [|reflexivity].
    destruct (at_ row lc) as [b|]; [|intro H; exfalso; apply H; reflexivity].
    destruct (stod b) as [l|]; [|reflexivity].
    destruct (at_ row rc) as [c|]; [|intro H; exfalso; apply H; reflexivity].
    destruct (stod c) as [r|]; [|reflexivity].
    destruct (at_ row (lc - 1)) as [d|]; [|intro H; exfalso; apply H; reflexivity].
    destruct (stod d) as [lum|]; reflexivity.
Qed.

(** The samples a returning loop has seen are those of the rows. *)
Lemma scan_rows_collected (rows : table) (tc lc rc : Z) (bt aft : Q) :
  forall ws ws',
    scan_rows stod rows tc lc rc bt aft ws = Ret ws' ->
    parsed_rows stod rows tc lc rc = flat_map (row_sample stod tc lc rc) rows.
Proof.
  induction rows as [|row rest IH]; intros ws ws' H;
    cbn [scan_rows parsed_rows flat_map] in *; [reflexivity|].
  pose proof (parse_row_sample row tc lc rc) as Hrow.
  destruct (parse_row stod row tc lc rc) as [| |]; [| |discriminate];
    rewrite Hrow by discriminate; cbn [app]; rewrite (IH _ _ H); reflexivity.
Qed.

Lemma extract_collected (data : table) (tc lc rc : Z) (bt aft : Q) (datalist : list double) :
  extract stod sqrt data tc lc rc bt aft = Ret datalist ->
  exists before after,
    datalist = datalist_of sqrt before after
    /\ holds before (window_samples (bt - 5.0) bt (collected stod data tc lc rc))
    /\ holds after (window_samples aft (aft + 5.0) (collected stod data tc lc rc)).
Proof.
  intro H. destruct (extract_spec data tc lc rc bt aft datalist H)
    as (before & after & Hd & Hb & Ha).
  exists before, after. split; [exact Hd|].
  unfold extract, bind in H.
  destruct (scan_rows stod (tl data) tc lc rc bt aft (window0, window0)) as [ws| |] eqn:E;
    try discriminate.
  unfold collected. rewrite <- (scan_rows_collected _ _ _ _ _ _ _ _ E).
  split; assumption.
Qed.



End ExtractorProperties.

(** The rule the code follows holds of every window and quantity. *)
Lemma reported_window_rule (w : window) (S : list sample) (q : quantity) :
  holds w S -> window_rule (reported q w) (valid_values q S) (samples_count S).
Proof.
  intros (Ht & _ & _ & Hq). destruct (Hq q) as [Hs Hc].
  unfold window_rule, reported, window_average.
  set (V := valid_values q S) in *. set (m := samples_count S) in *.
  assert (0 <= m) as Hm.
  { unfold m, samples_count. change 0 with (inject_Z 0). rewrite <- Zle_Qle. lia. }
  destruct (Qle_bool (totalcount w * 0.5) (count_of q w)) eqn:E.
  - apply Qle_bool_iff in E. rewrite Ht, Hc in E. fold m in E.
    assert (V <> [] -> exists x, ddiv (sum_of q w) (count_of q w) = Fin x
                                 /\ x == mean_of V /\ 0 < x) as Hmean.
    { intro Hne.
      pose proof (Qsum_positive V (valid_values_positive q S) Hne) as Hpos.
      assert (0 < Qlen V) as Hlen.
      { pose proof (Qlen_nonneg V). destruct (Qlt_le_dec 0 (Qlen V)); [assumption|].
        exfalso. apply Hne, Qlen_zero. lra. }
      unfold ddiv. destruct (Qeq_bool (count_of q w) 0) eqn:E0.
      - apply Qeq_bool_iff in E0. rewrite Hc in E0. lra.
      - exists (sum_of q w / count_of q w). split; [reflexivity|].
        split; [unfold mean_of; rewrite Hs, Hc; reflexivity|].
        rewrite Hs, Hc. apply Qlt_shift_div_l; lra. }
    assert (V = [] -> m == 0 /\ ddiv (sum_of q w) (count_of q w) = NaN) as Hempty.
    { intro HV. rewrite HV in *. cbn [Qsum] in Hs.
      assert (Qlen [] == 0) as Hz by reflexivity. rewrite Hz in *.
      split; [lra|]. unfold ddiv.
      destruct (Qeq_bool (count_of q w) 0) eqn:E0;
        [|apply Qeq_bool_neq in E0; contradiction].
      destruct (Qeq_bool (sum_of q w) 0) eqn:E1;
        [reflexivity|apply Qeq_bool_neq in E1; contradiction]. }
    assert (ddiv (sum_of q w) (count_of q w) <> Fin (-1)) as Hnot.
    { destruct V as [|v V'] eqn:EV.
      - destruct (Hempty eq_refl) as [_ ->]. discriminate.
      - destruct Hmean as (x & -> & _ & Hx); [discriminate|].
        intro Hm1. inversion Hm1. subst x. revert Hx. apply Qle_not_lt.
        unfold Qle. cbn. lia. }
    split; [|split; [|split]].
    + split; [intro H; contradiction|intro H; lra].
    + intros _ Hne. destruct (Hmean Hne) as (x & Hx & Hmx & _). exists x. auto.
    + intros _. exact Hempty.
    + intros _. exact Hnot.
  - apply Qle_bool_false_iff in E. rewrite Ht, Hc in E. fold m in E.
    split; [|split; [|split]].
    + split; [intros _; lra|intros _; reflexivity].
    + intro H. exfalso. apply H. lra.
    + intro H. exfalso. apply H. lra.
    + intro H. exfalso. lra.
Qed.

(** C1, with the counted values as the code has them: for every window
    that either variant of calculatePupilAverages extracts and every
    quantity, with V the strictly positive values of the quantity among
    the samples of the window and m the number of those samples, the
    value reported is -1 exactly when |V| < 0.5 m; otherwise it is the
    mean sum(V)/|V| when V has a value, and the quotient 0/0 when the
    window has no sample; at |V| = 0.5 m it is not the sentinel.  The
    samples are those of the rows after the header whose four cells are
    numbers, and slots 0, 1, 4, 7, 8 and 11 of the returned vector are the
    reported values. *)
Theorem C1_window_validity (stod : string -> option Q) (sqrt : Q -> Q)
        (data : table) (tc lc rc : Z) (bt aft : Q) (datalist : list double) :
  either_variant_returns stod sqrt data tc lc rc bt aft datalist ->
  exists before after,
    holds before (window_samples (bt - 5.0) bt (collected stod data tc lc rc))
    /\ holds after (window_samples aft (aft + 5.0) (collected stod data tc lc rc))
    /\ nth 0 datalist NaN = reported Luminance before
    /\ nth 1 datalist NaN = reported LeftPupil before
    /\ nth 4 datalist NaN = reported RightPupil before
    /\ nth 7 datalist NaN = reported Luminance after
    /\ nth 8 datalist NaN = reported LeftPupil after
    /\ nth 11 datalist NaN = reported RightPupil after
    /\ (forall q,
          window_rule (reported q before)
            (valid_values q (window_samples (bt - 5.0) bt (collected stod data tc lc rc)))
            (samples_count (window_samples (bt - 5.0) bt (collected stod data tc lc rc))))
    /\ (forall q,
          window_rule (reported q after)
            (valid_values q (window_samples aft (aft + 5.0) (collected stod data tc lc rc)))
            (samples_count (window_samples aft (aft + 5.0) (collected stod data tc lc rc))))
    /\ (forall q samples v,
          In v (valid_values q samples)
          <-> (exists s, In s samples /\ value_of q s = v) /\ 0 < v).
Proof.
  intro H. apply either_variant_extract in H.
  destruct (extract_collected stod sqrt data tc lc rc bt aft datalist H)
    as (before & after & Hd & Hb & Ha).
  exists before, after. subst datalist.
  repeat (split; [first [assumption | reflexivity]|]).
  split; [intro q; apply reported_window_rule; assumption|].
  split; [intro q; apply reported_window_rule; assumption|].
  intros q samples v. unfold valid_values.
  rewrite filter_In, in_map_iff, Qlt_bool_iff.
  split; intros [(s & H1 & H2) Hv]; (split; [exists s; split; assumption|exact Hv]).
Qed.

Lemma C1_window_validity_witness :
  exists datalist before,
    Noshookpupil.calculatePupilAverages stod_decimal sqrt_heron recording 0 2 3 3
    = Ret datalist
    /\ nth 1 datalist NaN = reported LeftPupil before
    /\ window_rule (reported LeftPupil before)
         (valid_values LeftPupil
            (window_samples (5 - 5.0) 5 (collected stod_decimal recording 0 2 3)))
         (samples_count
            (window_samples (5 - 5.0) 5 (collected stod_decimal recording 0 2 3))).
Proof.
  destruct (Noshookpupil.calculatePupilAverages stod_decimal sqrt_heron recording 0 2 3 3)
    as [d| |] eqn:E; [|vm_compute in E; discriminate|vm_compute in E; discriminate].
  assert (either_variant_returns stod_decimal sqrt_heron recording 0 2 3 5 (5 + 0.229) d)
    as Hv.
  { left. exists 3%Z. split; [discriminate|]. split; [vm_compute; reflexivity|].
    split; [reflexivity|exact E]. }
  destruct (C1_window_validity stod_decimal sqrt_heron recording 0 2 3 5 (5 + 0.229) d Hv)
    as (before & after & _ & _ & _ & H1 & _ & _ & _ & _ & Hb & _).
  exists d, before. split; [reflexivity|]. split; [exact H1|apply Hb].
Defined.

(** C1, as stated, fails for a sample that is neither positive nor the
    sentinel: the three rows of the before window of [recording_zero_left]
    have left pupil size 0, so k = 3 values are not the sentinel among
    m = 3 samples and k < 0.5 m does not hold; the loop counts only
    values above zero, finds none, and reports -1 in slot 1. *)
Lemma C1_zero_sample_counterexample :
  exists datalist,
    Noshookpupil.calculatePupilAverages stod_decimal sqrt_heron recording_zero_left 0 2 3 3
    = Ret datalist
    /\ nth 1 datalist NaN = Fin (-1)
    /\ map leftPupilSize
         (window_samples (5 - 5.0) 5 (collected stod_decimal recording_zero_left 0 2 3))
       = [0; 0; 0]
    /\ non_sentinel_values LeftPupil
         (window_samples (5 - 5.0) 5 (collected stod_decimal recording_zero_left 0 2 3))
       = [0; 0; 0]
    /\ ~ Qlen [0; 0; 0] < 0.5 * samples_count
           (window_samples (5 - 5.0) 5 (collected stod_decimal recording_zero_left 0 2 3))
    /\ ~ validity_rule (nth 1 datalist NaN)
           (non_sentinel_values LeftPupil
              (window_samples (5 - 5.0) 5 (collected stod_decimal recording_zero_left 0 2 3)))
           (samples_count
              (window_samples (5 - 5.0) 5 (collected stod_decimal recording_zero_left 0 2 3))).
Proof.
  destruct (Noshookpupil.calculatePupilAverages stod_decimal sqrt_heron
              recording_zero_left 0 2 3 3)
    as [d| |] eqn:E; [|vm_compute in E; discriminate|vm_compute in E; discriminate].
  exists d. split; [reflexivity|].
  assert (nth 1 d NaN = Fin (-1)) as H1.
  { vm_compute in E. inversion E. reflexivity. }
  assert (~ Qlen [0; 0; 0] < 0.5 * samples_count
            (window_samples (5 - 5.0) 5 (collected stod_decimal recording_zero_left 0 2 3)))
    as Hk.
  { vm_compute. intro H. discriminate H. }
  split; [exact H1|].
  split; [vm_compute; reflexivity|].
  split; [vm_compute; reflexivity|].
  split; [exact Hk|].
  intros (Hiff & _). rewrite H1 in Hiff.
  assert (non_sentinel_values LeftPupil
            (window_samples (5 - 5.0) 5 (collected stod_decimal recording_zero_left 0 2 3))
          = [0; 0; 0]) as HV by (vm_compute; reflexivity).
  rewrite HV in Hiff. apply Hk, Hiff. cbn. reflexivity.
Qed.



(** C10, as stated, fails at an empty window: the recording that ends at
    the tag has no row in the after window of the single-event variant;
    0 >= 0 * 0.5 makes the left pupil of that window valid, and the value
    reported in slot 8 is 0/0, not a positive number; [main] takes it for
    valid and writes it as pupilAfter of the left-eye line. *)
Lemma C10_empty_window_counterexample :
  exists before after,
    scan_rows stod_decimal (tl recording_to_tag) 0 2 3 5 (5 + 0.229) (window0, window0)
    = Ret (before, after)
    /\ Noshookpupil.calculatePupilAverages stod_decimal sqrt_heron recording_to_tag 0 2 3 3
       = Ret (datalist_of sqrt_heron before after)
    /\ totalcount after = 0
    /\ leftcount after = 0
    /\ Qle_bool (totalcount after * 0.5) (leftcount after) = true
    /\ nth 8 (datalist_of sqrt_heron before after) (Fin 0) = NaN
    /\ dgt0 (nth 8 (datalist_of sqrt_heron before after) (Fin 0)) = false
    /\ exists st line,
         Noshookpupil.main stod_decimal sqrt_heron always_open
           [("00012_a.csv"%string, recording_to_tag)] = Ret st
         /\ leftpupil_txt st = [line]
         /\ pupilAfter line = NaN.
Proof.
  eexists. eexists. split; [vm_compute; reflexivity|].
  do 6 (split; [vm_compute; reflexivity|]).
  eexists. eexists. split; [vm_compute; reflexivity|].
  split; reflexivity.
Qed.

(** C10, amended: in both variants a value enters the sum, the count and
    the list of a window only when it is strictly positive, while every
    row of the window is counted in the total; so every valid mean
    reported for a window that holds at least one row is the mean of
    strictly positive values and is strictly positive. *)
Theorem C10_valid_mean_positive (stod : string -> option Q) (sqrt : Q -> Q)
        (data : table) (tc lc rc : Z) (bt aft : Q) (datalist : list double) :
  either_variant_returns stod sqrt data tc lc rc bt aft datalist ->
  exists before after,
    datalist = datalist_of sqrt before after
    /\ forall w S,
        (w = before
         /\ S = window_samples (bt - 5.0) bt (parsed_rows stod (tl data) tc lc rc))
        \/ (w = after
            /\ S = window_samples aft (aft + 5.0) (parsed_rows stod (tl data) tc lc rc)) ->
        totalcount w == samples_count S
        /\ leftvals w = filter (Qlt_bool 0) (map leftPupilSize S)
        /\ rightvals w = filter (Qlt_bool 0) (map rightPupilSize S)
        /\ forall q,
            sum_of q w == Qsum (filter (Qlt_bool 0) (map (value_of q) S))
            /\ count_of q w == Qlen (filter (Qlt_bool 0) (map (value_of q) S))
            /\ Forall (fun v => 0 < v) (valid_values q S)
            /\ (0 < samples_count S ->
                ~ Qlen (valid_values q S) < 0.5 * samples_count S ->
                exists x, reported q w = Fin x /\ 0 < x
                          /\ x == mean_of (valid_values q S)).
Proof.
  intro H. apply either_variant_extract in H.
  destruct (extract_spec stod sqrt data tc lc rc bt aft datalist H)
    as (before & after & Hd & Hb & Ha).
  exists before, after. split; [exact Hd|].
  intros w S Hw.
  assert (holds w S) as Hh by (destruct Hw as [[-> ->]|[-> ->]]; assumption).
  clear Hw. pose proof Hh as (Ht & Hl & Hr & Hq).
  split; [exact Ht|]. split; [exact Hl|]. split; [exact Hr|]. intro q.
  destruct (Hq q) as [Hs Hc].
  split; [exact Hs|]. split; [exact Hc|]. split; [apply valid_values_positive|].
  intros Hm Hv.
  assert (0 < Qlen (valid_values q S)) as Hk by lra.
  assert (valid_values q S <> []) as Hne.
  { intro E. rewrite E, Qlen_nil in Hk. lra. }
  pose proof (Qsum_positive _ (valid_values_positive q S) Hne) as Hpos.
  unfold reported, window_average.
  assert (Qle_bool (totalcount w * 0.5) (count_of q w) = true) as ->.
  { apply Qle_bool_iff. rewrite Ht, Hc. lra. }
  unfold ddiv.
  assert (Qeq_bool (count_of q w) 0 = false) as ->.
  { destruct (Qeq_bool (count_of q w) 0) eqn:E0; [|reflexivity].
    apply Qeq_bool_iff in E0. rewrite Hc in E0. lra. }
  exists (sum_of q w / count_of q w). split; [reflexivity|].
  unfold mean_of. rewrite Hs, Hc. split; [|reflexivity].
  apply Qlt_shift_div_l; lra.
Qed.

Lemma C10_valid_mean_positive_witness :
  exists datalist before after,
    Shookpupil.calculatePupilAverages stod_decimal sqrt_heron recording 0 2 3 3 4
    = Ret datalist
    /\ datalist = datalist_of sqrt_heron before after
    /\ totalcount before
       == samples_count
            (window_samples (5 - 5.0) 5 (parsed_rows stod_decimal (tl recording) 0 2 3)).
Proof.
  destruct (Shookpupil.calculatePupilAverages stod_decimal sqrt_heron recording 0 2 3 3 4)
    as [d| |] eqn:E; [|vm_compute in E; discriminate|vm_compute in E; discriminate].
  assert (either_variant_returns stod_decimal sqrt_heron recording 0 2 3 5 (11 # 2) d)
    as Hv.
  { right. exists 3%Z, 4%Z. split; [vm_compute; reflexivity|].
    split; [vm_compute; reflexivity|exact E]. }
  destruct (C10_valid_mean_positive stod_decimal sqrt_heron recording 0 2 3 5 (11 # 2) d Hv)
    as (before & after & Hd & Hw).
  exists d, before, after. split; [reflexivity|]. split; [exact Hd|].
  apply (Hw before _ (or_introl (conj eq_refl eq_refl))).
Defined.

(** ** The summary files *)

(** C5 fails on the code: slot 13, which both [main]s write as stdAfter of
    the right-eye line, is computed from the right eye's before-window
    list and mean (slot 10, the left eye's, is computed from the after
    window).  For the recording that starts at the tag the before window
    holds one right sample and the after window the two samples 2 and 4:
    the right-eye line carries stdAfter = -1 in both variants, where the
    after-window deviation is the root of a variance equal to 2. *)
Theorem C5_right_stdAfter_from_before_window :
  (forall sqrt before after,
      nth 13 (datalist_of sqrt before after) NaN
      = calculateStdDev sqrt (rightvals before) (reported RightPupil before)
      /\ nth 10 (datalist_of sqrt before after) NaN
         = calculateStdDev sqrt (leftvals after) (reported LeftPupil after))
  /\ (forall sqrt,
         exists st line before after v,
           Noshookpupil.main stod_decimal sqrt always_open
             [("00012_a.csv"%string, recording_from_tag)]
           = Ret st
           /\ rightpupil_txt st = [line]
           /\ scan_rows stod_decimal (tl recording_from_tag) 0 2 3 5 (5 + 0.229)
                        (window0, window0) = Ret (before, after)
           /\ stdAfter line = Fin (-1)
           /\ rightvals after = [2; 4]
           /\ calculateStdDev sqrt (rightvals after) (reported RightPupil after)
              = Fin (sqrt v)
           /\ v == 2)
  /\ (forall sqrt,
         exists st line before after v,
           Shookpupil.main stod_decimal sqrt always_open
             [("00012_a.csv"%string, recording_from_tag)]
           = Ret st
           /\ rightpupil_txt st = [line]
           /\ scan_rows stod_decimal (tl recording_from_tag) 0 2 3 5 (11 # 2)
                        (window0, window0) = Ret (before, after)
           /\ stdAfter line = Fin (-1)
           /\ rightvals after = [2; 4]
           /\ calculateStdDev sqrt (rightvals after) (reported RightPupil after)
              = Fin (sqrt v)
           /\ v == 2).
Proof.
  split; [|split].
  - intros sqrt before after. split; reflexivity.
  - intro sqrt. do 5 eexists.
    split; [vm_compute; reflexivity|].
    split; [reflexivity|].
    split; [vm_compute; reflexivity|].
    split; [reflexivity|]. split; [reflexivity|].
    split; [vm_compute; reflexivity|]. vm_compute. reflexivity.
  - intro sqrt. do 5 eexists.
    split; [vm_compute; reflexivity|].
    split; [reflexivity|].
    split; [vm_compute; reflexivity|].
    split; [reflexivity|]. split; [reflexivity|].
    split; [vm_compute; reflexivity|]. vm_compute. reflexivity.
Qed.

(** C7 fails on the dual-event variant.  With the tag absent the
    single-event [main] adds the subject to missingEventIndices and writes
    no line.  The dual-event [main] also writes no line, and prints an
    error for the subject, but leaves missingEventIndices, the set its
    final report prints, as it was: for the recording without a "shook"
    marker the set is empty at the end. *)
Theorem C7_missing_event_tally :
  (forall stod sqrt opens st fileIndex headerRow rows,
      findEventRow (headerRow :: rows) = (-1)%Z ->
      Noshookpupil.process_file stod sqrt opens st fileIndex (headerRow :: rows)
      = Ret (note_missing_event fileIndex st)
      /\ leftpupil_txt (note_missing_event fileIndex st) = leftpupil_txt st
      /\ rightpupil_txt (note_missing_event fileIndex st) = rightpupil_txt st
      /\ In fileIndex (missingEventIndices (note_missing_event fileIndex st)))
  /\ (forall stod sqrt opens st fileIndex headerRow rows,
         fst (findPupilColumns headerRow) <> (-1)%Z ->
         snd (findPupilColumns headerRow) <> (-1)%Z ->
         findEventColumn headerRow <> (-1)%Z ->
         (fst (findEventRows (headerRow :: rows) (findEventColumn headerRow)) = (-1)%Z
          \/ snd (findEventRows (headerRow :: rows) (findEventColumn headerRow)) = (-1)%Z) ->
         Shookpupil.process_file stod sqrt opens st fileIndex (headerRow :: rows)
         = Ret (say (EventNotFound fileIndex) st)
         /\ leftpupil_txt (say (EventNotFound fileIndex) st) = leftpupil_txt st
         /\ rightpupil_txt (say (EventNotFound fileIndex) st) = rightpupil_txt st
         /\ missingEventIndices (say (EventNotFound fileIndex) st) = missingEventIndices st)
  /\ (forall sqrt opens,
         Shookpupil.main stod_decimal sqrt opens [("00012_a.csv"%string, recording_no_shook)]
         = Ret (mkReport [] [] [] 0 0 0 [] [EventNotFound "00012"])
         /\ Noshookpupil.main stod_decimal sqrt opens [("00012_a.csv"%string, recording_no_tag)]
            = Ret (mkReport [] [] ["00012"%string] 0 0 0 [] [])).
Proof.
  split; [|split].
  - intros stod sqrt opens st fileIndex headerRow rows H.
    unfold Noshookpupil.process_file. rewrite H. cbn [Z.eqb Pos.eqb].
    repeat split. cbn [note_missing_event missingEventIndices]. unfold set_insert.
    destruct (existsb (String.eqb fileIndex) (missingEventIndices st)) eqn:E.
    + apply existsb_exists in E. destruct E as (x & Hin & Hx).
      apply String.eqb_eq in Hx. subst. exact Hin.
    + apply in_or_app. right. left. reflexivity.
  - intros stod sqrt opens st fileIndex headerRow rows Hl Hr Hc He.
    unfold Shookpupil.process_file.
    apply Z.eqb_neq in Hl, Hr, Hc. rewrite Hl, Hr, Hc. cbn [orb].
    assert ((fst (findEventRows (headerRow :: rows) (findEventColumn headerRow)) =? -1)%Z
            || (snd (findEventRows (headerRow :: rows) (findEventColumn headerRow)) =? -1)%Z
            = true) as ->.
    { apply orb_true_iff. destruct He as [He|He]; [left|right]; apply Z.eqb_eq, He. }
    repeat split.
  - intros sqrt opens. split; vm_compute; reflexivity.
Qed.

(** C8 fails on the code.  findPupilColumns does return -1 for a marker
    that no header cell contains, and the dual-event [main] skips such a
    subject; the single-event [main] makes no such test: for the recording
    without a left pupil column it reaches the extraction with the column
    -1 and indexes the first data row at -1.  Neither variant tests the
    luminance column leftPupilCol - 1: for the recording whose first
    column is the left pupil both index a row at -1. *)
Theorem C8_negative_column_is_indexed :
  (forall headerRow,
      (forall c, In c headerRow -> contains (trim c) "leftPupil" = false) ->
      fst (findPupilColumns headerRow) = (-1)%Z)
  /\ (forall headerRow,
         (forall c, In c headerRow -> contains (trim c) "rightPupil" = false) ->
         snd (findPupilColumns headerRow) = (-1)%Z)
  /\ (forall stod sqrt opens st fileIndex headerRow rows,
         (fst (findPupilColumns headerRow) = (-1)%Z
          \/ snd (findPupilColumns headerRow) = (-1)%Z) ->
         Shookpupil.process_file stod sqrt opens st fileIndex (headerRow :: rows)
         = Ret (say (PupilColumnNotFound fileIndex) st))
  /\ (forall sqrt opens,
         findPupilColumns (hd [] recording_no_left) = ((-1)%Z, 2%Z)
         /\ findEventRow recording_no_left = 2%Z
         /\ parse_row stod_decimal (nth 1 recording_no_left []) 0 (-1) 2 = OutOfRange
         /\ Noshookpupil.main stod_decimal sqrt opens [("00012_a.csv"%string, recording_no_left)]
            = Undefined)
  /\ (forall sqrt opens,
         findPupilColumns (hd [] recording_left_first) = (0%Z, 1%Z)
         /\ at_ (nth 1 recording_left_first []) (0 - 1) = None
         /\ Noshookpupil.main stod_decimal sqrt opens
              [("00012_a.csv"%string, recording_left_first)] = Undefined
         /\ Shookpupil.main stod_decimal sqrt opens
              [("00012_a.csv"%string, recording_left_first)] = Undefined).
Proof.
  assert (forall headerRow i cols,
             (forall c, In c headerRow -> contains (trim c) "leftPupil" = false) ->
             fst (findPupilColumns_from i headerRow cols) = fst cols) as HL.
  { induction headerRow as [|c r IH]; intros i cols H; cbn [findPupilColumns_from];
      [reflexivity|].
    rewrite IH by (intros c' Hc'; apply H; right; exact Hc').
    cbn [fst]. rewrite (H c) by (left; reflexivity). reflexivity. }
  assert (forall headerRow i cols,
             (forall c, In c headerRow -> contains (trim c) "rightPupil" = false) ->
             snd (findPupilColumns_from i headerRow cols) = snd cols) as HR.
  { induction headerRow as [|c r IH]; intros i cols H; cbn [findPupilColumns_from];
      [reflexivity|].
    rewrite IH by (intros c' Hc'; apply H; right; exact Hc').
    cbn [snd]. rewrite (H c) by (left; reflexivity). reflexivity. }
  split; [|split; [|split; [|split]]].
  - intros headerRow H. unfold findPupilColumns. rewrite HL by exact H. reflexivity.
  - intros headerRow H. unfold findPupilColumns. rewrite HR by exact H. reflexivity.
  - intros stod sqrt opens st fileIndex headerRow rows H. unfold Shookpupil.process_file.
    assert ((fst (findPupilColumns headerRow) =? -1)%Z
            || (snd (findPupilColumns headerRow) =? -1)%Z = true) as ->; [|reflexivity].
    apply orb_true_iff. destruct H as [H|H]; [left|right]; apply Z.eqb_eq, H.
  - intros sqrt opens. repeat split; vm_compute; reflexivity.
  - intros sqrt opens. repeat split; vm_compute; reflexivity.
Qed.

(** ** Further properties of the locator and of the mapping *)

(** The last value assigned to a luminance is the row an exact lookup of
    that luminance returns (last write wins). *)
Theorem assign_then_lookup (m : TTestAfter.mapping) (key : Q) (value : TTestAfter.PupilData) :
  TTestAfter.ordered m ->
  TTestAfter.getClosestLuminanceMatch (TTestAfter.assign m key value) key = value.
Proof.
  intro Ho.
  assert (exists k, In (k, value) (TTestAfter.assign m key value) /\ k == key) as (k & Hin & Hk).
  { clear Ho. induction m as [|[k0 v0] r IH]; cbn [TTestAfter.assign].
    - exists key. split; [left; reflexivity|reflexivity].
    - destruct (Qlt_bool key k0) eqn:E1.
      + exists key. split; [left; reflexivity|reflexivity].
      + destruct (Qlt_bool k0 key) eqn:E2.
        * destruct IH as (k & Hin & Hk). exists k. split; [right; exact Hin|exact Hk].
        * apply Qlt_bool_false_iff in E1, E2. exists k0.
          split; [left; reflexivity|lra]. }
  pose proof (LookupProperties.assign_ordered m key value Ho) as Ho'.
  eapply LookupProperties.closest_exact; eauto.
Qed.

Lemma assign_then_lookup_witness :
  TTestAfter.getClosestLuminanceMatch
    (TTestAfter.assign Examples.two_rows 20 Examples.row10) 20 = Examples.row10.
Proof.
  apply (assign_then_lookup Examples.two_rows 20 Examples.row10).
  cbn. split; [reflexivity|exact I].
Defined.

(** findEventRow returns -1 exactly when no row after the header has a
    cell containing "0.2 seconds"; otherwise it returns the index, at
    least 1, of the first such row. *)
Theorem findEventRow_first (data : table) :
  (findEventRow data = (-1)%Z <->
   forall row, In row (tl data) ->
               existsb (fun cell => contains cell "0.2 seconds") row = false)
  /\ (findEventRow data <> (-1)%Z ->
      exists i row,
        findEventRow data = Z.of_nat i /\ (1 <= i)%nat
        /\ nth_error data i = Some row
        /\ existsb (fun cell => contains cell "0.2 seconds") row = true
        /\ forall j r, (1 <= j < i)%nat -> nth_error data j = Some r ->
                       existsb (fun cell => contains cell "0.2 seconds") r = false).
Proof.
  assert (forall rows z, (0 <= z)%Z ->
            (findEventRow_from z rows = (-1)%Z <->
             forall row, In row rows ->
                         existsb (fun cell => contains cell "0.2 seconds") row = false)
            /\ (findEventRow_from z rows <> (-1)%Z ->
                exists n row,
                  findEventRow_from z rows = (z + Z.of_nat n)%Z
                  /\ nth_error rows n = Some row
                  /\ existsb (fun cell => contains cell "0.2 seconds") row = true
                  /\ forall j r, (j < n)%nat -> nth_error rows j = Some r ->
                       existsb (fun cell => contains cell "0.2 seconds") r = false)) as H.
  { induction rows as [|row rest IH]; intros z Hz; cbn [findEventRow_from].
    - split; [split; [intros _ row []|reflexivity]|congruence].
    - destruct (existsb (fun cell => contains cell "0.2 seconds") row) eqn:E.
      + split.
        * split; [lia|]. intro H. rewrite (H row (or_introl eq_refl)) in E. discriminate.
        * intros _. exists 0%nat, row. repeat split; [lia|exact E|]. intros j r Hj. lia.
      + destruct (IH (z + 1)%Z ltac:(lia)) as [[H1 H2] H3]. split.
        * split.
          -- intros Hm row' [<-|Hin]; [exact E|]. apply H1; assumption.
          -- intro H. apply H2. intros row' Hin. apply H. right. exact Hin.
        * intro Hne. destruct (H3 Hne) as (n & r & Hr & Hn & Ht & Hbefore).
          exists (S n), r. repeat split; [lia|exact Hn|exact Ht|].
          intros j r' Hj Hnth. destruct j as [|j]; cbn [nth_error] in Hnth.
          -- inversion Hnth; subst. exact E.
          -- eapply Hbefore; [|exact Hnth]. lia. }
  unfold findEventRow. destruct (H (tl data) 1%Z ltac:(lia)) as [H1 H2].
  split; [exact H1|]. intro Hne. destruct (H2 Hne) as (n & r & Hr & Hn & Ht & Hbefore).
  destruct data as [|header rows]; [cbn in Hn; destruct n; discriminate|].
  cbn [tl] in *. exists (S n), r. repeat split; [lia|lia|exact Hn|exact Ht|].
  intros j r' Hj Hnth. destruct j as [|j]; [lia|]. cbn [nth_error] in Hnth.
  eapply Hbefore; [|exact Hnth]. lia.
Qed.

(** ** The locator: which index each search returns *)

Lemma first_match_where {A : Type} (p : A -> bool) (rows : list A) :
  forall pre,
    first_index_where p (length pre) (pre ++ rows)
                      (first_match p (Z.of_nat (length pre)) rows).
Proof.
  induction rows as [|row rest IH]; intro pre; cbn [first_match].
  - left. split; [reflexivity|]. intros j x Hj Hnth. rewrite app_nil_r in Hnth.
    assert (nth_error pre j = None) as E by (apply nth_error_None; lia). congruence.
  - destruct (p row) eqn:E.
    + right. exists (length pre), row. split; [reflexivity|]. split; [lia|].
      split; [rewrite nth_error_app2, Nat.sub_diag by lia; reflexivity|].
      split; [exact E|]. intros j y Hj. lia.
    + specialize (IH (pre ++ [row])).
      rewrite <- app_assoc in IH. cbn [app] in IH.
      replace (Z.of_nat (length (pre ++ [row]))) with (Z.of_nat (length pre) + 1)%Z in IH
        by (rewrite length_app; cbn [length]; lia).
      assert (nth_error (pre ++ row :: rest) (length pre) = Some row) as Hrow
          by (rewrite nth_error_app2, Nat.sub_diag by lia; reflexivity).
      rewrite length_app in IH. cbn [length] in IH.
      destruct IH as [[Hr Hall]|(i & x & Hr & Hi & Hnth & Hp & Hbefore)].
      * left. split; [exact Hr|]. intros j x Hj Hnth.
        destruct (Nat.eq_dec j (length pre)) as [->|Hne].
        -- rewrite Hrow in Hnth. inversion Hnth; subst. exact E.
        -- eapply Hall; [|exact Hnth]. lia.
      * right. exists i, x. split; [exact Hr|]. split; [lia|]. split; [exact Hnth|].
        split; [exact Hp|]. intros j y Hj Hy.
        destruct (Nat.eq_dec j (length pre)) as [->|Hne].
        -- rewrite Hrow in Hy. inversion Hy; subst. exact E.
        -- eapply Hbefore; [|exact Hy]. lia.
Qed.

Lemma first_match_nonneg {A : Type} (p : A -> bool) (rows : list A) :
  forall i, (0 <= i)%Z -> first_match p i rows = (-1)%Z \/ (i <= first_match p i rows)%Z.
Proof.
  induction rows as [|row rest IH]; intros i Hi; cbn [first_match]; [left; reflexivity|].
  destruct (p row); [right; lia|].
  destruct (IH (i + 1)%Z ltac:(lia)) as [H|H]; [left; exact H|right; lia].
Qed.

(** The one pass of findEventRows, with its early exit, finds for each
    marker what a search for that marker alone finds. *)
Lemma findEventRows_from_first_match (c : Z) (rows : table) :
  forall i a b,
    (0 <= i)%Z ->
    findEventRows_from i rows c (a, b)
    = ((if (a =? -1)%Z then first_match (event_cell_has c "0.2 seconds") i rows else a),
       (if (b =? -1)%Z then first_match (event_cell_has c "shook") i rows else b)).
Proof.
  induction rows as [|row rest IH]; intros i a b Hi; cbn [findEventRows_from first_match].
  - destruct (a =? -1)%Z eqn:Ea; destruct (b =? -1)%Z eqn:Eb;
      rewrite ?Z.eqb_eq in *; subst; reflexivity.
  - unfold event_cell_has at 1 3.
    destruct (size_le_int (length row) c) eqn:Es; cbn [negb andb].
    + apply IH. lia.
    + cbn [fst snd].
      set (v := nth (Z.to_nat c) row EmptyString).
      destruct (contains v "0.2 seconds") eqn:E1;
        destruct (contains v "shook") eqn:E2;
        destruct (a =? -1)%Z eqn:Ea; destruct (b =? -1)%Z eqn:Eb;
        cbn [andb negb];
        rewrite ?Ea, ?Eb; cbn [andb negb];
        try (assert ((i =? -1)%Z = false) as Ei by (apply Z.eqb_neq; lia); rewrite ?Ei);
        cbn [andb negb];
        try reflexivity;
        try (rewrite IH by lia; rewrite ?Ea, ?Eb, ?Ei; reflexivity).
Qed.

(** Each index findEventRows returns is that of the first row after the
    header whose event column holds the marker, -1 when no row does: the
    early exit once both are found changes neither. *)
Theorem findEventRows_first (data : table) (eventColumn : Z) :
  first_index_where (event_cell_has eventColumn "0.2 seconds") 1 data
                    (fst (findEventRows data eventColumn))
  /\ first_index_where (event_cell_has eventColumn "shook") 1 data
                       (snd (findEventRows data eventColumn)).
Proof.
  unfold findEventRows. rewrite findEventRows_from_first_match by lia. cbn [fst snd Z.eqb].
  destruct data as [|headerRow rows].
  - cbn [tl first_match]. split; left; (split; [reflexivity|]);
      intros j x _ H; destruct j; discriminate.
  - cbn [tl]. split.
    + apply (first_match_where (event_cell_has eventColumn "0.2 seconds") rows [headerRow]).
    + apply (first_match_where (event_cell_has eventColumn "shook") rows [headerRow]).
Qed.

Lemma findEventColumn_first_match (headerRow : list string) :
  forall i, findEventColumn_from i headerRow
            = first_match (fun cell => contains (trim cell) "robotEvent") i headerRow.
Proof.
  induction headerRow as [|cell rest IH]; intro i; cbn [findEventColumn_from first_match];
    [reflexivity|].
  destruct (contains (trim cell) "robotEvent"); [reflexivity|apply IH].
Qed.

(** The event column both dual-event [main]s use is the first header cell
    that contains "robotEvent" once trimmed, -1 when there is none. *)
Theorem findEventColumn_first (headerRow : list string) :
  first_index_where (fun cell => contains (trim cell) "robotEvent") 0 headerRow
                    (findEventColumn headerRow).
Proof.
  unfold findEventColumn. rewrite findEventColumn_first_match.
  apply (first_match_where (fun cell => contains (trim cell) "robotEvent") headerRow []).
Qed.

Lemma last_index_where_snoc {A : Type} (p : A -> bool) (pre : list A) (x : A) (r : Z) :
  last_index_where p pre r ->
  last_index_where p (pre ++ [x]) (if p x then Z.of_nat (length pre) else r).
Proof.
  intro H. destruct (p x) eqn:E.
  - right. exists (length pre), x. split; [reflexivity|].
    split; [rewrite nth_error_app2, Nat.sub_diag by lia; reflexivity|].
    split; [exact E|]. intros j y Hj Hy.
    assert (nth_error (pre ++ [x]) j = None) as N
        by (apply nth_error_None; rewrite length_app; cbn [length]; lia).
    congruence.
  - destruct H as [[Hr Hall]|(i & y & Hr & Hnth & Hp & Hafter)].
    + left. split; [exact Hr|]. intros z Hz. apply in_app_or in Hz.
      destruct Hz as [Hz|[<-|[]]]; [apply Hall, Hz|exact E].
    + right. exists i, y. split; [exact Hr|].
      assert (i < length pre)%nat as Hi by (apply nth_error_Some; congruence).
      split; [rewrite nth_error_app1 by lia; exact Hnth|]. split; [exact Hp|].
      intros j z Hj Hz. destruct (Nat.lt_ge_cases j (length pre)) as [L|G].
      * rewrite nth_error_app1 in Hz by lia. eapply Hafter; eauto.
      * rewrite nth_error_app2 in Hz by lia.
        destruct (j - length pre)%nat as [|k]; cbn in Hz;
          [inversion Hz; subst; exact E|destruct k; discriminate].
Qed.

Lemma findPupilColumns_from_last (headerRow : list string) :
  forall pre cols,
    last_index_where (fun c => contains (trim c) "leftPupil") pre (fst cols) ->
    last_index_where (fun c => contains (trim c) "rightPupil") pre (snd cols) ->
    last_index_where (fun c => contains (trim c) "leftPupil") (pre ++ headerRow)
      (fst (findPupilColumns_from (Z.of_nat (length pre)) headerRow cols))
    /\ last_index_where (fun c => contains (trim c) "rightPupil") (pre ++ headerRow)
         (snd (findPupilColumns_from (Z.of_nat (length pre)) headerRow cols)).
Proof.
  induction headerRow as [|cell rest IH]; intros pre cols HL HR;
    cbn [findPupilColumns_from].
  - rewrite app_nil_r. split; assumption.
  - replace (pre ++ cell :: rest) with ((pre ++ [cell]) ++ rest)
      by (rewrite <- app_assoc; reflexivity).
    replace (Z.of_nat (length pre) + 1)%Z with (Z.of_nat (length (pre ++ [cell])))
      by (rewrite length_app; cbn [length]; lia).
    apply IH; cbn [fst snd].
    + apply (last_index_where_snoc (fun c => contains (trim c) "leftPupil")), HL.
    + apply (last_index_where_snoc (fun c => contains (trim c) "rightPupil")), HR.
Qed.

(** findPupilColumns returns, for each eye, the index of the last header
    cell that contains its marker once trimmed (a later match replaces an
    earlier one), and -1 when no cell does. *)
Theorem findPupilColumns_last (headerRow : list string) :
  last_index_where (fun c => contains (trim c) "leftPupil") headerRow
                   (fst (findPupilColumns headerRow))
  /\ last_index_where (fun c => contains (trim c) "rightPupil") headerRow
                      (snd (findPupilColumns headerRow)).
Proof.
  unfold findPupilColumns.
  apply (findPupilColumns_from_last headerRow [] ((-1)%Z, (-1)%Z));
    left; (split; [reflexivity|]); intros x [].
Qed.

(** ** No access out of range when the columns are found *)

Lemma findEventRow_where (data : table) :
  first_index_where (existsb (fun cell => contains cell "0.2 seconds")) 1 data
                    (findEventRow data).
Proof.
  assert (forall rows i,
             findEventRow_from i rows
             = first_match (existsb (fun cell => contains cell "0.2 seconds")) i rows) as E.
  { induction rows as [|row rest IH]; intro i; cbn [findEventRow_from first_match];
      [reflexivity|].
    destruct (existsb (fun cell => contains cell "0.2 seconds") row);
      [reflexivity|apply IH]. }
  unfold findEventRow. rewrite E. destruct data as [|headerRow rows].
  - left. split; [reflexivity|]. intros j x _ H. destruct j; discriminate.
  - apply (first_match_where _ rows [headerRow]).
Qed.

Lemma findEventRows_where (data : table) (c : Z) :
  first_index_where (event_cell_has c "0.2 seconds") 1 data (fst (findEventRows data c))
  /\ first_index_where (event_cell_has c "shook") 1 data (snd (findEventRows data c)).
Proof.
  unfold findEventRows. rewrite findEventRows_from_first_match by lia. cbn [fst snd Z.eqb].
  destruct data as [|headerRow rows].
  - cbn [tl first_match]. split; left; (split; [reflexivity|]);
      intros j x _ H; destruct j; discriminate.
  - cbn [tl]. split.
    + apply (first_match_where (event_cell_has c "0.2 seconds") rows [headerRow]).
    + apply (first_match_where (event_cell_has c "shook") rows [headerRow]).
Qed.

Lemma findPupilColumns_nonneg (headerRow : list string) :
  (fst (findPupilColumns headerRow) = (-1)%Z \/ (0 <= fst (findPupilColumns headerRow))%Z)
  /\ (snd (findPupilColumns headerRow) = (-1)%Z
      \/ (0 <= snd (findPupilColumns headerRow))%Z).
Proof.
  destruct (findPupilColumns_from_last headerRow [] ((-1)%Z, (-1)%Z)) as [HL HR];
    try (left; (split; [reflexivity|]); intros x []).
  unfold findPupilColumns. cbn [app length Z.of_nat] in HL, HR.
  split.
  - destruct HL as [[H _]|(i & x & H & _)]; [left; exact H|right; lia].
  - destruct HR as [[H _]|(i & x & H & _)]; [left; exact H|right; lia].
Qed.

Lemma at_in_range {A : Type} (v : list A) (i : Z) :
  (0 <= i < Z.of_nat (length v))%Z -> exists x, at_ v i = Some x.
Proof.
  intro H. unfold at_. destruct (i <? 0)%Z eqn:E; [apply Z.ltb_lt in E; lia|].
  destruct (nth_error v (Z.to_nat i)) as [x|] eqn:N; [exists x; reflexivity|].
  apply nth_error_None in N. lia.
Qed.

Section InRange.

Variable stod : string -> option Q.
Variable sqrt : Q -> Q.
Variable opens : summary_file -> string -> bool.

(** A row that passes the size test is indexed inside its range when the
    left pupil column is at least 1 and the right one at least 0. *)
Lemma parse_row_in_range (row : list string) (lc rc : Z) :
  (1 <= lc)%Z -> (0 <= rc)%Z -> parse_row stod row 0 lc rc <> OutOfRange.
Proof.
  intros Hl Hr. unfold parse_row.
  destruct (size_le_int (length row) (Z.max lc rc)) eqn:E; [discriminate|].
  unfold size_le_int in E. destruct (Z.max lc rc <? 0)%Z; [discriminate|].
  apply Z.leb_gt in E. unfold cell.
  destruct (at_in_range row 0 ltac:(lia)) as (t0 & ->).
  destruct (stod t0); [|discriminate].
  destruct (at_in_range row lc ltac:(lia)) as (t1 & ->).
  destruct (stod t1); [|discriminate].
  destruct (at_in_range row rc ltac:(lia)) as (t2 & ->).
  destruct (stod t2); [|discriminate].
  destruct (at_in_range row (lc - 1) ltac:(lia)) as (t3 & ->).
  destruct (stod t3); discriminate.
Qed.

Lemma scan_rows_in_range (rows : table) (lc rc : Z) (bt aft : Q) :
  (1 <= lc)%Z -> (0 <= rc)%Z ->
  forall ws, scan_rows stod rows 0 lc rc bt aft ws <> Undefined.
Proof.
  intros Hl Hr. induction rows as [|row rest IH]; intro ws; cbn [scan_rows];
    [discriminate|].
  pose proof (parse_row_in_range row lc rc Hl Hr) as Hp.
  destruct (parse_row stod row 0 lc rc); [apply IH|apply IH|congruence].
Qed.

Lemma extract_in_range (data : table) (lc rc : Z) (bt aft : Q) :
  (1 <= lc)%Z -> (0 <= rc)%Z -> extract stod sqrt data 0 lc rc bt aft <> Undefined.
Proof.
  intros Hl Hr. unfold extract, bind.
  pose proof (scan_rows_in_range (tl data) lc rc bt aft Hl Hr (window0, window0)) as H.
  destruct (scan_rows stod (tl data) 0 lc rc bt aft (window0, window0));
    [discriminate|discriminate|congruence].
Qed.

Lemma anchor_time_in_range (data : table) (i : nat) (row : list string) :
  nth_error data i = Some row -> row <> [] ->
  anchor_time stod data (Z.of_nat i) 0 <> Undefined.
Proof.
  intros Hnth Hne. unfold anchor_time, at_.
  destruct (Z.of_nat i <? 0)%Z eqn:E; [apply Z.ltb_lt in E; lia|].
  rewrite Nat2Z.id, Hnth. cbn [Z.ltb Z.compare Z.to_nat nth_error].
  destruct row as [|c r]; [congruence|]. destruct (stod c); discriminate.
Qed.

Lemma record_subject_defined (st : report) (fileIndex : string) (datalist : list double) :
  record_subject stod opens st fileIndex datalist <> Undefined.
Proof.
  unfold record_subject, bind, index_of.
  destruct (dgt0 (nth 0 datalist NaN) || dgt0 (nth 7 datalist NaN)); [|discriminate].
  destruct (dlt0 (nth 1 datalist NaN) || dlt0 (nth 8 datalist NaN));
    destruct (dlt0 (nth 4 datalist NaN) || dlt0 (nth 11 datalist NaN));
    destruct (stod fileIndex); discriminate.
Qed.

Lemma noshook_process_file_in_range (st : report) (fileIndex : string) (data : table) :
  findEventRow data = (-1)%Z
  \/ ((1 <= fst (findPupilColumns (hd [] data)))%Z
      /\ (0 <= snd (findPupilColumns (hd [] data)))%Z) ->
  Noshookpupil.process_file stod sqrt opens st fileIndex data <> Undefined.
Proof.
  intro H. unfold Noshookpupil.process_file.
  destruct data as [|headerRow rows]; [discriminate|]. cbn [hd] in H.
  destruct (findEventRow (headerRow :: rows) =? -1)%Z eqn:E; [discriminate|].
  apply Z.eqb_neq in E. destruct H as [H|[Hl Hr]]; [contradiction|].
  destruct (findEventRow_where (headerRow :: rows))
    as [[Hm _]|(i & row & Hi & _ & Hnth & Hp & _)]; [contradiction|].
  unfold Noshookpupil.calculatePupilAverages, bind.
  apply Z.eqb_neq in E. rewrite E, Hi.
  assert (row <> []) as Hne by (intro N; subst row; discriminate).
  pose proof (anchor_time_in_range (headerRow :: rows) i row Hnth Hne) as Ha.
  destruct (anchor_time stod (headerRow :: rows) (Z.of_nat i) 0) as [t| |];
    [|discriminate|congruence].
  pose proof (extract_in_range (headerRow :: rows) _ _ t (t + 0.229) Hl Hr) as He.
  destruct (extract stod sqrt (headerRow :: rows) 0 (fst (findPupilColumns headerRow))
                    (snd (findPupilColumns headerRow)) t (t + 0.229));
    [apply record_subject_defined|discriminate|congruence].
Qed.

Lemma event_cell_has_nonempty (c : Z) (marker : string) (row : list string) :
  event_cell_has c marker row = true -> row <> [].
Proof.
  unfold event_cell_has, size_le_int. intros H N. subst row.
  cbn [length Z.of_nat] in H.
  destruct (c <? 0)%Z eqn:E; [discriminate|]. apply Z.ltb_ge in E.
  assert ((0 <=? c)%Z = true) as E' by (apply Z.leb_le; lia).
  rewrite E' in H. discriminate.
Qed.

Lemma shook_process_file_in_range (st : report) (fileIndex : string) (data : table) :
  fst (findPupilColumns (hd [] data)) <> 0%Z ->
  Shookpupil.process_file stod sqrt opens st fileIndex data <> Undefined.
Proof.
  intro H. unfold Shookpupil.process_file.
  destruct data as [|headerRow rows]; [discriminate|]. cbn [hd] in H.
  destruct (findPupilColumns_nonneg headerRow) as [HL HR].
  destruct (fst (findPupilColumns headerRow) =? -1)%Z eqn:El; [discriminate|].
  destruct (snd (findPupilColumns headerRow) =? -1)%Z eqn:Er; [discriminate|].
  apply Z.eqb_neq in El, Er. cbn [orb].
  destruct (findEventColumn headerRow =? -1)%Z; [discriminate|].
  set (c := findEventColumn headerRow).
  destruct (findEventRows_where (headerRow :: rows) c) as [H02 Hsh].
  destruct (fst (findEventRows (headerRow :: rows) c) =? -1)%Z eqn:E1; [discriminate|].
  destruct (snd (findEventRows (headerRow :: rows) c) =? -1)%Z eqn:E2; [discriminate|].
  apply Z.eqb_neq in E1, E2. cbn [orb].
  destruct H02 as [[Hm _]|(i1 & row1 & Hi1 & _ & Hn1 & Hp1 & _)]; [contradiction|].
  destruct Hsh as [[Hm _]|(i2 & row2 & Hi2 & _ & Hn2 & Hp2 & _)]; [contradiction|].
  unfold Shookpupil.calculatePupilAverages, bind. rewrite Hi1, Hi2.
  pose proof (anchor_time_in_range _ i1 row1 Hn1 (event_cell_has_nonempty _ _ _ Hp1)) as Ha1.
  pose proof (anchor_time_in_range _ i2 row2 Hn2 (event_cell_has_nonempty _ _ _ Hp2)) as Ha2.
  destruct (anchor_time stod (headerRow :: rows) (Z.of_nat i1) 0) as [t1| |];
    [|discriminate|congruence].
  destruct (anchor_time stod (headerRow :: rows) (Z.of_nat i2) 0) as [t2| |];
    [|discriminate|congruence].
  assert (1 <= fst (findPupilColumns headerRow))%Z as Hl by (destruct HL; lia).
  assert (0 <= snd (findPupilColumns headerRow))%Z as Hr by (destruct HR; lia).
  pose proof (extract_in_range (headerRow :: rows) _ _ t1 t2 Hl Hr) as He.
  destruct (extract stod sqrt (headerRow :: rows) 0 (fst (findPupilColumns headerRow))
                    (snd (findPupilColumns headerRow)) t1 t2);
    [apply record_subject_defined|discriminate|congruence].
Qed.

Lemma for_each_file_in_range (body : report -> string -> table -> outcome report)
      (files : list (string * table)) :
  (forall st name data, In (name, data) files ->
                        body st (fileIndex_of name) data <> Undefined) ->
  forall st, for_each_file body files st <> Undefined.
Proof.
  induction files as [|[name data] rest IH]; intros H st; cbn [for_each_file];
    [discriminate|].
  unfold bind. pose proof (H st name data (or_introl eq_refl)) as Hb.
  destruct (body st (fileIndex_of name) data); [|discriminate|congruence].
  apply IH. intros st' n d Hin. apply H. right. exact Hin.
Qed.

(** The dual-event [main] never indexes a vector out of its range when,
    in every file, the left pupil column is not the first column. *)
Theorem shook_main_in_range (files : list (string * table)) :
  (forall name data, In (name, data) files ->
                     fst (findPupilColumns (hd [] data)) <> 0%Z) ->
  Shookpupil.main stod sqrt opens files <> Undefined.
Proof.
  intro H. unfold Shookpupil.main. apply for_each_file_in_range.
  intros st name data Hin. apply shook_process_file_in_range. eapply H, Hin.
Qed.

(** The single-event [main] never indexes a vector out of its range when
    every file either lacks the tag (it is skipped before the extraction)
    or has its left pupil column at index 1 or more and a right pupil
    column. *)
Theorem noshook_main_in_range (files : list (string * table)) :
  (forall name data, In (name, data) files ->
     findEventRow data = (-1)%Z
     \/ ((1 <= fst (findPupilColumns (hd [] data)))%Z
         /\ (0 <= snd (findPupilColumns (hd [] data)))%Z)) ->
  Noshookpupil.main stod sqrt opens files <> Undefined.
Proof.
  intro H. unfold Noshookpupil.main. apply for_each_file_in_range.
  intros st name data Hin. apply noshook_process_file_in_range. eapply H, Hin.
Qed.

End InRange.

Lemma shook_main_in_range_witness :
  Shookpupil.main stod_decimal sqrt_heron always_open
    [("00012_a.csv"%string, recording); ("00013_a.csv"%string, recording_no_left)]
  <> Undefined.
Proof.
  apply (shook_main_in_range stod_decimal sqrt_heron always_open).
  intros name data [H|[H|[]]]; inversion H; subst; vm_compute; discriminate.
Defined.

Lemma noshook_main_in_range_witness :
  Noshookpupil.main stod_decimal sqrt_heron always_open
    [("00012_a.csv"%string, recording); ("00013_a.csv"%string, recording_no_tag)]
  <> Undefined.
Proof.
  apply (noshook_main_in_range stod_decimal sqrt_heron always_open).
  intros name data [H|[H|[]]]; inversion H; subst.
  - right. vm_compute. split; discriminate.
  - left. vm_compute. reflexivity.
Defined.

(** ** What both [main]s keep true of the summary files *)

Lemma report_inv_weaken (P : Prop) (from_file : Q -> Prop) (n : nat) (st : report) :
  report_inv P from_file n st -> report_inv P from_file (S n) st.
Proof.
  unfold report_inv. intros (H1 & H2 & H3 & H4 & H5 & H6).
  repeat split; try assumption; try lia; apply H3; assumption.
Qed.

Section MainInvariant.

Variable stod : string -> option Q.
Variable sqrt : Q -> Q.
Variable opens : summary_file -> string -> bool.

Lemma record_subject_inv (from_file : Q -> Prop) (n : nat) (st st' : report)
      (fileIndex : string) (datalist : list double) :
  (forall i, stod fileIndex = Some i -> from_file i) ->
  report_inv (forall f i, opens f i = true) from_file n st ->
  record_subject stod opens st fileIndex datalist = Ret st' ->
  report_inv (forall f i, opens f i = true) from_file (S n) st'.
Proof.
  intros Hfrom (H1 & H2 & H3 & H4 & H5 & H6) H.
  unfold record_subject, bind, index_of in H.
  destruct (dgt0 (nth 0 datalist NaN) || dgt0 (nth 7 datalist NaN)) eqn:Elum.
  - destruct (dlt0 (nth 1 datalist NaN) || dlt0 (nth 8 datalist NaN)) eqn:El;
      destruct (dlt0 (nth 4 datalist NaN) || dlt0 (nth 11 datalist NaN)) eqn:Er;
      destruct (stod fileIndex) as [i|] eqn:Ei; try discriminate;
      destruct (opens LeftPupilTxt fileIndex) eqn:OL;
      destruct (opens RightPupilTxt fileIndex) eqn:OR;
      inversion H; subst st'; clear H;
      try (apply orb_false_elim in El; destruct El as [El1 El2]);
      try (apply orb_false_elim in Er; destruct Er as [Er1 Er2]);
      unfold report_inv, saveVectorToFile, count_valid_left, count_valid_right, say;
      cbn [negb leftpupil_txt rightpupil_txt validleftcnt validrightcnt
           invalidluminancecnt invalidluminance];
      rewrite ?length_app; cbn [length];
      (split; [lia|]); (split; [lia|]);
      (split; [intro Hall; specialize (H3 Hall);
               try (rewrite Hall in OL; discriminate);
               try (rewrite Hall in OR; discriminate); lia|]);
      (split; [assumption|]);
      split;
      first [assumption
            |apply Forall_app; (split; [assumption|]); (constructor; [|constructor]);
             (split; [unfold line_ok;
                      cbn [pupilBefore pupilAfter luminanceBefore luminanceAfter];
                      repeat split; assumption
                     |cbn [index]; apply Hfrom; reflexivity])].
  - inversion H; subst st'; clear H.
    unfold report_inv, say, note_invalid_luminance.
    cbn [leftpupil_txt rightpupil_txt validleftcnt validrightcnt invalidluminancecnt
         invalidluminance].
    rewrite length_app. cbn [length]. repeat split; try assumption; try lia;
      apply H3; assumption.
Qed.

Lemma noshook_process_file_inv (from_file : Q -> Prop) (n : nat) (st st' : report)
      (fileIndex : string) (data : table) :
  (forall i, stod fileIndex = Some i -> from_file i) ->
  report_inv (forall f i, opens f i = true) from_file n st ->
  Noshookpupil.process_file stod sqrt opens st fileIndex data = Ret st' ->
  report_inv (forall f i, opens f i = true) from_file (S n) st'.
Proof.
  intros Hfrom Hinv H. unfold Noshookpupil.process_file in H.
  destruct data as [|headerRow rows].
  - inversion H; subst. apply report_inv_weaken, Hinv.
  - destruct (findEventRow (headerRow :: rows) =? -1)%Z.
    + inversion H; subst. apply report_inv_weaken. exact Hinv.
    + unfold bind in H.
      destruct (Noshookpupil.calculatePupilAverages stod sqrt (headerRow :: rows) 0
                  (fst (findPupilColumns headerRow)) (snd (findPupilColumns headerRow))
                  (findEventRow (headerRow :: rows))) as [d| |]; try discriminate.
      eapply record_subject_inv; eauto.
Qed.

Lemma shook_process_file_inv (from_file : Q -> Prop) (n : nat) (st st' : report)
      (fileIndex : string) (data : table) :
  (forall i, stod fileIndex = Some i -> from_file i) ->
  report_inv (forall f i, opens f i = true) from_file n st ->
  Shookpupil.process_file stod sqrt opens st fileIndex data = Ret st' ->
  report_inv (forall f i, opens f i = true) from_file (S n) st'.
Proof.
  intros Hfrom Hinv H. unfold Shookpupil.process_file in H.
  destruct data as [|headerRow rows].
  - inversion H; subst. apply report_inv_weaken, Hinv.
  - destruct ((fst (findPupilColumns headerRow) =? -1)%Z
              || (snd (findPupilColumns headerRow) =? -1)%Z);
      [inversion H; subst; apply report_inv_weaken, Hinv|].
    destruct (findEventColumn headerRow =? -1)%Z;
      [inversion H; subst; apply report_inv_weaken, Hinv|].
    destruct ((fst (findEventRows (headerRow :: rows) (findEventColumn headerRow)) =? -1)%Z
              || (snd (findEventRows (headerRow :: rows) (findEventColumn headerRow))
                  =? -1)%Z);
      [inversion H; subst; apply report_inv_weaken, Hinv|].
    unfold bind in H.
    destruct (Shookpupil.calculatePupilAverages stod sqrt (headerRow :: rows) 0
                (fst (findPupilColumns headerRow)) (snd (findPupilColumns headerRow))
                (fst (findEventRows (headerRow :: rows) (findEventColumn headerRow)))
                (snd (findEventRows (headerRow :: rows) (findEventColumn headerRow))))
      as [d| |]; try discriminate.
    eapply record_subject_inv; eauto.
Qed.

Lemma for_each_file_inv (body : report -> string -> table -> outcome report)
      (P : Prop) (from_file : Q -> Prop) (files : list (string * table)) :
  (forall name data, In (name, data) files ->
     forall n st st', report_inv P from_file n st ->
                      body st (fileIndex_of name) data = Ret st' ->
                      report_inv P from_file (S n) st') ->
  forall n st st',
    report_inv P from_file n st ->
    for_each_file body files st = Ret st' ->
    report_inv P from_file (n + length files) st'.
Proof.
  induction files as [|[name data] rest IH]; intros Hbody n st st' Hinv H;
    cbn [for_each_file] in H.
  - inversion H; subst. rewrite Nat.add_0_r. exact Hinv.
  - unfold bind in H. destruct (body st (fileIndex_of name) data) as [st1| |] eqn:E;
      try discriminate.
    cbn [length]. rewrite Nat.add_succ_r, <- Nat.add_succ_l.
    eapply IH; [|eapply Hbody; [left; reflexivity|exact Hinv|exact E]|exact H].
    intros name' data' Hin. apply Hbody. right. exact Hin.
Qed.

Lemma report_inv_0 (P : Prop) (from_file : Q -> Prop) : report_inv P from_file 0 report0.
Proof.
  unfold report_inv, report0. cbn. repeat split; try constructor; lia.
Qed.

Lemma final_report_returns (totalcnt : Z) (st st' : report) (ratio : Z) :
  final_report totalcnt st = Ret (st', ratio) ->
  totalcnt <> 0%Z /\ st' = st /\ ratio = Z.quot (invalidluminancecnt st) totalcnt.
Proof.
  unfold final_report. destruct (totalcnt =? 0)%Z eqn:E; [discriminate|].
  intro H. inversion H; subst. apply Z.eqb_neq in E. repeat split. exact E.
Qed.

(** When the single-event program ends normally (the loop of [main] and
    the report printed after it), the folder held a .csv file, the
    quotient printed with the invalid-luminance counter is that counter
    divided by the number of files, and of the counters: each counter of
    valid eyes is at least the number of lines appended to its summary
    file (a file that cannot be opened gets no line, the counter is
    incremented all the same) and at most the number of files, and it
    equals the number of lines when every opening succeeds; the
    invalid-luminance counter is the length of the list printed with it;
    and every line written has no mean of its eye below zero, a luminance
    mean above zero, and as index the number read from the first five
    characters of a file name. *)
Theorem noshook_main_report (files : list (string * table)) (st : report) (ratio : Z) :
  Noshookpupil.program stod sqrt opens files = Ret (st, ratio) ->
  files <> []
  /\ ratio = Z.quot (invalidluminancecnt st) (Z.of_nat (length files))
  /\ report_inv
       (forall f i, opens f i = true)
       (fun i => exists name data,
                   In (name, data) files /\ stod (fileIndex_of name) = Some i)
       (length files) st.
Proof.
  intro H. unfold Noshookpupil.program, bind in H.
  destruct (Noshookpupil.main stod sqrt opens files) as [st0| |] eqn:E; try discriminate.
  apply final_report_returns in H. destruct H as (Hn & -> & Hr).
  split; [intro N; subst files; apply Hn; reflexivity|]. split; [exact Hr|].
  unfold Noshookpupil.main in E.
  apply (for_each_file_inv (Noshookpupil.process_file stod sqrt opens) _ _ files)
    with (n := 0%nat) (st := report0); [|apply report_inv_0|exact E].
  intros name data Hin n s s' Hinv Hb.
  eapply noshook_process_file_inv; [|exact Hinv|exact Hb].
  intros i Hi. exists name, data. split; assumption.
Qed.

(** The same holds of the dual-event program. *)
Theorem shook_main_report (files : list (string * table)) (st : report) (ratio : Z) :
  Shookpupil.program stod sqrt opens files = Ret (st, ratio) ->
  files <> []
  /\ ratio = Z.quot (invalidluminancecnt st) (Z.of_nat (length files))
  /\ report_inv
       (forall f i, opens f i = true)
       (fun i => exists name data,
                   In (name, data) files /\ stod (fileIndex_of name) = Some i)
       (length files) st.
Proof.
  intro H. unfold Shookpupil.program, bind in H.
  destruct (Shookpupil.main stod sqrt opens files) as [st0| |] eqn:E; try discriminate.
  apply final_report_returns in H. destruct H as (Hn & -> & Hr).
  split; [intro N; subst files; apply Hn; reflexivity|]. split; [exact Hr|].
  unfold Shookpupil.main in E.
  apply (for_each_file_inv (Shookpupil.process_file stod sqrt opens) _ _ files)
    with (n := 0%nat) (st := report0); [|apply report_inv_0|exact E].
  intros name data Hin n s s' Hinv Hb.
  eapply shook_process_file_inv; [|exact Hinv|exact Hb].
  intros i Hi. exists name, data. split; assumption.
Qed.

End MainInvariant.

Lemma noshook_main_report_witness :
  exists st ratio,
    Noshookpupil.program stod_decimal sqrt_heron always_open
      [("00012_a.csv"%string, recording); ("00013_a.csv"%string, recording_no_tag)]
    = Ret (st, ratio)
    /\ validleftcnt st = Z.of_nat (length (leftpupil_txt st)).
Proof.
  destruct (Noshookpupil.program stod_decimal sqrt_heron always_open
              [("00012_a.csv"%string, recording); ("00013_a.csv"%string, recording_no_tag)])
    as [[st ratio]| |] eqn:E; [|vm_compute in E; discriminate|vm_compute in E; discriminate].
  exists st, ratio. split; [reflexivity|].
  destruct (noshook_main_report stod_decimal sqrt_heron always_open _ st ratio E)
    as (_ & _ & _ & _ & H & _).
  apply H. reflexivity.
Defined.

Lemma shook_main_report_witness :
  exists st ratio,
    Shookpupil.program stod_decimal sqrt_heron always_open
      [("00012_a.csv"%string, recording); ("00013_a.csv"%string, recording_no_shook)]
    = Ret (st, ratio)
    /\ validleftcnt st = Z.of_nat (length (leftpupil_txt st)).
Proof.
  destruct (Shookpupil.program stod_decimal sqrt_heron always_open
              [("00012_a.csv"%string, recording); ("00013_a.csv"%string, recording_no_shook)])
    as [[st ratio]| |] eqn:E; [|vm_compute in E; discriminate|vm_compute in E; discriminate].
  exists st, ratio. split; [reflexivity|].
  destruct (shook_main_report stod_decimal sqrt_heron always_open _ st ratio E)
    as (_ & _ & _ & _ & H & _).
  apply H. reflexivity.
Defined.

(** A summary file that cannot be opened: the counter of valid left eyes
    is incremented and no line is written; and with no .csv file in the
    folder the report divides by zero. *)
Example open_failure_and_empty_folder :
  (exists st,
      Noshookpupil.main stod_decimal sqrt_heron (fun _ _ => false)
        [("00012_a.csv"%string, recording)] = Ret st
      /\ validleftcnt st = 1%Z /\ leftpupil_txt st = [])
  /\ Noshookpupil.program stod_decimal sqrt_heron always_open [] = Undefined
  /\ Shookpupil.program stod_decimal sqrt_heron always_open [] = Undefined.
Proof.
  split; [|split; reflexivity].
  eexists. split; [vm_compute; reflexivity|]. split; reflexivity.
Qed.

(** ** loadCSV: fields are neither split nor merged *)

Lemma has_char_append (c : ascii) (a b : string) :
  has_char c (a ++ b) <-> has_char c a \/ has_char c b.
Proof.
  unfold has_char. induction a as [|x a IH]; cbn [append list_ascii_of_string In].
  - tauto.
  - rewrite IH. tauto.
Qed.

Lemma getlines_no_delim (delim : ascii) (s : string) :
  forall field started,
    ~ has_char delim field ->
    Forall (fun f => ~ has_char delim f) (getlines delim s field started).
Proof.
  induction s as [|c rest IH]; intros field started Hf; cbn [getlines].
  - destruct started; constructor; [exact Hf|constructor].
  - destruct (Ascii.eqb c delim) eqn:E.
    + constructor; [exact Hf|]. apply IH. intros [].
    + apply IH. rewrite has_char_append. intros [H|H]; [contradiction|].
      destruct H as [H|[]]. subst. rewrite Ascii.eqb_refl in E. discriminate.
Qed.

Lemma getlines_append (delim : ascii) (x : string) :
  ~ has_char delim x ->
  forall rest field started,
    getlines delim (x ++ rest) field started
    = getlines delim rest (field ++ x)
               (started || negb (String.eqb x EmptyString)).
Proof.
  induction x as [|c x IH]; intros Hx rest field started; cbn [append].
  - cbn. rewrite orb_false_r.
    replace (field ++ EmptyString)%string with field; [reflexivity|].
    clear. induction field as [|a f IHf]; cbn; [reflexivity|]. rewrite <- IHf. reflexivity.
  - cbn [getlines].
    assert (Ascii.eqb c delim = false) as ->.
    { destruct (Ascii.eqb c delim) eqn:E; [|reflexivity].
      apply Ascii.eqb_eq in E. subst. exfalso. apply Hx. left. reflexivity. }
    rewrite IH by (intro H; apply Hx; right; exact H).
    replace ((field ++ String c EmptyString) ++ x)%string with (field ++ String c x)%string.
    + cbn. rewrite orb_true_r. reflexivity.
    + clear. induction field as [|a f IHf]; cbn; [reflexivity|]. rewrite IHf. reflexivity.
Qed.

(** A line written from fields that hold no delimiter, the last of them
    not empty, is read back as these fields. *)
Lemma getlines_join (delim : ascii) (fields : list string) :
  Forall (fun f => ~ has_char delim f) fields ->
  last fields (String delim EmptyString) <> EmptyString ->
  getlines delim (join delim fields) EmptyString false = fields.
Proof.
  induction fields as [|x rest IH]; intros Hno Hlast; [reflexivity|].
  inversion Hno as [|? ? Hx Hrest]; subst. cbn [join].
  destruct rest as [|y rest'].
  - cbn [last] in Hlast.
    replace x with (x ++ EmptyString)%string at 1
      by (clear; induction x as [|a f IHf]; cbn; [reflexivity|rewrite IHf; reflexivity]).
    rewrite getlines_append by exact Hx. cbn [getlines append orb].
    destruct (String.eqb x EmptyString) eqn:E;
      [apply String.eqb_eq in E; contradiction|reflexivity].
  - rewrite getlines_append by exact Hx. cbn [getlines append].
    rewrite Ascii.eqb_refl. f_equal. apply IH; [exact Hrest|exact Hlast].
Qed.

(** loadCSV gives no row for a file that cannot be opened; no cell of the
    table it gives holds a comma or a line feed; and a file written from
    rows of cells with neither, each row not empty and ending in a cell
    that is not empty, is read back as these rows. *)
Theorem loadCSV_cells (rows : table) :
  loadCSV None = []
  /\ (forall content,
         Forall (Forall (fun cell => ~ has_char comma cell /\ ~ has_char newline cell))
                (loadCSV (Some content)))
  /\ (Forall (fun row => Forall (fun cell => ~ has_char comma cell
                                             /\ ~ has_char newline cell) row
                         /\ last row EmptyString <> EmptyString) rows ->
      loadCSV (Some (join newline (map (join comma) rows))) = rows).
Proof.
  split; [reflexivity|]. split.
  - intro content. unfold loadCSV. apply Forall_map.
    pose proof (getlines_no_delim newline content EmptyString false
                  (fun H : has_char newline EmptyString => match H with end)) as Hl.
    eapply Forall_impl; [|exact Hl]. intros line Hline. cbv beta in *.
    pose proof (getlines_no_delim comma line EmptyString false
                  (fun H : has_char comma EmptyString => match H with end)) as Hc.
    assert (forall field started s,
               ~ has_char newline s -> ~ has_char newline field ->
               Forall (fun f => ~ has_char newline f) (getlines comma s field started)) as Hn.
    { clear. intros field started s. revert field started.
      induction s as [|c r IH]; intros field started Hs Hf; cbn [getlines].
      - destruct started; constructor; [exact Hf|constructor].
      - destruct (Ascii.eqb c comma).
        + constructor; [exact Hf|]. apply IH; [|intros []].
          intro H. apply Hs. right. exact H.
        + apply IH; [intro H; apply Hs; right; exact H|].
          rewrite has_char_append. intros [H|[H|[]]]; [contradiction|].
          apply Hs. left. exact H. }
    specialize (Hn EmptyString false line Hline (fun H => match H with end)).
    rewrite Forall_forall in *. intros cell Hin. split; [apply Hc|apply Hn]; exact Hin.
  - intro Hrows. unfold loadCSV.
    assert (forall row,
               Forall (fun cell => ~ has_char comma cell /\ ~ has_char newline cell) row ->
               ~ has_char newline (join comma row)) as Hjoin.
    { induction row as [|x r IH]; intro Hrow; [intros []|].
      inversion Hrow as [|? ? [_ Hx] Hr]; subst. cbn [join].
      destruct r as [|y r']; [exact Hx|].
      rewrite has_char_append. intros [H|[H|H]]; [contradiction|discriminate|].
      apply (IH Hr). exact H. }
    rewrite getlines_join.
    + rewrite map_map. rewrite <- (map_id rows) at 2. apply map_ext_in.
      intros row Hin. rewrite Forall_forall in Hrows. destruct (Hrows row Hin) as [Hc Hl].
      apply getlines_join.
      * eapply Forall_impl; [|exact Hc]. intros c [H _]. exact H.
      * destruct row as [|x r]; [cbn in Hl; congruence|].
        clear - Hl. revert x Hl. induction r as [|y r IH]; intros x Hl; [exact Hl|].
        cbn [last] in *. apply IH. exact Hl.
    + apply Forall_map. eapply Forall_impl; [|exact Hrows].
      intros row [Hc _]. apply Hjoin, Hc.
    + rewrite Forall_forall in Hrows.
      destruct rows as [|r0 rs]; [cbn; discriminate|].
      assert (forall row, In row (r0 :: rs) -> join comma row <> EmptyString) as Hne.
      { intros row Hin. destruct (Hrows row Hin) as [_ Hl].
        destruct row as [|x r]; [cbn in Hl; congruence|].
        clear - Hl. revert x Hl. induction r as [|y r IH]; intros x Hl; cbn [join last] in *.
        - exact Hl.
        - destruct x; discriminate. }
      clear - Hne. revert r0 Hne. induction rs as [|r1 rs IH]; intros r0 Hne.
      * cbn. apply Hne. left. reflexivity.
      * cbn [map last] in *. apply IH. intros row Hin. apply Hne. right. exact Hin.
Qed.

Lemma loadCSV_cells_witness :
  loadCSV (Some (join newline (map (join comma) recording_csv))) = recording_csv.
Proof.
  apply (loadCSV_cells recording_csv).
  apply Forall_forall. intros row Hin. cbn in Hin.
  repeat (destruct Hin as [<-|Hin]); [| | | |contradiction];
    (split; [|discriminate]);
    apply Forall_forall; intros cell Hc; cbn in Hc;
    repeat (destruct Hc as [<-|Hc]); try contradiction;
    (split; intro H; vm_compute in H;
     repeat (destruct H as [H|H]; [discriminate|]); exact H).
Defined.

(** ** trim *)

Lemma append_nil_r (s : string) : (s ++ EmptyString)%string = s.
Proof.
  induction s as [|a s IH]; cbn; [reflexivity|]. rewrite IH. reflexivity.
Qed.

Lemma append_assoc (a b c : string) : ((a ++ b) ++ c)%string = (a ++ (b ++ c))%string.
Proof.
  induction a as [|x a IH]; cbn; [reflexivity|]. rewrite IH. reflexivity.
Qed.

Lemma list_ascii_of_string_app (a b : string) :
  list_ascii_of_string (a ++ b) = list_ascii_of_string a ++ list_ascii_of_string b.
Proof.
  induction a as [|x a IH]; cbn; [reflexivity|]. rewrite IH. reflexivity.
Qed.

Lemma string_of_list_ascii_app (l r : list ascii) :
  string_of_list_ascii (l ++ r)
  = (string_of_list_ascii l ++ string_of_list_ascii r)%string.
Proof.
  induction l as [|x l IH]; cbn; [reflexivity|]. rewrite IH. reflexivity.
Qed.

Lemma string_rev_involutive (s : string) : string_rev (string_rev s) = s.
Proof.
  unfold string_rev.
  rewrite list_ascii_of_string_of_list_ascii, rev_involutive.
  apply string_of_list_ascii_of_string.
Qed.

Lemma string_rev_app (a b : string) :
  string_rev (a ++ b) = (string_rev b ++ string_rev a)%string.
Proof.
  unfold string_rev.
  rewrite list_ascii_of_string_app, rev_app_distr. apply string_of_list_ascii_app.
Qed.

Lemma has_char_rev (c : ascii) (s : string) : has_char c (string_rev s) <-> has_char c s.
Proof.
  unfold has_char, string_rev. rewrite list_ascii_of_string_of_list_ascii.
  symmetry. apply in_rev.
Qed.

Lemma ltrim_idempotent (s : string) : ltrim (ltrim s) = ltrim s.
Proof.
  induction s as [|c r IH]; cbn [ltrim]; [reflexivity|].
  destruct (isspace c) eqn:E; [exact IH|]. cbn [ltrim]. rewrite E. reflexivity.
Qed.

(** [ltrim] removes a prefix of white space. *)
Lemma ltrim_decompose (s : string) :
  exists ws, s = (ws ++ ltrim s)%string /\ forall c, has_char c ws -> isspace c = true.
Proof.
  induction s as [|c r (ws & Hs & Hws)]; cbn [ltrim].
  - exists EmptyString. split; [reflexivity|]. intros c [].
  - destruct (isspace c) eqn:E.
    + exists (String c ws). split; [cbn; rewrite <- Hs; reflexivity|].
      intros x [<-|Hx]; [exact E|apply Hws, Hx].
    + exists EmptyString. split; [reflexivity|]. intros x [].
Qed.

Lemma ltrim_length (s : string) : (String.length (ltrim s) <= String.length s)%nat.
Proof.
  induction s as [|c r IH]; cbn [ltrim]; [lia|].
  destruct (isspace c); cbn [String.length]; lia.
Qed.

Lemma ltrim_fixed_head (c : ascii) (r : string) :
  ltrim (String c r) = String c r -> isspace c = false.
Proof.
  cbn [ltrim]. destruct (isspace c); [|reflexivity]. intro H.
  pose proof (ltrim_length r) as L. rewrite H in L. cbn [String.length] in L. lia.
Qed.

Lemma ltrim_head (c : ascii) (r : string) :
  isspace c = false -> ltrim (String c r) = String c r.
Proof.
  intro H. cbn [ltrim]. rewrite H. reflexivity.
Qed.

(** A marker that begins with a character that is not white space does
    not begin inside a run of white space. *)
Lemma contains_skip_space (ws s : string) (h : ascii) (m' : string) :
  (forall c, has_char c ws -> isspace c = true) ->
  isspace h = false ->
  contains (ws ++ s) (String h m') = contains s (String h m').
Proof.
  intros Hws Hh. induction ws as [|w ws IH]; [reflexivity|].
  cbn [append contains]. rewrite IH by (intros c Hc; apply Hws; right; exact Hc).
  assert (prefix (String h m') (String w (ws ++ s)) = false) as ->; [|reflexivity].
  cbn [prefix]. destruct (ascii_dec h w) as [->|]; [|reflexivity].
  rewrite (Hws w (or_introl eq_refl)) in Hh. discriminate.
Qed.

Lemma prefix_has_char (m s : string) (c : ascii) :
  prefix m s = true -> has_char c m -> has_char c s.
Proof.
  revert s. induction m as [|a m IH]; intros s Hp Hc; [destruct Hc|].
  destruct s as [|b s]; [discriminate|]. cbn [prefix] in Hp.
  destruct (ascii_dec a b) as [->|]; [|discriminate].
  destruct Hc as [<-|Hc]; [left; reflexivity|right; apply (IH s Hp Hc)].
Qed.

(** A marker that ends with a character that is not white space does not
    reach into a run of white space. *)
Lemma prefix_before_space (m0 : string) (l : ascii) (ws : string) :
  (forall c, has_char c ws -> isspace c = true) ->
  isspace l = false ->
  forall x, prefix (m0 ++ String l EmptyString) (x ++ ws)
            = prefix (m0 ++ String l EmptyString) x.
Proof.
  intros Hws Hl. induction m0 as [|a m0 IH]; intro x.
  - cbn [append]. destruct x as [|b x].
    + cbn [append]. destruct ws as [|w ws]; [reflexivity|]. cbn [prefix].
      destruct (ascii_dec l w) as [->|]; [|reflexivity].
      rewrite (Hws w (or_introl eq_refl)) in Hl. discriminate.
    + cbn [append prefix].
      destruct (ascii_dec l b); [|reflexivity].
      destruct x, ws; reflexivity.
  - cbn [append]. destruct x as [|b x].
    + cbn [append].
      destruct (prefix (String a (m0 ++ String l EmptyString)) ws) eqn:E; [|reflexivity].
      assert (has_char l ws) as Hin.
      { eapply prefix_has_char; [exact E|]. right. apply has_char_append. right.
        left. reflexivity. }
      rewrite (Hws l Hin) in Hl. discriminate.
    + cbn [append prefix]. destruct (ascii_dec a b); [apply IH|reflexivity].
Qed.

Lemma contains_before_space (m0 : string) (l : ascii) (ws : string) :
  (forall c, has_char c ws -> isspace c = true) ->
  isspace l = false ->
  forall s, contains (s ++ ws) (m0 ++ String l EmptyString)
            = contains s (m0 ++ String l EmptyString).
Proof.
  intros Hws Hl. induction s as [|a s IH].
  - cbn [append]. induction ws as [|w ws IHw].
    + reflexivity.
    + cbn [contains]. rewrite IHw by (intros c Hc; apply Hws; right; exact Hc).
      rewrite <- (prefix_before_space m0 l (String w ws) Hws Hl EmptyString).
      cbn [append]. destruct (prefix (m0 ++ String l EmptyString) (String w ws)) eqn:E.
      * exfalso. assert (has_char l (String w ws)) as Hin.
        { eapply prefix_has_char; [exact E|]. apply has_char_append. right.
          left. reflexivity. }
        rewrite (Hws l Hin) in Hl. discriminate.
      * cbn [contains orb]. destruct m0; reflexivity.
  - cbn [append contains]. rewrite IH.
    rewrite <- (prefix_before_space m0 l ws Hws Hl (String a s)). reflexivity.
Qed.

(** [trim] returns a string without white space at either end, leaves
    such a string as it is, so that trimming twice is trimming once, and
    neither hides nor creates an occurrence of a marker that has no white
    space at either end: the header searches of findPupilColumns and of
    the event column find in a trimmed cell what the cell contains. *)
Theorem trim_keeps_markers (s : string) :
  no_outer_space (trim s)
  /\ trim (trim s) = trim s
  /\ (no_outer_space s -> trim s = s)
  /\ (forall m, m <> EmptyString -> no_outer_space m ->
                contains (trim s) m = contains s m).
Proof.
  assert (forall x, no_outer_space x -> trim x = x) as Hfix.
  { intros x [H1 H2]. unfold trim. rewrite H1, H2. apply string_rev_involutive. }
  assert (no_outer_space (trim s)) as Hno.
  { unfold no_outer_space, trim. rewrite string_rev_involutive.
    split; [|apply ltrim_idempotent].
    destruct (ltrim_decompose (string_rev (ltrim s))) as (ws & Hb & Hws).
    set (c := ltrim (string_rev (ltrim s))) in *.
    assert (ltrim s = (string_rev c ++ string_rev ws)%string) as Ha.
    { rewrite <- string_rev_app, <- Hb. symmetry. apply string_rev_involutive. }
    destruct (string_rev c) as [|h t] eqn:Ec; [reflexivity|].
    apply ltrim_head.
    apply (ltrim_fixed_head h (t ++ string_rev ws)).
    cbn [append] in Ha. rewrite <- Ha. apply ltrim_idempotent. }
  split; [exact Hno|]. split; [apply Hfix, Hno|]. split; [apply Hfix|].
  intros m Hm [Hm1 Hm2].
  destruct m as [|h m']; [congruence|].
  pose proof (ltrim_fixed_head h m' Hm1) as Hh.
  assert (exists m0 l, String h m' = (m0 ++ String l EmptyString)%string
                       /\ isspace l = false) as (m0 & l & Hml & Hl).
  { destruct (string_rev (String h m')) as [|l t] eqn:Er.
    - apply (f_equal string_rev) in Er. rewrite string_rev_involutive in Er. discriminate.
    - exists (string_rev t), l. split; [|apply (ltrim_fixed_head l t Hm2)].
      rewrite <- (string_rev_involutive (String h m')), Er.
      change (String l t) with (String l EmptyString ++ t)%string.
      rewrite string_rev_app. reflexivity. }
  destruct (ltrim_decompose s) as (ws1 & Hs & Hws1).
  destruct (ltrim_decompose (string_rev (ltrim s))) as (ws2 & Hb & Hws2).
  assert (ltrim s = (trim s ++ string_rev ws2)%string) as Ha.
  { unfold trim. rewrite <- string_rev_app, <- Hb. symmetry. apply string_rev_involutive. }
  rewrite Hs at 2. rewrite (contains_skip_space ws1 (ltrim s) h m' Hws1 Hh).
  rewrite Ha, Hml. symmetry. apply contains_before_space; [|exact Hl].
  intros c Hc. apply Hws2. apply has_char_rev. exact Hc.
Qed.

(** ** t_test_after.cpp: the table and its summary *)

Module MainProperties.
Import TTestAfter TTestAfterMain.

Lemma tally_app (f : table_line -> Z) (ls : list table_line) (l : table_line) :
  tally f (ls ++ [l]) = (tally f ls + f l)%Z.
Proof.
  unfold tally. induction ls as [|x ls IH]; cbn [app fold_right]; [lia|].
  rewrite IH. lia.
Qed.

Lemma tally_le (f g : table_line -> Z) (ls : list table_line) :
  (forall l, (f l <= g l)%Z) -> (tally f ls <= tally g ls)%Z.
Proof.
  intro H. unfold tally. induction ls as [|x ls IH]; cbn [fold_right]; [lia|].
  specialize (H x). lia.
Qed.

Lemma tally_ones (ls : list table_line) : tally (fun _ => 1%Z) ls = Z.of_nat (length ls).
Proof.
  unfold tally. induction ls as [|x ls IH]; cbn [fold_right length]; [reflexivity|].
  rewrite IH. lia.
Qed.

Lemma tally_add (f g : table_line -> Z) (ls : list table_line) :
  tally (fun l => (f l + g l)%Z) ls = (tally f ls + tally g ls)%Z.
Proof.
  unfold tally. induction ls as [|x r IH]; cbn [fold_right]; [reflexivity|].
  rewrite IH. lia.
Qed.

Lemma tally_nonneg (f : table_line -> Z) (ls : list table_line) :
  (forall l, (0 <= f l)%Z) -> (0 <= tally f ls)%Z.
Proof.
  intro H. unfold tally. induction ls as [|x ls IH]; cbn [fold_right]; [lia|].
  specialize (H x). lia.
Qed.

Section Table.

Variable sqrt : Q -> Q.
Variable students_t_cdf : Z -> Q -> Q.
Variable mapping_file : string -> option (list mapping_line).

(** One pass of the loop appends one line, that of the index, and keeps
    the counters in step with the table. *)
Lemma test_index_accounted (L R : pupil_map) (alpha : Q) (s : summary) (index : string) :
  accounted s ->
  accounted (test_index sqrt students_t_cdf mapping_file L R alpha s index)
  /\ exists l,
      lines (test_index sqrt students_t_cdf mapping_file L R alpha s index)
      = lines s ++ [l]
      /\ line_index l = index.
Proof.
  intros (H1 & H2 & H3 & H4 & H5 & H6 & H7). unfold test_index.
  destruct (readLuminanceMapping (mapping_file index)) as [lm rm].
  assert (forall l r : verdict,
             accounted
               (mkSummary (lines s ++ [Tested index l r])
                          (totalLeft s + tested l) (totalRight s + tested r)
                          (leftPass s + passed l) (rightPass s + passed r)
                          (missingLuminanceMappingCount s) (missingPupilDataCount s))) as HT.
  { intros l r. unfold accounted.
    cbn [lines totalLeft totalRight leftPass rightPass missingLuminanceMappingCount
         missingPupilDataCount].
    rewrite !tally_app. cbn [left_of right_of is_missing].
    repeat split; lia. }
  assert (forall a b : Z,
             (a + b = missingLuminanceMappingCount s + missingPupilDataCount s + 1)%Z ->
             (0 <= a)%Z -> (0 <= b)%Z ->
             accounted
               (mkSummary (lines s ++ [Missing index]) (totalLeft s) (totalRight s)
                          (leftPass s) (rightPass s) a b)) as HM.
  { intros a b Hab Ha Hb. unfold accounted.
    cbn [lines totalLeft totalRight leftPass rightPass missingLuminanceMappingCount
         missingPupilDataCount].
    rewrite !tally_app. cbn [left_of right_of is_missing tested passed].
    repeat split; lia. }
  destruct lm as [|e lm]; [|destruct rm as [|e' rm]];
    try (split; [apply HM; lia|eexists; split; reflexivity]).
  destruct (find_index L index) as [la|]; [destruct (find_index R index) as [ra|]|];
    try (split; [apply HM; lia|eexists; split; reflexivity]).
  split; [apply HT|eexists; split; reflexivity].
Qed.

Lemma loop_accounted (L R : pupil_map) (alpha : Q) (indices : list string) :
  forall s,
    accounted s ->
    accounted (fold_left (test_index sqrt students_t_cdf mapping_file L R alpha) indices s)
    /\ map line_index
           (lines (fold_left (test_index sqrt students_t_cdf mapping_file L R alpha)
                             indices s))
       = map line_index (lines s) ++ indices.
Proof.
  induction indices as [|i rest IH]; intros s Hs; cbn [fold_left].
  - rewrite app_nil_r. split; [exact Hs|reflexivity].
  - destruct (test_index_accounted L R alpha s i Hs) as (Hacc & l & Hl & Hi).
    destruct (IH _ Hacc) as [H1 H2]. split; [exact H1|].
    rewrite H2, Hl, map_app. cbn [map]. rewrite Hi, <- app_assoc. reflexivity.
Qed.

(** When [main] prints its table, this has one line for each index of the
    two files, in their order, and the counters of the summary are the
    tallies of the table: totals count the verdicts that are not N/A,
    passes the rejections, the two missing counts together the lines
    marked missing; so a pass count never exceeds its total, and a total
    plus the missing counts never exceeds the number of lines. *)
Theorem main_accounting (leftpupil_txt rightpupil_txt : option (list pupil_line))
        (alpha : Q) (s : summary) :
  main sqrt students_t_cdf mapping_file leftpupil_txt rightpupil_txt alpha = Exit0 s ->
  map line_index (lines s)
  = indices_of (readPupilData leftpupil_txt) (readPupilData rightpupil_txt)
  /\ accounted s
  /\ (0 <= leftPass s <= totalLeft s)%Z
  /\ (0 <= rightPass s <= totalRight s)%Z
  /\ (totalLeft s + missingLuminanceMappingCount s + missingPupilDataCount s
      <= Z.of_nat (length (lines s)))%Z
  /\ (totalRight s + missingLuminanceMappingCount s + missingPupilDataCount s
      <= Z.of_nat (length (lines s)))%Z.
Proof.
  intro H. unfold main in H.
  assert (accounted summary0) as H0 by (unfold accounted; cbn; repeat split; lia).
  destruct (loop_accounted (readPupilData leftpupil_txt) (readPupilData rightpupil_txt)
              alpha
              (indices_of (readPupilData leftpupil_txt) (readPupilData rightpupil_txt))
              summary0 H0) as [Hacc Hmap].
  assert (s = fold_left
                (test_index sqrt students_t_cdf mapping_file (readPupilData leftpupil_txt)
                            (readPupilData rightpupil_txt) alpha)
                (indices_of (readPupilData leftpupil_txt) (readPupilData rightpupil_txt))
                summary0) as ->.
  { destruct (readPupilData leftpupil_txt); [discriminate|].
    destruct (readPupilData rightpupil_txt); [discriminate|]. congruence. }
  clear H. split; [exact Hmap|]. split; [exact Hacc|].
  destruct Hacc as (H1 & H2 & H3 & H4 & H5 & H6 & H7).
  set (ls := lines _) in *.
  pose proof (tally_nonneg (fun l => passed (left_of l)) ls) as N1.
  pose proof (tally_nonneg (fun l => passed (right_of l)) ls) as N2.
  pose proof (tally_le (fun l => passed (left_of l)) (fun l => tested (left_of l)) ls) as P1.
  pose proof (tally_le (fun l => passed (right_of l)) (fun l => tested (right_of l)) ls)
    as P2.
  pose proof (tally_le (fun l => (tested (left_of l) + is_missing l)%Z) (fun _ => 1%Z) ls)
    as T1.
  pose proof (tally_le (fun l => (tested (right_of l) + is_missing l)%Z) (fun _ => 1%Z) ls)
    as T2.
  rewrite tally_ones in T1, T2.
  rewrite tally_add in T1, T2.
  assert (forall v, (0 <= passed v <= tested v)%Z) as Hv by (destruct v; cbn; lia).
  assert (forall l, (tested (left_of l) + is_missing l <= 1)%Z) as Hl
      by (destruct l as [|? [] ?]; cbn; lia).
  assert (forall l, (tested (right_of l) + is_missing l <= 1)%Z) as Hr
      by (destruct l as [|? ? []]; cbn; lia).
  specialize (N1 (fun l => proj1 (Hv (left_of l)))).
  specialize (N2 (fun l => proj1 (Hv (right_of l)))).
  specialize (P1 (fun l => proj2 (Hv (left_of l)))).
  specialize (P2 (fun l => proj2 (Hv (right_of l)))).
  specialize (T1 Hl). specialize (T2 Hr).
  repeat split; lia.
Qed.

(** At a non-negative argument the distribution function of Student's t
    with at least one degree of freedom lies between 1/2 and 1. *)
Hypothesis cdf_upper_half :
  forall df x, (1 <= df)%Z -> 0 <= x -> (1 # 2) <= students_t_cdf df x <= 1.

Lemma computeTTest_sentinel_or_probability
      (mean1 std1 : Q) (n1 : Z) (mean2 std2 : Q) (n2 : Z) :
  computeTTest sqrt students_t_cdf mean1 std1 n1 mean2 std2 n2 == -1
  \/ 0 <= computeTTest sqrt students_t_cdf mean1 std1 n1 mean2 std2 n2 <= 1.
Proof.
  unfold computeTTest.
  destruct (n1 <? 2)%Z eqn:E1; [left; reflexivity|].
  destruct (n2 <? 2)%Z eqn:E2; [left; reflexivity|]. cbn [orb].
  destruct (Qeq_bool (pooled std1 n1 std2 n2) 0); [left; reflexivity|].
  apply Z.ltb_ge in E1, E2. right.
  pose proof (cdf_upper_half (Z.min n1 n2 - 1)
                (Qabs ((mean1 - mean2) / sqrt (pooled std1 n1 std2 n2)))
                ltac:(lia) (Qabs_nonneg _)) as [Hlo Hhi].
  lra.
Qed.

Lemma verdict_of_sound (p alpha : Q) :
  p == -1 \/ 0 <= p <= 1 -> verdict_sound alpha (verdict_of p alpha).
Proof.
  intro H. unfold verdict_of.
  destruct (Qeq_bool p (-1)) eqn:E; [exact I|].
  apply Qeq_bool_neq in E. destruct H as [H|H]; [contradiction|].
  destruct (Qlt_bool p alpha) eqn:L; cbn [verdict_sound].
  - apply Qlt_bool_iff in L. split; assumption.
  - apply Qlt_bool_false_iff in L. split; assumption.
Qed.

Lemma loop_sound (L R : pupil_map) (alpha : Q) (indices : list string) :
  forall s,
    Forall (fun l => verdict_sound alpha (left_of l) /\ verdict_sound alpha (right_of l))
           (lines s) ->
    Forall (fun l => verdict_sound alpha (left_of l) /\ verdict_sound alpha (right_of l))
           (lines (fold_left (test_index sqrt students_t_cdf mapping_file L R alpha)
                             indices s)).
Proof.
  induction indices as [|i rest IH]; intros s Hs; cbn [fold_left]; [exact Hs|].
  apply IH. unfold test_index.
  destruct (readLuminanceMapping (mapping_file i)) as [lm rm].
  assert (Forall (fun l => verdict_sound alpha (left_of l)
                           /\ verdict_sound alpha (right_of l))
                 (lines s ++ [Missing i])) as HM.
  { apply Forall_app. split; [exact Hs|]. constructor; [|constructor]. split; exact I. }
  destruct lm as [|e lm]; [exact HM|]. destruct rm as [|e' rm]; [exact HM|].
  destruct (find_index L i) as [la|]; [|exact HM].
  destruct (find_index R i) as [ra|]; [|exact HM].
  cbn [lines]. apply Forall_app. split; [exact Hs|]. constructor; [|constructor].
  cbn [left_of right_of].
  split; apply verdict_of_sound, computeTTest_sentinel_or_probability.
Qed.

(** Every verdict of the table is backed by its p-value: a p-value that is
    printed lies in [0, 1]; the sentinel -1 is printed as N/A and never
    compared with the level, a rejection has p < alpha and a failure
    alpha <= p.  So no subject passes at a level of 0 or less, and every
    subject with a p-value passes at a level above 1. *)
Theorem main_verdicts_sound (leftpupil_txt rightpupil_txt : option (list pupil_line))
        (alpha : Q) (s : summary) :
  main sqrt students_t_cdf mapping_file leftpupil_txt rightpupil_txt alpha = Exit0 s ->
  Forall (fun l => verdict_sound alpha (left_of l) /\ verdict_sound alpha (right_of l))
         (lines s)
  /\ (alpha <= 0 -> leftPass s = 0%Z /\ rightPass s = 0%Z)
  /\ (1 < alpha -> leftPass s = totalLeft s /\ rightPass s = totalRight s).
Proof.
  intro H. unfold main in H.
  assert (accounted summary0) as H0 by (unfold accounted; cbn; repeat split; lia).
  destruct (loop_accounted (readPupilData leftpupil_txt) (readPupilData rightpupil_txt)
              alpha
              (indices_of (readPupilData leftpupil_txt) (readPupilData rightpupil_txt))
              summary0 H0) as [Hacc _].
  pose proof (loop_sound (readPupilData leftpupil_txt) (readPupilData rightpupil_txt)
                alpha
                (indices_of (readPupilData leftpupil_txt) (readPupilData rightpupil_txt))
                summary0 (Forall_nil _)) as Hs.
  assert (s = fold_left
                (test_index sqrt students_t_cdf mapping_file (readPupilData leftpupil_txt)
                            (readPupilData rightpupil_txt) alpha)
                (indices_of (readPupilData leftpupil_txt) (readPupilData rightpupil_txt))
                summary0) as ->.
  { destruct (readPupilData leftpupil_txt); [discriminate|].
    destruct (readPupilData rightpupil_txt); [discriminate|]. congruence. }
  clear H. split; [exact Hs|].
  destruct Hacc as (H1 & H2 & H3 & H4 & _).
  set (ls := lines _) in *. rewrite H1, H2, H3, H4. clearbody ls. clear H1 H2 H3 H4.
  split; intro Ha.
  - assert (forall v, verdict_sound alpha v -> passed v = 0%Z) as Hv.
    { intros [|p|p] Hp; cbn in *; try reflexivity. exfalso. lra. }
    unfold tally. induction Hs as [|l r [Hl Hr] _ IH]; cbn [fold_right]; [split; reflexivity|].
    rewrite (Hv _ Hl), (Hv _ Hr). destruct IH as [-> ->]. split; reflexivity.
  - assert (forall v, verdict_sound alpha v -> passed v = tested v) as Hv.
    { intros [|p|p] Hp; cbn in *; try reflexivity. exfalso. lra. }
    unfold tally. induction Hs as [|l r [Hl Hr] _ IH]; cbn [fold_right]; [split; reflexivity|].
    rewrite (Hv _ Hl), (Hv _ Hr). destruct IH as [-> ->]. split; reflexivity.
Qed.

End Table.

Lemma ltb_irrefl (x : string) : String.ltb x x = false.
Proof.
  unfold String.ltb. destruct (String.compare x x) eqn:E; try reflexivity.
  pose proof (String.compare_antisym x x) as A. rewrite E in A. discriminate.
Qed.

Lemma ltb_total (x y : string) : String.ltb x y = false -> String.ltb y x = false -> x = y.
Proof.
  unfold String.ltb. intros H1 H2.
  destruct (String.compare x y) eqn:E; [apply String.compare_eq_iff, E|discriminate|].
  rewrite String.compare_antisym, E in H2. discriminate.
Qed.

Lemma ltb_trans (x y z : string) :
  String.ltb x y = true -> String.ltb y z = true -> String.ltb x z = true.
Proof.
  unfold String.ltb. intros H1 H2.
  destruct (String.compare x y) eqn:E1; try discriminate.
  destruct (String.compare y z) eqn:E2; try discriminate.
  apply OrderedTypeEx.String_as_OT.cmp_lt in E1, E2.
  pose proof (OrderedTypeEx.String_as_OT.lt_trans _ _ _ E1 E2) as T.
  apply OrderedTypeEx.String_as_OT.cmp_lt in T.
  change (OrderedTypeEx.String_as_OT.cmp x z) with (String.compare x z) in T.
  rewrite T. reflexivity.
Qed.

Lemma find_assign_index (m : pupil_map) (key : string) (value : PupilData) (k' : string) :
  find_index (assign_index m key value) k'
  = if String.eqb k' key then Some value else find_index m k'.
Proof.
  induction m as [|[k v] rest IH]; cbn [assign_index find_index]; [reflexivity|].
  destruct (String.ltb key k) eqn:E1; cbn [find_index]; [reflexivity|].
  destruct (String.ltb k key) eqn:E2; cbn [find_index].
  - rewrite IH. destruct (String.eqb k' k) eqn:Ek; [|reflexivity].
    destruct (String.eqb k' key) eqn:Ekey; [|reflexivity].
    apply String.eqb_eq in Ek, Ekey. subst. rewrite ltb_irrefl in E2. discriminate.
  - pose proof (ltb_total key k E1 E2) as ->.
    destruct (String.eqb k' k); reflexivity.
Qed.

Lemma find_over_app {A : Type} (p : A -> bool) (l r : list A) :
  find p (l ++ r) = match find p l with Some x => Some x | None => find p r end.
Proof.
  induction l as [|x l IH]; cbn [app find]; [reflexivity|].
  destruct (p x); [reflexivity|exact IH].
Qed.

Lemma find_fold_assign (file : list pupil_line) (index : string) :
  forall m,
    find_index
      (fold_left
         (fun data l =>
            assign_index data (f_index l)
              (mkPupilData (f_lumAfter l) (f_pupilAfter l)
                           (to_int (f_afterCount l)) (f_afterStdDev l)))
         file m) index
    = match last_line file index with
      | Some l => Some (mkPupilData (f_lumAfter l) (f_pupilAfter l)
                                    (to_int (f_afterCount l)) (f_afterStdDev l))
      | None => find_index m index
      end.
Proof.
  unfold last_line.
  induction file as [|l rest IH]; intro m; cbn [fold_left rev find]; [reflexivity|].
  rewrite IH, find_over_app, find_assign_index.
  destruct (find (fun l0 => String.eqb index (f_index l0)) (rev rest)); [reflexivity|].
  cbn [find]. destruct (String.eqb index (f_index l)); reflexivity.
Qed.

(** With every count in the range of [int], the loop on the rounds returns
    the map built from the records in front of the first failing round. *)
Lemma read_rounds_extracted (rounds : list (option pupil_line)) :
  forall data,
    Forall (fun l => cast_to_int (f_afterCount l) <> None) (extracted rounds) ->
    read_rounds rounds data
    = Ret (fold_left
             (fun data l =>
                assign_index data (f_index l)
                  (mkPupilData (f_lumAfter l) (f_pupilAfter l)
                               (to_int (f_afterCount l)) (f_afterStdDev l)))
             (extracted rounds) data).
Proof.
  induction rounds as [|[l|] rest IH]; intros data H;
    cbn [read_rounds extracted fold_left] in *; [reflexivity| |reflexivity].
  inversion H as [|? ? Hl Hrest]; subst.
  unfold cast_to_int in *.
  destruct ((- 2 ^ 31 <=? to_int (f_afterCount l))%Z
            && (to_int (f_afterCount l) <=? 2 ^ 31 - 1)%Z);
    [apply IH, Hrest|exfalso; apply Hl; reflexivity].
Qed.

Lemma last_line_In (file : list pupil_line) (index : string) (l : pupil_line) :
  last_line file index = Some l -> In l file /\ f_index l = index.
Proof.
  unfold last_line. intro H. apply find_some in H. destruct H as [Hin Heq].
  apply in_rev in Hin. apply String.eqb_eq in Heq. auto.
Qed.

(** [to_int] truncates towards zero. *)
Lemma to_int_truncates (x : Q) :
  (0 <= x -> inject_Z (to_int x) <= x < inject_Z (to_int x) + 1)
  /\ (x <= 0 -> inject_Z (to_int x) - 1 < x <= inject_Z (to_int x)).
Proof.
  pose proof (Qfloor_le x) as F1. pose proof (Qlt_floor x) as F2.
  pose proof (Qle_ceiling x) as C1. pose proof (Qceiling_lt x) as C2.
  rewrite inject_Z_plus in F2. unfold Z.sub in C2. rewrite inject_Z_plus in C2.
  change (inject_Z 1) with 1 in F2. change (inject_Z (- (1))) with (- (1)) in C2.
  unfold to_int. destruct (Qle_bool 0 x) eqn:E.
  - apply Qle_bool_iff in E. split; intro H; [split; assumption|].
    assert (Qfloor x = 0%Z) as Hz.
    { assert (inject_Z (-1) < inject_Z (Qfloor x)) as A
          by (change (inject_Z (-1)) with (- (1)); lra).
      assert (inject_Z (Qfloor x) <= inject_Z 0) as B
          by (change (inject_Z 0) with 0; lra).
      rewrite <- Zlt_Qlt in A. rewrite <- Zle_Qle in B. lia. }
    rewrite Hz in *. change (inject_Z 0) with 0 in *. split; lra.
  - apply Qle_bool_false_iff in E. split; intro H; [lra|]. split; lra.
Qed.

(** readPupilData reads the records in front of the first round of
    extractions that fails and, when the count after the event of each of
    them has its truncation in the range of [int], returns a map that
    keeps for each index the values after the event of the last of those
    records with that index (luminance, pupil mean, the count truncated
    towards zero, standard deviation) and nothing for an index without
    such a record; records behind the failing round are not read, and a
    file that cannot be opened gives the empty map. *)
Theorem readPupilData_last (rounds : list (option pupil_line)) (index : string) :
  Forall (fun l => exists c, cast_to_int (f_afterCount l) = Some c) (extracted rounds) ->
  (exists data,
      readPupilData_rounds (Some rounds) = Ret data
      /\ data = readPupilData (Some (extracted rounds))
      /\ match last_line (extracted rounds) index with
         | Some l =>
             exists c,
               In l (extracted rounds) /\ f_index l = index
               /\ (- 2 ^ 31 <= c <= 2 ^ 31 - 1)%Z
               /\ (0 <= f_afterCount l -> inject_Z c <= f_afterCount l < inject_Z c + 1)
               /\ (f_afterCount l <= 0 -> inject_Z c - 1 < f_afterCount l <= inject_Z c)
               /\ find_index data index
                  = Some (mkPupilData (f_lumAfter l) (f_pupilAfter l) c (f_afterStdDev l))
         | None =>
             (forall l, In l (extracted rounds) -> f_index l <> index)
             /\ find_index data index = None
         end)
  /\ (forall front behind, extracted (front ++ None :: behind) = extracted front)
  /\ (forall records, extracted (map Some records) = records)
  /\ readPupilData_rounds None = Ret []
  /\ readPupilData None = [].
Proof.
  intro H.
  assert (Forall (fun l => cast_to_int (f_afterCount l) <> None) (extracted rounds)) as H'.
  { eapply Forall_impl; [|exact H]. intros l [c Hc]. congruence. }
  split; [|split; [|split; [|split]]]; try reflexivity.
  - exists (readPupilData (Some (extracted rounds))).
    split; [apply read_rounds_extracted, H'|]. split; [reflexivity|].
    unfold readPupilData. rewrite find_fold_assign.
    destruct (last_line (extracted rounds) index) as [l|] eqn:El.
    + destruct (last_line_In _ _ _ El) as [Hin Hidx].
      exists (to_int (f_afterCount l)).
      split; [exact Hin|]. split; [exact Hidx|].
      rewrite Forall_forall in H. destruct (H l Hin) as [c Hc].
      unfold cast_to_int in Hc.
      destruct ((- 2 ^ 31 <=? to_int (f_afterCount l))%Z
                && (to_int (f_afterCount l) <=? 2 ^ 31 - 1)%Z) eqn:Eb; [|discriminate].
      apply andb_true_iff in Eb. destruct Eb as [E1 E2].
      apply Z.leb_le in E1, E2.
      destruct (to_int_truncates (f_afterCount l)) as [T1 T2].
      split; [split; assumption|]. split; [exact T1|]. split; [exact T2|reflexivity].
    + split; [|reflexivity]. intros l Hin Hidx.
      unfold last_line in El.
      assert (In l (rev (extracted rounds))) as Hrev by (apply -> in_rev; exact Hin).
      pose proof (find_none _ _ El l Hrev) as Hne. cbv beta in Hne.
      rewrite <- Hidx, String.eqb_refl in Hne. discriminate.
  - intros front behind. induction front as [|[l|] front IH]; cbn [app extracted];
      [reflexivity|rewrite IH; reflexivity|reflexivity].
  - intro records. induction records as [|l rest IH]; cbn [map extracted];
      [reflexivity|rewrite IH; reflexivity].
Qed.

(** Two records for subject 10001, a round that fails, a record behind
    it: the second record is kept, its count 5.9 as 5. *)
Lemma readPupilData_last_witness :
  find_index
    (readPupilData
       (Some (extracted
                [Some (mkPupilLine "10001" 10 4 5 0.1 12 4.2 4 0.2);
                 Some (mkPupilLine "10001" 11 4.1 6 0.1 13 4.4 5.9 0.3);
                 None;
                 Some (mkPupilLine "10001" 1 1 1 1 1 1 1 1)])))
    "10001"
  = Some (mkPupilData 13 4.4 5 0.3).
Proof.
  destruct (readPupilData_last
              [Some (mkPupilLine "10001" 10 4 5 0.1 12 4.2 4 0.2);
               Some (mkPupilLine "10001" 11 4.1 6 0.1 13 4.4 5.9 0.3);
               None;
               Some (mkPupilLine "10001" 1 1 1 1 1 1 1 1)] "10001")
    as [(data & _ & Hd & Hl) _].
  - repeat constructor; eexists; vm_compute; reflexivity.
  - rewrite <- Hd. cbn in Hl.
    destruct Hl as (c & _ & _ & _ & Hc & _ & Hf). rewrite Hf.
    assert (c = 5%Z) as ->; [|reflexivity].
    assert (0 <= 5.9) as Hpos by (unfold Qle; cbn; lia).
    destruct (Hc Hpos) as [A B].
    assert (inject_Z c < inject_Z 6) as A'.
    { eapply Qle_lt_trans; [exact A|]. unfold Qlt. cbn. lia. }
    assert (inject_Z 4 < inject_Z c) as B'.
    { apply Qplus_lt_l with (z := 1). eapply Qlt_trans; [|exact B].
      unfold Qlt. cbn. lia. }
    rewrite <- Zlt_Qlt in A', B'. lia.
Defined.

(** A count beyond the range of [int] leaves the conversion, and the run,
    undefined. *)
Example readPupilData_count_out_of_range :
  readPupilData_rounds (Some [Some (mkPupilLine "10001" 10 4 5 0.1 12 4.2 3000000000 0.2)])
  = Undefined.
Proof. reflexivity. Qed.

Lemma insert_index_In (s : list string) (x y : string) :
  In y (insert_index s x) <-> y = x \/ In y s.
Proof.
  induction s as [|z rest IH]; cbn [insert_index In]; [intuition congruence|].
  destruct (String.ltb x z) eqn:E1; cbn [In]; [intuition congruence|].
  destruct (String.ltb z x) eqn:E2; cbn [In].
  - rewrite IH. intuition congruence.
  - pose proof (ltb_total x z E1 E2) as ->. intuition congruence.
Qed.

Lemma increasing_tail (x : string) (s : list string) : increasing (x :: s) -> increasing s.
Proof.
  destruct s as [|y r]; cbn; tauto.
Qed.

Lemma increasing_head (s : list string) :
  forall x, increasing (x :: s) -> forall y, In y s -> String.ltb x y = true.
Proof.
  induction s as [|z r IH]; intros x H y Hy; [contradiction|].
  destruct H as [Hxz Hr]. destruct Hy as [<-|Hy]; [exact Hxz|].
  eapply ltb_trans; [exact Hxz|]. apply (IH z Hr y Hy).
Qed.

Lemma increasing_cons (x : string) (s : list string) :
  increasing s -> (forall y, In y s -> String.ltb x y = true) -> increasing (x :: s).
Proof.
  intros Hs Hx. destruct s as [|y r]; [exact I|]. split; [|exact Hs].
  apply Hx. left. reflexivity.
Qed.

Lemma insert_index_increasing (s : list string) (x : string) :
  increasing s -> increasing (insert_index s x).
Proof.
  induction s as [|z rest IH]; intro Hs; cbn [insert_index]; [exact I|].
  destruct (String.ltb x z) eqn:E1; [split; assumption|].
  destruct (String.ltb z x) eqn:E2; [|exact Hs].
  apply increasing_cons; [apply IH; eapply increasing_tail; exact Hs|].
  intros y Hy. apply insert_index_In in Hy. destruct Hy as [->|Hy]; [exact E2|].
  eapply increasing_head; eauto.
Qed.

Lemma increasing_NoDup (s : list string) : increasing s -> NoDup s.
Proof.
  induction s as [|x r IH]; intro H; constructor.
  - intro Hin. pose proof (increasing_head r x H x Hin) as L.
    rewrite ltb_irrefl in L. discriminate.
  - apply IH. eapply increasing_tail; exact H.
Qed.

(** The indices the table is printed for are those of the lines of either
    file, each once and in increasing order. *)
Theorem indices_of_union (L R : pupil_map) :
  increasing (indices_of L R)
  /\ NoDup (indices_of L R)
  /\ forall x, In x (indices_of L R) <-> In x (map fst L) \/ In x (map fst R).
Proof.
  assert (forall keys s,
             increasing s ->
             increasing (fold_left insert_index keys s)
             /\ forall x, In x (fold_left insert_index keys s) <-> In x s \/ In x keys) as H.
  { induction keys as [|k rest IH]; intros s Hs; cbn [fold_left].
    - split; [exact Hs|]. intro x. cbn [In]. tauto.
    - destruct (IH (insert_index s k) (insert_index_increasing s k Hs)) as [H1 H2].
      split; [exact H1|]. intro x. rewrite H2, insert_index_In. cbn [In].
      intuition congruence. }
  unfold indices_of.
  destruct (H (map fst L) [] I) as [H1 H2].
  destruct (H (map fst R) _ H1) as [H3 H4].
  split; [exact H3|]. split; [apply increasing_NoDup, H3|].
  intro x. rewrite H4, H2. cbn [In]. tauto.
Qed.

End MainProperties.

Lemma main_accounting_witness :
  exists s,
    TTestAfterMain.main sqrt_heron cdf_example TTestExamples.mapping_files
      (Some TTestExamples.left_file) (Some TTestExamples.right_file) 0.05
    = TTestAfterMain.Exit0 s
    /\ TTestAfterMain.accounted s.
Proof.
  destruct (TTestAfterMain.main sqrt_heron cdf_example TTestExamples.mapping_files
              (Some TTestExamples.left_file) (Some TTestExamples.right_file) 0.05)
    as [|s] eqn:E; [vm_compute in E; discriminate|].
  exists s. split; [reflexivity|].
  apply (MainProperties.main_accounting sqrt_heron cdf_example TTestExamples.mapping_files
           _ _ _ s E).
Defined.

Lemma main_verdicts_sound_witness :
  exists s,
    TTestAfterMain.main sqrt_heron cdf_example TTestExamples.mapping_files
      (Some TTestExamples.left_file) (Some TTestExamples.right_file) 0.05
    = TTestAfterMain.Exit0 s
    /\ Forall (fun l => TTestAfterMain.verdict_sound 0.05 (TTestAfterMain.left_of l)
                        /\ TTestAfterMain.verdict_sound 0.05 (TTestAfterMain.right_of l))
              (TTestAfterMain.lines s).
Proof.
  destruct (TTestAfterMain.main sqrt_heron cdf_example TTestExamples.mapping_files
              (Some TTestExamples.left_file) (Some TTestExamples.right_file) 0.05)
    as [|s] eqn:E; [vm_compute in E; discriminate|].
  exists s. split; [reflexivity|].
  apply (MainProperties.main_verdicts_sound sqrt_heron cdf_example
           TTestExamples.mapping_files cdf_example_range _ _ _ s E).
Defined.

(** ** The count and deviation slots *)

Lemma Qlen_two (V : list Q) : (2 <= length V)%nat -> 2 <= Qlen V.
Proof.
  intro H. unfold Qlen. change 2 with (inject_Z 2). rewrite <- Zle_Qle. lia.
Qed.

Lemma variance_about_mean (V : list Q) (mean : Q) :
  V <> [] -> mean == Qsum V / Qlen V -> variance_about V mean == bessel_variance V.
Proof.
  intros Hne Hm. rewrite variance_about_eq, sum_sq_dev. unfold bessel_variance.
  assert (0 < Qlen V) as Hn.
  { destruct V as [|x l]; [congruence|]. rewrite Qlen_cons. pose proof (Qlen_nonneg l). lra. }
  rewrite Hm. apply Qdiv_comp; [|reflexivity]. field. lra.
Qed.

Lemma deviation_slot_of (sqrt : Q -> Q) (w : window) (S : list sample)
      (q : quantity) (V : list Q) :
  holds w S ->
  V = valid_values q S ->
  deviation_slot sqrt V (samples_count S) (calculateStdDev sqrt V (reported q w)).
Proof.
  intros (Ht & _ & _ & Hq) ->. destruct (Hq q) as [Hs Hc].
  set (V := valid_values q S) in *. unfold deviation_slot, calculateStdDev.
  split; [|split].
  - intro H. apply Nat.ltb_lt in H. rewrite H. reflexivity.
  - intros H Hv. destruct (length V <? 2)%nat eqn:E; [apply Nat.ltb_lt in E; lia|].
    assert (2 <= Qlen V) as H2 by (apply (Qlen_two V H)).
    unfold reported, window_average.
    assert (Qle_bool (totalcount w * 0.5) (count_of q w) = true) as ->.
    { apply Qle_bool_iff. rewrite Ht, Hc. lra. }
    unfold ddiv.
    assert (Qeq_bool (count_of q w) 0 = false) as ->.
    { destruct (Qeq_bool (count_of q w) 0) eqn:E0; [|reflexivity].
      apply Qeq_bool_iff in E0. rewrite Hc in E0. lra. }
    eexists. split; [reflexivity|].
    apply variance_about_mean; [intro N; rewrite N in H; cbn in H; lia|].
    rewrite Hs, Hc. reflexivity.
  - intros H Hv. destruct (length V <? 2)%nat eqn:E; [apply Nat.ltb_lt in E; lia|].
    unfold reported, window_average.
    assert (Qle_bool (totalcount w * 0.5) (count_of q w) = false) as ->.
    { apply Qle_bool_false_iff. rewrite Ht, Hc. lra. }
    reflexivity.
Qed.

(** In the vector either variant returns, slots 2, 5, 9 and 12 are the
    numbers of valid values of the eye in the window, and slots 3, 6 and
    10 are the deviations of the left eye before, the right eye before
    and the left eye after: -1 below two valid values, the root of
    Bessel's variance of the valid values when the mean of the eye in the
    window is valid, and the root of their deviation about -1 when it is
    not. *)
Theorem count_and_deviation_slots (stod : string -> option Q) (sqrt : Q -> Q)
        (data : table) (tc lc rc : Z) (bt aft : Q) (datalist : list double) :
  either_variant_returns stod sqrt data tc lc rc bt aft datalist ->
  length datalist = 14%nat
  /\ nth 2 datalist NaN
     = Fin (Qlen (valid_values LeftPupil
                    (window_samples (bt - 5.0) bt (parsed_rows stod (tl data) tc lc rc))))
  /\ nth 5 datalist NaN
     = Fin (Qlen (valid_values RightPupil
                    (window_samples (bt - 5.0) bt (parsed_rows stod (tl data) tc lc rc))))
  /\ nth 9 datalist NaN
     = Fin (Qlen (valid_values LeftPupil
                    (window_samples aft (aft + 5.0) (parsed_rows stod (tl data) tc lc rc))))
  /\ nth 12 datalist NaN
     = Fin (Qlen (valid_values RightPupil
                    (window_samples aft (aft + 5.0) (parsed_rows stod (tl data) tc lc rc))))
  /\ deviation_slot sqrt
       (valid_values LeftPupil
          (window_samples (bt - 5.0) bt (parsed_rows stod (tl data) tc lc rc)))
       (samples_count (window_samples (bt - 5.0) bt (parsed_rows stod (tl data) tc lc rc)))
       (nth 3 datalist NaN)
  /\ deviation_slot sqrt
       (valid_values RightPupil
          (window_samples (bt - 5.0) bt (parsed_rows stod (tl data) tc lc rc)))
       (samples_count (window_samples (bt - 5.0) bt (parsed_rows stod (tl data) tc lc rc)))
       (nth 6 datalist NaN)
  /\ deviation_slot sqrt
       (valid_values LeftPupil
          (window_samples aft (aft + 5.0) (parsed_rows stod (tl data) tc lc rc)))
       (samples_count (window_samples aft (aft + 5.0)
                         (parsed_rows stod (tl data) tc lc rc)))
       (nth 10 datalist NaN).
Proof.
  intro H. apply either_variant_extract in H.
  destruct (extract_spec stod sqrt data tc lc rc bt aft datalist H)
    as (before & after & -> & Hb & Ha).
  pose proof Hb as (_ & Hlb & Hrb & _). pose proof Ha as (_ & Hla & Hra & _).
  split; [reflexivity|].
  cbn [datalist_of nth]. unfold size_of. rewrite Hlb, Hrb, Hla, Hra.
  repeat (split; [reflexivity|]).
  split; [|split].
  - apply (deviation_slot_of sqrt before _ LeftPupil); [exact Hb|reflexivity].
  - apply (deviation_slot_of sqrt before _ RightPupil); [exact Hb|reflexivity].
  - apply (deviation_slot_of sqrt after _ LeftPupil); [exact Ha|reflexivity].
Qed.

Lemma count_and_deviation_slots_witness :
  exists datalist,
    Noshookpupil.calculatePupilAverages stod_decimal sqrt_heron recording 0 2 3 3
    = Ret datalist
    /\ length datalist = 14%nat.
Proof.
  destruct (Noshookpupil.calculatePupilAverages stod_decimal sqrt_heron recording 0 2 3 3)
    as [d| |] eqn:E; [|vm_compute in E; discriminate|vm_compute in E; discriminate].
  exists d. split; [reflexivity|].
  apply (count_and_deviation_slots stod_decimal sqrt_heron recording 0 2 3 5 (5 + 0.229) d).
  left. exists 3%Z. split; [discriminate|]. split; [vm_compute; reflexivity|].
  split; [reflexivity|exact E].
Defined.

(** ** The closest row of luminanceexpected.cpp *)

Module ExpectedProperties.

Import LuminanceExpected.

(** The loop of findClosestMapping: either no row was closer than the
    distance it started from, or it ends on the first row at the least
    distance. *)
Lemma fold_closer_spec (lum : Q) (rows : list MappingRow) :
  forall best d,
    (fold_left (closer lum) rows (best, d) = (best, d)
     /\ Forall (fun x => d <= Qabs (luminance x - lum)) rows)
    \/ (exists pre post,
          rows = pre ++ fst (fold_left (closer lum) rows (best, d)) :: post
          /\ snd (fold_left (closer lum) rows (best, d))
             = Qabs (luminance (fst (fold_left (closer lum) rows (best, d))) - lum)
          /\ snd (fold_left (closer lum) rows (best, d)) < d
          /\ Forall (fun x => snd (fold_left (closer lum) rows (best, d))
                              < Qabs (luminance x - lum)) pre
          /\ Forall (fun x => snd (fold_left (closer lum) rows (best, d))
                              <= Qabs (luminance x - lum)) post).
Proof.
  induction rows as [|x l IH]; intros best d.
  - left. split; [reflexivity|constructor].
  - cbn [fold_left].
    assert (closer lum (best, d) x
            = if Qlt_bool (Qabs (luminance x - lum)) d
              then (x, Qabs (luminance x - lum)) else (best, d)) as -> by reflexivity.
    destruct (Qlt_bool (Qabs (luminance x - lum)) d) eqn:E.
    + apply Qlt_bool_iff in E. right.
      destruct (IH x (Qabs (luminance x - lum))) as [[Hr Hall]|(pre & post & Hl & Hs & Hlt & Hpre & Hpost)].
      * rewrite Hr. cbn [fst snd]. exists [], l. cbn [app].
        repeat split; try assumption; try reflexivity. constructor.
      * exists (x :: pre), post. cbn [app]. rewrite <- Hl.
        repeat split; try assumption.
        -- lra.
        -- constructor; [exact Hlt|exact Hpre].
    + apply Qlt_bool_false_iff in E.
      destruct (IH best d) as [[Hr Hall]|(pre & post & Hl & Hs & Hlt & Hpre & Hpost)].
      * left. split; [exact Hr|]. constructor; assumption.
      * right. exists (x :: pre), post. cbn [app]. rewrite <- Hl.
        repeat split; try assumption.
        constructor; [lra|exact Hpre].
Qed.

Lemma findClosestMapping_optimal (mapping : list MappingRow) (lum : Q) :
  (exists row, In row mapping /\ Qabs (luminance row - lum) < DBL_MAX) ->
  In (findClosestMapping mapping lum) mapping
  /\ forall x, In x mapping ->
       Qabs (luminance (findClosestMapping mapping lum) - lum) <= Qabs (luminance x - lum).
Proof.
  intros (row & Hin & Hrow). unfold findClosestMapping.
  destruct (fold_closer_spec lum mapping zero_row DBL_MAX)
    as [[_ Hall]|(pre & post & Hl & Hs & _ & Hpre & Hpost)].
  - rewrite Forall_forall in Hall. specialize (Hall row Hin). lra.
  - rewrite <- Hs. split.
    + rewrite Hl at 2. apply in_or_app. right. left. reflexivity.
    + intros x Hx. rewrite Hl in Hx. rewrite Forall_forall in Hpre, Hpost.
      apply in_app_or in Hx. destruct Hx as [Hx|[Hx|Hx]].
      * apply Qlt_le_weak, Hpre, Hx.
      * subst x. rewrite Hs. lra.
      * apply Hpost, Hx.
Qed.

(** When some row lies within the range of a double of the target,
    findClosestMapping returns a row of the mapping: the first one, in
    the order of the file, at the least distance from the target.  Every
    row in front of it is strictly farther, no row behind it is nearer. *)
Theorem findClosestMapping_first_minimum (mapping : list MappingRow) (lum : Q) :
  (exists row, In row mapping /\ Qabs (luminance row - lum) < DBL_MAX) ->
  exists pre post,
    mapping = pre ++ findClosestMapping mapping lum :: post
    /\ Forall (fun x => Qabs (luminance (findClosestMapping mapping lum) - lum)
                        < Qabs (luminance x - lum)) pre
    /\ Forall (fun x => Qabs (luminance (findClosestMapping mapping lum) - lum)
                        <= Qabs (luminance x - lum)) post.
Proof.
  intros (row & Hin & Hrow). unfold findClosestMapping.
  destruct (fold_closer_spec lum mapping zero_row DBL_MAX)
    as [[_ Hall]|(pre & post & Hl & Hs & _ & Hpre & Hpost)].
  - rewrite Forall_forall in Hall. specialize (Hall row Hin). lra.
  - exists pre, post. rewrite <- Hs. repeat split; assumption.
Qed.

(** *** The two lookups on the same calibration data *)

Import TTestAfter.

Lemma readLuminanceMapping_folds (lines : list mapping_line) :
  forall L R,
    fold_left
      (fun '(leftMapping, rightMapping) l =>
         (assign leftMapping (l_luminance l)
                 (mkPupilData (l_luminance l) (l_avgLeft l) (to_int (l_leftCount l))
                              (l_leftStd l)),
          assign rightMapping (l_luminance l)
                 (mkPupilData (l_luminance l) (l_avgRight l) (to_int (l_rightCount l))
                              (l_rightStd l))))
      lines (L, R)
    = (fold_left (fun m l => assign m (l_luminance l) (left_data l)) lines L,
       fold_left (fun m l => assign m (l_luminance l) (right_data l)) lines R).
Proof.
  induction lines as [|a l IH]; intros L R; [reflexivity|].
  cbn [fold_left]. rewrite IH. reflexivity.
Qed.

Lemma assign_In_fresh (m : mapping) (key : Q) (value : PupilData) :
  (forall k v, In (k, v) m -> ~ k == key) ->
  forall k v, In (k, v) (assign m key value) <-> (k, v) = (key, value) \/ In (k, v) m.
Proof.
  induction m as [|[k0 v0] r IH]; intros Hf k v; cbn [assign].
  - cbn [In]. split; intros [H|H]; auto; contradiction.
  - destruct (Qlt_bool key k0) eqn:E1.
    + cbn [In]. split; intros [H|H]; auto.
    + destruct (Qlt_bool k0 key) eqn:E2.
      * cbn [In]. rewrite IH; [tauto|].
        intros k' v' H'. apply (Hf k' v'). right. exact H'.
      * exfalso. apply (Hf k0 v0); [left; reflexivity|].
        apply Qlt_bool_false_iff in E1, E2. lra.
Qed.

Lemma fold_assign_In (f : mapping_line -> PupilData) (lines : list mapping_line) :
  forall m,
    distinct_luminances lines ->
    (forall k v, In (k, v) m -> forall b, In b lines -> ~ k == l_luminance b) ->
    forall k v,
      In (k, v) (fold_left (fun m l => assign m (l_luminance l) (f l)) lines m)
      <-> In (k, v) m \/ exists l, In l lines /\ k = l_luminance l /\ v = f l.
Proof.
  induction lines as [|a rest IH]; intros m Hd Hf k v; cbn [fold_left].
  - split; [auto|]. intros [H|(l & [] & _)]. exact H.
  - inversion Hd as [|a' rest' Ha Hrest]; subst.
    assert (forall k v, In (k, v) m -> ~ k == l_luminance a) as Hfa.
    { intros k' v' H'. apply (Hf k' v' H'). left. reflexivity. }
    rewrite (IH (assign m (l_luminance a) (f a))); [|exact Hrest|].
    + rewrite (assign_In_fresh m _ _ Hfa). split.
      * intros [[H|H]|(l & Hl & Hk & Hv)].
        -- right. exists a. inversion H; subst. repeat split. left. reflexivity.
        -- left. exact H.
        -- right. exists l. repeat split; try assumption. right. exact Hl.
      * intros [H|(l & [Hl|Hl] & Hk & Hv)].
        -- left. right. exact H.
        -- subst. left. left. reflexivity.
        -- right. exists l. repeat split; assumption.
    + intros k' v' H' b Hb. apply (assign_In_fresh m _ _ Hfa) in H'.
      destruct H' as [H'|H'].
      * inversion H'; subst. rewrite Forall_forall in Ha. apply Ha, Hb.
      * apply (Hf k' v' H'). right. exact Hb.
Qed.

Lemma readLuminanceMapping_In (lines : list mapping_line) :
  distinct_luminances lines ->
  (forall k v, In (k, v) (fst (readLuminanceMapping (Some lines)))
               <-> exists l, In l lines /\ k = l_luminance l /\ v = left_data l)
  /\ (forall k v, In (k, v) (snd (readLuminanceMapping (Some lines)))
                  <-> exists l, In l lines /\ k = l_luminance l /\ v = right_data l).
Proof.
  intro Hd. unfold readLuminanceMapping. rewrite readLuminanceMapping_folds. cbn [fst snd].
  split; intros k v.
  - rewrite (fold_assign_In left_data lines [] Hd); [|intros ? ? []].
    cbn [In]. tauto.
  - rewrite (fold_assign_In right_data lines [] Hd); [|intros ? ? []].
    cbn [In]. tauto.
Qed.

Lemma Forall2_In_l {A B : Type} (R : A -> B -> Prop) (l : list A) (l' : list B) :
  Forall2 R l l' -> forall x, In x l -> exists y, In y l' /\ R x y.
Proof.
  induction 1 as [|a b l l' Hab _ IH]; intros x Hx; [contradiction|].
  destruct Hx as [Hx|Hx].
  - subst. exists b. split; [left; reflexivity|exact Hab].
  - destruct (IH x Hx) as (y & Hy & Hr). exists y. split; [right; exact Hy|exact Hr].
Qed.

Lemma Forall2_In_r {A B : Type} (R : A -> B -> Prop) (l : list A) (l' : list B) :
  Forall2 R l l' -> forall y, In y l' -> exists x, In x l /\ R x y.
Proof.
  induction 1 as [|a b l l' Hab _ IH]; intros y Hy; [contradiction|].
  destruct Hy as [Hy|Hy].
  - subst. exists a. split; [left; reflexivity|exact Hab].
  - destruct (IH y Hy) as (x & Hx & Hr). exists x. split; [right; exact Hx|exact Hr].
Qed.

(** The row the ordered lookup returns corresponds to the line of the
    row the linear scan returns, when the target is on no midpoint. *)
Lemma same_line (f : mapping_line -> PupilData) (m : mapping)
      (rows : list MappingRow) (lines : list mapping_line) (t : Q) :
  Forall2 same_row rows lines ->
  distinct_luminances lines ->
  ordered m ->
  (forall k v, In (k, v) m <-> exists l, In l lines /\ k = l_luminance l /\ v = f l) ->
  (exists row, In row rows /\ Qabs (LuminanceExpected.luminance row - t) < DBL_MAX) ->
  (forall a b, In a lines -> In b lines -> l_luminance a < l_luminance b ->
               ~ l_luminance b - t == t - l_luminance a) ->
  exists l, In l lines /\ getClosestLuminanceMatch m t = f l
            /\ same_row (findClosestMapping rows t) l.
Proof.
  intros H2 Hd Ho Hm Hex Htie.
  destruct (findClosestMapping_optimal rows t Hex) as [Hin Hopt].
  destruct (Forall2_In_l _ _ _ H2 _ Hin) as (lr & Hlr & Hsame).
  assert (In (l_luminance lr, f lr) m) as Hmr.
  { apply Hm. exists lr. repeat split. exact Hlr. }
  assert (m <> []) as Hne by (intro E; rewrite E in Hmr; contradiction).
  destruct (LookupProperties.closest_optimal m t Ho Hne) as (k & v & Hkv & Hv & Hmin).
  apply Hm in Hkv. destruct Hkv as (l & Hl & Hk & Hvl). subst k v.
  destruct (Forall2_In_r _ _ _ H2 _ Hl) as (x & Hx & Hxl).
  pose proof (Hmin _ _ Hmr) as H1. pose proof (Hopt x Hx) as H3.
  pose proof Hsame as (Es & _). destruct Hxl as (Ex & _). rewrite Es in H3. rewrite Ex in H3.
  assert (l = lr) as ->.
  { destruct (ForallOrdPairs_In Hd l lr Hl Hlr) as [E|[N|N]]; [exact E| |]; exfalso; apply N.
    - destruct (Q_dec (l_luminance l) (l_luminance lr)) as [[Hlt|Hgt]|Heq]; [| |exact Heq];
        exfalso.
      + apply (Htie l lr Hl Hlr Hlt).
        LookupProperties.qabs (l_luminance l - t);
          LookupProperties.qabs (l_luminance lr - t); lra.
      + apply (Htie lr l Hlr Hl Hgt).
        LookupProperties.qabs (l_luminance l - t);
          LookupProperties.qabs (l_luminance lr - t); lra.
    - destruct (Q_dec (l_luminance l) (l_luminance lr)) as [[Hlt|Hgt]|Heq];
        [| |symmetry; exact Heq]; exfalso.
      + apply (Htie l lr Hl Hlr Hlt).
        LookupProperties.qabs (l_luminance l - t);
          LookupProperties.qabs (l_luminance lr - t); lra.
      + apply (Htie lr l Hlr Hl Hgt).
        LookupProperties.qabs (l_luminance l - t);
          LookupProperties.qabs (l_luminance lr - t); lra. }
  exists lr. split; [exact Hlr|]. split; [exact Hv|exact Hsame].
Qed.

(** On the same calibration data (the rows of luminanceexpected.cpp and
    the lines of t_test_after.cpp carry the same luminances and averages,
    no luminance twice), for a target that is on no midpoint of two
    luminances, findClosestMapping and getClosestLuminanceMatch return
    the same expected pupil size, for the left eye and for the right. *)
Theorem lookups_agree (rows : list MappingRow) (lines : list mapping_line) (t : Q) :
  Forall2 same_row rows lines ->
  distinct_luminances lines ->
  (exists row, In row rows /\ Qabs (LuminanceExpected.luminance row - t) < DBL_MAX) ->
  (forall a b, In a lines -> In b lines -> l_luminance a < l_luminance b ->
               ~ l_luminance b - t == t - l_luminance a) ->
  avgSize (getClosestLuminanceMatch (fst (readLuminanceMapping (Some lines))) t)
  = avgLeft (findClosestMapping rows t)
  /\ avgSize (getClosestLuminanceMatch (snd (readLuminanceMapping (Some lines))) t)
     = avgRight (findClosestMapping rows t).
Proof.
  intros H2 Hd Hex Htie.
  destruct (readLuminanceMapping_In lines Hd) as [HL HR].
  destruct (LookupProperties.readLuminanceMapping_ordered (Some lines)) as [OL OR].
  split.
  - destruct (same_line left_data _ rows lines t H2 Hd OL HL Hex Htie)
      as (l & _ & -> & _ & E & _).
    rewrite E. reflexivity.
  - destruct (same_line right_data _ rows lines t H2 Hd OR HR Hex Htie)
      as (l & _ & -> & _ & _ & E).
    rewrite E. reflexivity.
Qed.

(** *** A target on a midpoint *)

Lemma lines_increasing_tail (a : mapping_line) (l : list mapping_line) :
  lines_increasing (a :: l) -> lines_increasing l.
Proof.
  intros [_ H]. exact H.
Qed.

Lemma lines_increasing_head (l : list mapping_line) :
  forall a, lines_increasing (a :: l) ->
            forall b, In b l -> l_luminance a < l_luminance b.
Proof.
  induction l as [|c l IH]; intros a Hi b Hb; [contradiction|].
  destruct Hi as [Hac Hi]. destruct Hb as [Hb|Hb].
  - subst. exact Hac.
  - apply Qlt_trans with (l_luminance c); [exact Hac|]. apply IH; assumption.
Qed.

Lemma lines_increasing_app_r (pre l : list mapping_line) :
  lines_increasing (pre ++ l) -> lines_increasing l.
Proof.
  induction pre as [|a pre IH]; intro H; [exact H|].
  apply IH. eapply lines_increasing_tail. exact H.
Qed.

Lemma lines_increasing_app_lt (pre l : list mapping_line) (a : mapping_line) :
  lines_increasing (pre ++ a :: l) ->
  forall b, In b pre -> l_luminance b < l_luminance a.
Proof.
  induction pre as [|c pre IH]; intros H b Hb; [contradiction|].
  destruct Hb as [Hb|Hb].
  - subst. cbn [app] in H. eapply lines_increasing_head; [exact H|].
    apply in_or_app. right. left. reflexivity.
  - apply IH; [|exact Hb]. eapply lines_increasing_tail. exact H.
Qed.

Lemma assign_last (m : mapping) (key : Q) (value : PupilData) :
  (forall k v, In (k, v) m -> k < key) -> assign m key value = m ++ [(key, value)].
Proof.
  induction m as [|[k0 v0] r IH]; intro H; [reflexivity|].
  cbn [assign app].
  assert (k0 < key) as H0 by (apply (H k0 v0); left; reflexivity).
  assert (Qlt_bool key k0 = false) as -> by (apply Qlt_bool_false_iff; lra).
  assert (Qlt_bool k0 key = true) as -> by (apply Qlt_bool_iff; exact H0).
  rewrite IH; [reflexivity|]. intros k v Hin. apply (H k v). right. exact Hin.
Qed.

Lemma fold_assign_increasing (f : mapping_line -> PupilData) (lines : list mapping_line) :
  forall m,
    lines_increasing lines ->
    (forall k v, In (k, v) m -> forall b, In b lines -> k < l_luminance b) ->
    fold_left (fun m l => assign m (l_luminance l) (f l)) lines m
    = m ++ map (fun l => (l_luminance l, f l)) lines.
Proof.
  induction lines as [|a rest IH]; intros m Hi Hm; cbn [fold_left map].
  - rewrite app_nil_r. reflexivity.
  - rewrite assign_last; [|intros k v H; apply (Hm k v H); left; reflexivity].
    rewrite IH; [rewrite <- app_assoc; reflexivity|eapply lines_increasing_tail; exact Hi|].
    intros k v H b Hb. apply in_app_or in H. destruct H as [H|[H|[]]].
    + apply (Hm k v H). right. exact Hb.
    + inversion H; subst. eapply lines_increasing_head; [exact Hi|exact Hb].
Qed.

Lemma readLuminanceMapping_increasing (lines : list mapping_line) :
  lines_increasing lines ->
  readLuminanceMapping (Some lines)
  = (map (fun l => (l_luminance l, left_data l)) lines,
     map (fun l => (l_luminance l, right_data l)) lines).
Proof.
  intro Hi. unfold readLuminanceMapping. rewrite readLuminanceMapping_folds.
  rewrite !fold_assign_increasing; try assumption; try (intros ? ? []).
  reflexivity.
Qed.

(** The ordered lookup on a midpoint of two neighbouring keys. *)
Lemma tie_upper (pre suf : mapping) (L1 : Q) (r1 : PupilData) (L2 : Q) (r2 : PupilData)
      (t : Q) :
  ordered (pre ++ (L1, r1) :: (L2, r2) :: suf) ->
  L2 - t == t - L1 ->
  getClosestLuminanceMatch (pre ++ (L1, r1) :: (L2, r2) :: suf) t = r2.
Proof.
  intros Ho Hmid.
  pose proof (LookupProperties.ordered_app_r _ _ Ho) as Ho2.
  destruct Ho2 as [H12 _].
  assert (L1 < t) as H1 by lra.
  assert (t < L2) as H2 by lra.
  assert (walk (L1, r1) ((L2, r2) :: suf) t = r2) as Hw.
  { cbn [walk fst snd].
    assert (Qlt_bool L2 t = false) as -> by (apply Qlt_bool_false_iff; lra).
    assert (Qlt_bool (Qabs (L1 - t)) (Qabs (L2 - t)) = false) as ->; [|reflexivity].
    apply Qlt_bool_false_iff.
    LookupProperties.qabs (L1 - t); LookupProperties.qabs (L2 - t); lra. }
  rewrite LookupProperties.getClosest_lookup by (destruct pre; discriminate).
  destruct pre as [|[kp vp] pre].
  - cbn [app]. rewrite LookupProperties.lookup_cons_lt by (apply Qlt_bool_iff; exact H1).
    exact Hw.
  - cbn [app].
    assert (forall k v, In (k, v) ((kp, vp) :: pre) -> k < t) as Hpre.
    { intros k v Hin. pose proof (LookupProperties.ordered_app_lt _ _ _ _ Ho k v Hin). lra. }
    rewrite LookupProperties.lookup_cons_lt
      by (apply Qlt_bool_iff; eapply Hpre; left; reflexivity).
    rewrite LookupProperties.walk_skip; [exact Hw| |exact H1].
    intros k v Hin. eapply Hpre. right. exact Hin.
Qed.

Lemma fold_closer_bound (lum c : Q) (rows : list MappingRow) :
  forall best d,
    c < d -> Forall (fun x => c < Qabs (LuminanceExpected.luminance x - lum)) rows ->
    c < snd (fold_left (closer lum) rows (best, d)).
Proof.
  induction rows as [|x l IH]; intros best d Hd Hall; [exact Hd|].
  inversion Hall as [|x' l' Hx Hl]; subst. cbn [fold_left].
  assert (closer lum (best, d) x
          = if Qlt_bool (Qabs (LuminanceExpected.luminance x - lum)) d
            then (x, Qabs (LuminanceExpected.luminance x - lum)) else (best, d)) as ->
      by reflexivity.
  destruct (Qlt_bool (Qabs (LuminanceExpected.luminance x - lum)) d); apply IH; assumption.
Qed.

Lemma fold_closer_stable (lum : Q) (rows : list MappingRow) (best : MappingRow) (d : Q) :
  Forall (fun x => d <= Qabs (LuminanceExpected.luminance x - lum)) rows ->
  fold_left (closer lum) rows (best, d) = (best, d).
Proof.
  induction 1 as [|x l Hx _ IH]; [reflexivity|]. cbn [fold_left].
  assert (closer lum (best, d) x = (best, d)) as ->; [|exact IH].
  unfold closer.
  assert (Qlt_bool (Qabs (LuminanceExpected.luminance x - lum)) d = false) as ->
      by (apply Qlt_bool_false_iff; exact Hx).
  reflexivity.
Qed.

Lemma ordered_of_increasing (f : mapping_line -> PupilData) (lines : list mapping_line) :
  lines_increasing lines -> ordered (map (fun l => (l_luminance l, f l)) lines).
Proof.
  induction lines as [|a l IH]; intro H; [exact I|].
  destruct l as [|b l]; [exact I|].
  destruct H as [Hab H]. split; [exact Hab|]. apply IH. exact H.
Qed.

(** The linear scan on a midpoint of two neighbouring rows of a sorted
    file: the lower row. *)
Lemma tie_lower (rows : list MappingRow) (pre suf : list mapping_line)
      (a b : mapping_line) (t : Q) :
  Forall2 same_row rows (pre ++ a :: b :: suf) ->
  lines_increasing (pre ++ a :: b :: suf) ->
  l_luminance b - t == t - l_luminance a ->
  t - l_luminance a < DBL_MAX ->
  same_row (findClosestMapping rows t) a.
Proof.
  intros H2 Hi Hmid Hmax.
  apply Forall2_app_inv_r in H2. destruct H2 as (rpre & rrest & Hpre & Hrest & ->).
  inversion Hrest as [|ra a' rrest' l' Hra Hrest']; subst.
  inversion Hrest' as [|rb b' rsuf l'' Hrb Hsuf]; subst.
  pose proof (lines_increasing_app_r _ _ Hi) as Hi2.
  destruct Hi2 as [Hab Hi3].
  assert (l_luminance a < t) as Ha by lra.
  assert (t < l_luminance b) as Hb by lra.
  assert (Qabs (LuminanceExpected.luminance ra - t) == t - l_luminance a) as Ea.
  { destruct Hra as (-> & _). LookupProperties.qabs (l_luminance a - t); lra. }
  unfold findClosestMapping. rewrite fold_left_app. cbn [fold_left].
  destruct (fold_left (closer t) rpre (zero_row, DBL_MAX)) as [best1 d1] eqn:E1.
  assert (t - l_luminance a < d1) as Hd1.
  { change d1 with (snd (best1, d1)). rewrite <- E1. apply fold_closer_bound; [exact Hmax|].
    apply Forall_forall. intros x Hx.
    destruct (Forall2_In_l _ _ _ Hpre x Hx) as (l & Hl & (El & _)). rewrite El.
    pose proof (lines_increasing_app_lt _ _ _ Hi l Hl).
    LookupProperties.qabs (l_luminance l - t); lra. }
  assert (closer t (best1, d1) ra = (ra, Qabs (LuminanceExpected.luminance ra - t))) as ->.
  { unfold closer.
    assert (Qlt_bool (Qabs (LuminanceExpected.luminance ra - t)) d1 = true) as ->
        by (apply Qlt_bool_iff; lra).
    reflexivity. }
  assert (closer t (ra, Qabs (LuminanceExpected.luminance ra - t)) rb
          = (ra, Qabs (LuminanceExpected.luminance ra - t))) as ->.
  { unfold closer.
    assert (Qlt_bool (Qabs (LuminanceExpected.luminance rb - t))
                     (Qabs (LuminanceExpected.luminance ra - t)) = false) as ->;
      [|reflexivity].
    apply Qlt_bool_false_iff. destruct Hrb as (-> & _).
    LookupProperties.qabs (l_luminance b - t); lra. }
  rewrite fold_closer_stable; [exact Hra|].
  apply Forall_forall. intros x Hx.
  destruct (Forall2_In_l _ _ _ Hsuf x Hx) as (l & Hl & (El & _)). rewrite El.
  pose proof (lines_increasing_head _ _ Hi3 l Hl).
  LookupProperties.qabs (l_luminance l - t); lra.
Qed.

(** On a sorted calibration file, for a target on the midpoint of two
    neighbouring luminances, the two programs resolve the tie in opposite
    directions: findClosestMapping of luminanceexpected.cpp returns the
    averages of the lower row, getClosestLuminanceMatch of t_test_after.cpp
    those of the upper row. *)
Theorem lookups_differ_on_tie (rows : list MappingRow) (pre suf : list mapping_line)
        (a b : mapping_line) (t : Q) :
  Forall2 same_row rows (pre ++ a :: b :: suf) ->
  lines_increasing (pre ++ a :: b :: suf) ->
  l_luminance b - t == t - l_luminance a ->
  t - l_luminance a < DBL_MAX ->
  avgLeft (findClosestMapping rows t) = l_avgLeft a
  /\ avgRight (findClosestMapping rows t) = l_avgRight a
  /\ avgSize (getClosestLuminanceMatch
                (fst (readLuminanceMapping (Some (pre ++ a :: b :: suf)))) t)
     = l_avgLeft b
  /\ avgSize (getClosestLuminanceMatch
                (snd (readLuminanceMapping (Some (pre ++ a :: b :: suf)))) t)
     = l_avgRight b.
Proof.
  intros H2 Hi Hmid Hmax.
  destruct (tie_lower rows pre suf a b t H2 Hi Hmid Hmax) as (_ & EL & ER).
  split; [exact EL|]. split; [exact ER|].
  rewrite (readLuminanceMapping_increasing _ Hi). cbn [fst snd].
  rewrite !map_app. cbn [map].
  split.
  - rewrite tie_upper; [reflexivity| |exact Hmid].
    pose proof (ordered_of_increasing left_data _ Hi) as Ho.
    rewrite map_app in Ho. exact Ho.
  - rewrite tie_upper; [reflexivity| |exact Hmid].
    pose proof (ordered_of_increasing right_data _ Hi) as Ho.
    rewrite map_app in Ho. exact Ho.
Qed.

End ExpectedProperties.

Lemma findClosestMapping_first_minimum_witness :
  exists pre post,
    [ExpectedExamples.row10; ExpectedExamples.row20]
    = pre ++ LuminanceExpected.findClosestMapping
               [ExpectedExamples.row10; ExpectedExamples.row20] 14 :: post.
Proof.
  destruct (ExpectedProperties.findClosestMapping_first_minimum
              [ExpectedExamples.row10; ExpectedExamples.row20] 14)
    as (pre & post & H & _).
  - exists ExpectedExamples.row10. split; [left; reflexivity|]. vm_compute. reflexivity.
  - exists pre, post. exact H.
Defined.

Lemma lookups_agree_witness :
  TTestAfter.avgSize
    (TTestAfter.getClosestLuminanceMatch
       (fst (TTestAfter.readLuminanceMapping
               (Some [ExpectedExamples.line10; ExpectedExamples.line20]))) 14)
  = LuminanceExpected.avgLeft
      (LuminanceExpected.findClosestMapping
         [ExpectedExamples.row10; ExpectedExamples.row20] 14).
Proof.
  apply (ExpectedProperties.lookups_agree
           [ExpectedExamples.row10; ExpectedExamples.row20]
           [ExpectedExamples.line10; ExpectedExamples.line20] 14).
  - repeat constructor.
  - repeat constructor. cbn. intro H. vm_compute in H. discriminate.
  - exists ExpectedExamples.row10. split; [left; reflexivity|]. vm_compute. reflexivity.
  - intros a b [<-|[<-|[]]] [<-|[<-|[]]] Hlt H; vm_compute in Hlt, H; discriminate.
Defined.

Lemma lookups_differ_on_tie_witness :
  LuminanceExpected.avgLeft
    (LuminanceExpected.findClosestMapping
       [ExpectedExamples.row10; ExpectedExamples.row20] 15) = 3
  /\ TTestAfter.avgSize
       (TTestAfter.getClosestLuminanceMatch
          (fst (TTestAfter.readLuminanceMapping
                  (Some ([] ++ [ExpectedExamples.line10; ExpectedExamples.line20])))) 15)
     = 2.
Proof.
  destruct (ExpectedProperties.lookups_differ_on_tie
              [ExpectedExamples.row10; ExpectedExamples.row20]
              [] [] ExpectedExamples.line10 ExpectedExamples.line20 15)
    as (H1 & _ & H2 & _).
  - repeat constructor.
  - cbn. split; [reflexivity|]. split; exact I.
  - reflexivity.
  - vm_compute. reflexivity.
  - split; [exact H1|exact H2].
Defined.

(** ** Files of two sections *)

Module SectionProperties.

Section LuminanceFiles.

Import LuminanceMain.

Variable stod : string -> option Q.

Lemma read_lines_after (lines : list string) :
  forall b a,
    fold_left (read_line stod) lines (false, (b, a))
    = (false, (b, a ++ line_values stod lines)).
Proof.
  induction lines as [|line rest IH]; intros b a; cbn [fold_left].
  - unfold line_values. cbn [flat_map]. rewrite app_nil_r. reflexivity.
  - unfold line_values. cbn [flat_map]. fold (line_values stod rest).
    unfold read_line at 2. destruct (blank line).
    + apply IH.
    + destruct (stod line) as [val|].
      * rewrite IH, <- app_assoc. reflexivity.
      * apply IH.
Qed.

Lemma read_lines_before (lines : list string) :
  forall b a,
    snd (fold_left (read_line stod) lines (true, (b, a)))
    = (b ++ line_values stod (before_section blank lines),
       a ++ line_values stod (after_section blank lines)).
Proof.
  induction lines as [|line rest IH]; intros b a; cbn [fold_left before_section after_section].
  - unfold line_values. cbn [flat_map snd]. rewrite !app_nil_r. reflexivity.
  - unfold read_line at 2. destruct (blank line) eqn:E.
    + rewrite read_lines_after. cbn [snd]. unfold line_values at 1. cbn [flat_map].
      rewrite app_nil_r. reflexivity.
    + unfold line_values at 1. cbn [flat_map]. rewrite E.
      fold (line_values stod (before_section blank rest)).
      destruct (stod line) as [val|].
      * rewrite IH, <- app_assoc. reflexivity.
      * apply IH.
Qed.

Lemma read_file_sections (file : option string) (b a : list Q) :
  read_file stod (b, a) file
  = (b ++ line_values stod (before_section blank (file_lines file)),
     a ++ line_values stod (after_section blank (file_lines file))).
Proof.
  destruct file as [content|]; cbn [read_file file_lines].
  - apply read_lines_before.
  - cbn [before_section after_section]. unfold line_values. cbn [flat_map].
    rewrite !app_nil_r. reflexivity.
Qed.

Lemma read_files_sections (files : list (option string)) :
  forall b a,
    fold_left (read_file stod) files (b, a)
    = (b ++ flat_map (fun file => line_values stod (before_section blank (file_lines file)))
                     files,
       a ++ flat_map (fun file => line_values stod (after_section blank (file_lines file)))
                     files).
Proof.
  induction files as [|file rest IH]; intros b a; cbn [fold_left flat_map].
  - rewrite !app_nil_r. reflexivity.
  - rewrite read_file_sections, IH, <- !app_assoc. reflexivity.
Qed.

(** luminance.cpp: the statistics printed for "Before" are those of the
    numbers read in front of the first blank line of each file, in the
    order of the files, and the statistics printed for "After" those of
    all the numbers behind it: a later blank line does not switch back,
    the next file starts in front again, and a file that cannot be opened
    or a line that is no number adds nothing. *)
Theorem luminance_main_sections (files : list (option string)) :
  main stod (Some files)
  = Some (Luminance.computeStats
            (flat_map (fun file => line_values stod (before_section blank (file_lines file)))
                      files),
          Luminance.computeStats
            (flat_map (fun file => line_values stod (after_section blank (file_lines file)))
                      files)).
Proof.
  unfold main. rewrite read_files_sections. reflexivity.
Qed.

End LuminanceFiles.

Section PupilFiles.

Import Pupilsizecal PupilsizecalMain.

Variable parse_pair : string -> option (Q * Q).

Lemma update_if_valid_eq (stats : Stats) (v : Q) : update_if_valid stats v = updateStats stats v.
Proof.
  unfold update_if_valid, updateStats. destruct (Qeq_bool v (-1)); reflexivity.
Qed.

Lemma pupil_lines_after (lines : list string) :
  forall acc vec,
    fold_left (read_line parse_pair) lines (true, (acc, vec))
    = (true,
       (mkAcc (globalLeftBefore acc) (globalRightBefore acc)
              (fold_left updateStats (map fst (line_pairs parse_pair lines))
                         (globalLeftAfter acc))
              (fold_left updateStats (map snd (line_pairs parse_pair lines))
                         (globalRightAfter acc))
              (personLeftBefore acc) (personRightBefore acc)
              (personLeftAfter acc) (personRightAfter acc),
        mkVectors (fileLeftBefore vec) (fileRightBefore vec)
                  (fileLeftAfter vec ++ map fst (line_pairs parse_pair lines))
                  (fileRightAfter vec ++ map snd (line_pairs parse_pair lines)))).
Proof.
  induction lines as [|line rest IH]; intros acc vec; cbn [fold_left].
  - unfold line_pairs. cbn [flat_map map fold_left]. rewrite !app_nil_r.
    destruct acc, vec; reflexivity.
  - unfold line_pairs. cbn [flat_map]. fold (line_pairs parse_pair rest).
    unfold read_line at 2. destruct (blank line).
    + apply IH.
    + destruct (parse_pair line) as [[leftVal rightVal]|].
      * cbn [negb]. rewrite IH. cbn [globalLeftBefore globalRightBefore globalLeftAfter
                                      globalRightAfter personLeftBefore personRightBefore
                                      personLeftAfter personRightAfter fileLeftBefore
                                      fileRightBefore fileLeftAfter fileRightAfter
                                      app map fold_left fst snd].
        rewrite !update_if_valid_eq, <- !app_assoc. reflexivity.
      * apply IH.
Qed.

Lemma pupil_lines_before (lines : list string) :
  forall acc vec,
    snd (fold_left (read_line parse_pair) lines (false, (acc, vec)))
    = (mkAcc (fold_left updateStats
                (map fst (line_pairs parse_pair (before_section blank lines)))
                (globalLeftBefore acc))
             (fold_left updateStats
                (map snd (line_pairs parse_pair (before_section blank lines)))
                (globalRightBefore acc))
             (fold_left updateStats
                (map fst (line_pairs parse_pair (after_section blank lines)))
                (globalLeftAfter acc))
             (fold_left updateStats
                (map snd (line_pairs parse_pair (after_section blank lines)))
                (globalRightAfter acc))
             (personLeftBefore acc) (personRightBefore acc)
             (personLeftAfter acc) (personRightAfter acc),
       mkVectors
         (fileLeftBefore vec ++ map fst (line_pairs parse_pair (before_section blank lines)))
         (fileRightBefore vec ++ map snd (line_pairs parse_pair (before_section blank lines)))
         (fileLeftAfter vec ++ map fst (line_pairs parse_pair (after_section blank lines)))
         (fileRightAfter vec ++ map snd (line_pairs parse_pair (after_section blank lines)))).
Proof.
  induction lines as [|line rest IH]; intros acc vec;
    cbn [fold_left before_section after_section].
  - unfold line_pairs. cbn [flat_map map fold_left snd]. rewrite !app_nil_r.
    destruct acc, vec; reflexivity.
  - unfold read_line at 2. destruct (blank line) eqn:E.
    + rewrite pupil_lines_after. cbn [snd]. unfold line_pairs at 1 2 3 4.
      cbn [flat_map map fold_left]. rewrite !app_nil_r. reflexivity.
    + unfold line_pairs at 1 2 5 6. cbn [flat_map]. rewrite E.
      fold (line_pairs parse_pair (before_section blank rest)).
      destruct (parse_pair line) as [[leftVal rightVal]|].
      * cbn [negb]. rewrite IH. cbn [globalLeftBefore globalRightBefore globalLeftAfter
                                      globalRightAfter personLeftBefore personRightBefore
                                      personLeftAfter personRightAfter fileLeftBefore
                                      fileRightBefore fileLeftAfter fileRightAfter
                                      app map fold_left fst snd].
        rewrite !update_if_valid_eq, <- !app_assoc. reflexivity.
      * apply IH.
Qed.

Lemma pupil_file_stats (file : option string) (acc : accumulators) :
  read_file parse_pair acc file
  = mkAcc (fold_left updateStats (before_values parse_pair fst file) (globalLeftBefore acc))
          (fold_left updateStats (before_values parse_pair snd file) (globalRightBefore acc))
          (fold_left updateStats (after_values parse_pair fst file) (globalLeftAfter acc))
          (fold_left updateStats (after_values parse_pair snd file) (globalRightAfter acc))
          (updateStats (personLeftBefore acc)
                       (computeFileAvg (before_values parse_pair fst file)))
          (updateStats (personRightBefore acc)
                       (computeFileAvg (before_values parse_pair snd file)))
          (updateStats (personLeftAfter acc)
                       (computeFileAvg (after_values parse_pair fst file)))
          (updateStats (personRightAfter acc)
                       (computeFileAvg (after_values parse_pair snd file))).
Proof.
  destruct file as [content|]; cbn [read_file].
  - rewrite pupil_lines_before. cbn [globalLeftBefore globalRightBefore globalLeftAfter
                                      globalRightAfter personLeftBefore personRightBefore
                                      personLeftAfter personRightAfter fileLeftBefore
                                      fileRightBefore fileLeftAfter fileRightAfter app].
    rewrite !update_if_valid_eq. reflexivity.
  - destruct acc; reflexivity.
Qed.

Lemma pupil_files_stats (files : list (option string)) :
  forall acc,
    fold_left (read_file parse_pair) files acc
    = mkAcc (fold_left updateStats (flat_map (before_values parse_pair fst) files)
                       (globalLeftBefore acc))
            (fold_left updateStats (flat_map (before_values parse_pair snd) files)
                       (globalRightBefore acc))
            (fold_left updateStats (flat_map (after_values parse_pair fst) files)
                       (globalLeftAfter acc))
            (fold_left updateStats (flat_map (after_values parse_pair snd) files)
                       (globalRightAfter acc))
            (fold_left updateStats
               (map (fun file => computeFileAvg (before_values parse_pair fst file)) files)
               (personLeftBefore acc))
            (fold_left updateStats
               (map (fun file => computeFileAvg (before_values parse_pair snd file)) files)
               (personRightBefore acc))
            (fold_left updateStats
               (map (fun file => computeFileAvg (after_values parse_pair fst file)) files)
               (personLeftAfter acc))
            (fold_left updateStats
               (map (fun file => computeFileAvg (after_values parse_pair snd file)) files)
               (personRightAfter acc)).
Proof.
  induction files as [|file rest IH]; intro acc; cbn [fold_left flat_map map].
  - destruct acc; reflexivity.
  - rewrite IH, pupil_file_stats.
    cbn [globalLeftBefore globalRightBefore globalLeftAfter globalRightAfter
         personLeftBefore personRightBefore personLeftAfter personRightAfter].
    rewrite !fold_left_app. reflexivity.
Qed.

(** The eight accumulators of [main] as runs of updateStats: the tests
    against -1 in [main] change nothing, since updateStats makes the same
    test. *)
Lemma pupilsizecal_main_folds (files : list (option string)) :
  main parse_pair (Some files)
  = Some (map computeAndPrintStats
              [over_points (before_values parse_pair fst) files;
               over_points (before_values parse_pair snd) files;
               over_points (after_values parse_pair fst) files;
               over_points (after_values parse_pair snd) files;
               over_persons (before_values parse_pair fst) files;
               over_persons (before_values parse_pair snd) files;
               over_persons (after_values parse_pair fst) files;
               over_persons (after_values parse_pair snd) files]).
Proof.
  unfold main. rewrite pupil_files_stats. reflexivity.
Qed.

End PupilFiles.

End SectionProperties.

(** ** The accumulators of pupilsizecal.cpp and luminanceexpected.cpp *)

Module StatsProperties.

Import Pupilsizecal PupilsizecalMain.

Lemma updateStats_kept (values : list Q) :
  forall st, fold_left updateStats values st = fold_left updateStats (kept values) st.
Proof.
  induction values as [|x l IH]; intro st; [reflexivity|].
  cbn [fold_left]. unfold kept. cbn [filter]. fold (kept l).
  destruct (Qeq_bool x (-1)) eqn:E; cbn [negb fold_left].
  - unfold updateStats at 2. rewrite E. apply IH.
  - apply IH.
Qed.

Lemma kept_valid (values : list Q) :
  Forall (fun v => Qeq_bool v (-1) = false) (kept values).
Proof.
  apply Forall_forall. intros v H. apply filter_In in H. destruct H as [_ H].
  apply negb_true_iff in H. exact H.
Qed.

Lemma Qmin_spec (a b : Q) : Qmin a b <= a /\ Qmin a b <= b /\ (Qmin a b = a \/ Qmin a b = b).
Proof.
  unfold Qmin. destruct (Qlt_bool b a) eqn:E.
  - apply Qlt_bool_iff in E. repeat split; try lra. right. reflexivity.
  - apply Qlt_bool_false_iff in E. repeat split; try lra. left. reflexivity.
Qed.

Lemma Qmax_spec (a b : Q) : a <= Qmax a b /\ b <= Qmax a b /\ (Qmax a b = a \/ Qmax a b = b).
Proof.
  unfold Qmax. destruct (Qlt_bool a b) eqn:E.
  - apply Qlt_bool_iff in E. repeat split; try lra. right. reflexivity.
  - apply Qlt_bool_false_iff in E. repeat split; try lra. left. reflexivity.
Qed.

Lemma updateStats_bounds (l : list Q) :
  Forall (fun v => Qeq_bool v (-1) = false) l ->
  forall st,
    minVal (fold_left updateStats l st) <= minVal st
    /\ maxVal st <= maxVal (fold_left updateStats l st)
    /\ Forall (fun v => minVal (fold_left updateStats l st) <= v
                        /\ v <= maxVal (fold_left updateStats l st)) l
    /\ (minVal (fold_left updateStats l st) = minVal st
        \/ In (minVal (fold_left updateStats l st)) l)
    /\ (maxVal (fold_left updateStats l st) = maxVal st
        \/ In (maxVal (fold_left updateStats l st)) l).
Proof.
  induction 1 as [|x l Hx _ IH]; intro st; cbn [fold_left].
  - repeat split; try lra; auto.
  - destruct (IH (updateStats st x)) as (H1 & H2 & H3 & H4 & H5).
    assert (minVal (updateStats st x) = Qmin (minVal st) x) as Emin
        by (unfold updateStats; rewrite Hx; reflexivity).
    assert (maxVal (updateStats st x) = Qmax (maxVal st) x) as Emax
        by (unfold updateStats; rewrite Hx; reflexivity).
    rewrite Emin in H1, H4. rewrite Emax in H2, H5.
    destruct (Qmin_spec (minVal st) x) as (M1 & M2 & M3).
    destruct (Qmax_spec (maxVal st) x) as (N1 & N2 & N3).
    split; [lra|]. split; [lra|]. split; [|split].
    + constructor; [split; lra|exact H3].
    + destruct H4 as [H4|H4]; [|right; right; exact H4].
      destruct M3 as [M3|M3]; [left; congruence|right; left; congruence].
    + destruct H5 as [H5|H5]; [|right; right; exact H5].
      destruct N3 as [N3|N3]; [left; congruence|right; left; congruence].
Qed.

(** The minimum and the maximum an accumulator holds after a run of
    updateStats from the initial state are values that were kept (all
    but -1), and every kept value lies between them, when there is a kept
    value and the kept values are in the range of a double. *)
Theorem updateStats_min_max (values : list Q) :
  kept values <> [] ->
  Forall (fun v => DBL_LOWEST <= v /\ v <= DBL_MAX) (kept values) ->
  Forall (fun v => minVal (fold_left updateStats values Stats0) <= v
                   /\ v <= maxVal (fold_left updateStats values Stats0)) (kept values)
  /\ (exists v, In v (kept values) /\ minVal (fold_left updateStats values Stats0) == v)
  /\ (exists v, In v (kept values) /\ maxVal (fold_left updateStats values Stats0) == v).
Proof.
  intros Hne Hrange. rewrite updateStats_kept.
  destruct (updateStats_bounds (kept values) (kept_valid values) Stats0)
    as (_ & _ & H3 & H4 & H5).
  split; [exact H3|].
  destruct (kept values) as [|x l] eqn:E; [congruence|].
  inversion Hrange as [|x' l' [Hlo Hhi] _]; subst.
  inversion H3 as [|x' l' [Hmin Hmax] _]; subst.
  split.
  - destruct H4 as [H4|H4].
    + exists x. split; [left; reflexivity|]. rewrite H4 in *. cbn [minVal Stats0] in *. lra.
    + eexists. split; [exact H4|reflexivity].
  - destruct H5 as [H5|H5].
    + exists x. split; [left; reflexivity|]. rewrite H5 in *. cbn [maxVal Stats0] in *. lra.
    + eexists. split; [exact H5|reflexivity].
Qed.

Lemma computeFileAvg_loop (vals : list Q) :
  forall s c,
    fst (fold_left (fun '(sum, count) v =>
                      if negb (Qeq_bool v (-1)) then (sum + v, (count + 1)%Z)
                      else (sum, count)) vals (s, c))
    == s + Qsum (kept vals)
    /\ snd (fold_left (fun '(sum, count) v =>
                         if negb (Qeq_bool v (-1)) then (sum + v, (count + 1)%Z)
                         else (sum, count)) vals (s, c))
       = (c + Z.of_nat (length (kept vals)))%Z.
Proof.
  induction vals as [|x l IH]; intros s c; cbn [fold_left].
  - cbn. split; [ring|lia].
  - unfold kept. cbn [filter]. fold (kept l).
    destruct (negb (Qeq_bool x (-1))).
    + destruct (IH (s + x) (c + 1)%Z) as [H1 H2]. rewrite H1, H2.
      cbn [Qsum length]. split; [ring|lia].
    + apply IH.
Qed.

(** computeFileAvg gives -1 for a file without a value other than -1, and
    else the mean of the values other than -1. *)
Lemma computeFileAvg_mean (vals : list Q) :
  (kept vals = [] -> computeFileAvg vals = -1)
  /\ (kept vals <> [] -> computeFileAvg vals == mean_of (kept vals)).
Proof.
  unfold computeFileAvg.
  destruct (computeFileAvg_loop vals 0 0%Z) as [H1 H2].
  destruct (fold_left _ vals (0, 0%Z)) as [sum count]. cbn [fst snd] in H1, H2.
  split; intro H.
  - rewrite H in H2. cbn in H2. subst count. reflexivity.
  - assert (0 < count)%Z as Hc.
    { destruct (kept vals); [congruence|]. cbn [length] in H2. lia. }
    apply Z.ltb_lt in Hc. rewrite Hc. unfold mean_of, Qlen.
    rewrite H1, H2, Qplus_0_l. reflexivity.
Qed.

(** pupilsizecal.cpp: the four aggregate blocks that are printed are
    computed by updateStats from all the values of an eye in the before
    sections, or in the after sections, of the files (the lines in front
    of the first blank line of a file, and those behind it); the four
    per-person blocks are computed from one value for each file, which is
    the mean of the values of the eye in the section that are not -1, or
    -1, which updateStats ignores, when the file has no such value. *)
Theorem pupilsizecal_main_stats (parse_pair : string -> option (Q * Q))
        (files : list (option string)) :
  main parse_pair (Some files)
  = Some (map computeAndPrintStats
              [over_points (before_values parse_pair fst) files;
               over_points (before_values parse_pair snd) files;
               over_points (after_values parse_pair fst) files;
               over_points (after_values parse_pair snd) files;
               over_persons (before_values parse_pair fst) files;
               over_persons (before_values parse_pair snd) files;
               over_persons (after_values parse_pair fst) files;
               over_persons (after_values parse_pair snd) files])
  /\ (forall vals,
        (kept vals = [] -> computeFileAvg vals = -1)
        /\ (kept vals <> [] -> computeFileAvg vals == mean_of (kept vals)))
  /\ (forall stats, updateStats stats (-1) = stats).
Proof.
  split; [apply SectionProperties.pupilsizecal_main_folds|].
  split; [apply computeFileAvg_mean|]. reflexivity.
Qed.

End StatsProperties.

Lemma updateStats_min_max_witness :
  exists v, In v (Pupilsizecal.kept [3; -1; 2; 5])
            /\ Pupilsizecal.minVal
                 (fold_left Pupilsizecal.updateStats [3; -1; 2; 5] Pupilsizecal.Stats0) == v.
Proof.
  apply (StatsProperties.updateStats_min_max [3; -1; 2; 5]).
  - discriminate.
  - repeat constructor; vm_compute; discriminate.
Defined.

(** ** The extractors of raw values *)

Module RawProperties.

Lemma to_unsigned_small (c : Z) : (0 <= c < 2 ^ 32)%Z -> to_unsigned c = c.
Proof.
  intro H. unfold to_unsigned. apply Z.mod_small. exact H.
Qed.

Lemma findPupilColumns_range (headerRow : list string) :
  (fst (findPupilColumns headerRow) = (-1)%Z
   \/ (0 <= fst (findPupilColumns headerRow) < Z.of_nat (length headerRow))%Z)
  /\ (snd (findPupilColumns headerRow) = (-1)%Z
      \/ (0 <= snd (findPupilColumns headerRow) < Z.of_nat (length headerRow))%Z).
Proof.
  destruct (findPupilColumns_from_last headerRow [] ((-1)%Z, (-1)%Z)) as [HL HR];
    try (left; (split; [reflexivity|]); intros x []).
  unfold findPupilColumns. cbn [app length Z.of_nat] in HL, HR.
  split.
  - destruct HL as [[H _]|(i & x & H & Hn & _)]; [left; exact H|right].
    assert (i < length headerRow)%nat by (apply nth_error_Some; congruence). lia.
  - destruct HR as [[H _]|(i & x & H & Hn & _)]; [left; exact H|right].
    assert (i < length headerRow)%nat by (apply nth_error_Some; congruence). lia.
Qed.

Lemma windows_app {A : Type} (bt aft : Q) (s1 s2 : list (Q * A)) :
  windows bt aft (s1 ++ s2)
  = (fst (windows bt aft s1) ++ fst (windows bt aft s2),
     snd (windows bt aft s1) ++ snd (windows bt aft s2)).
Proof.
  unfold windows. cbn [fst snd]. rewrite !filter_app, !map_app. reflexivity.
Qed.

Lemma at_none {A : Type} (v : list A) (i : Z) :
  (Z.of_nat (length v) <= i)%Z -> at_ v i = None.
Proof.
  intro H. unfold at_. destruct (i <? 0)%Z; [reflexivity|].
  apply nth_error_None. lia.
Qed.

Section WithLibrary.

Variable stod : string -> option Q.
Variable writable : string -> bool.

Lemma pupil_row_spec (l r : Z) (bt aft : Q) (acc : list (Q * Q) * list (Q * Q))
      (row : list string) :
  (0 <= l < 2 ^ 31)%Z -> (0 <= r < 2 ^ 31)%Z ->
  pupil_row stod l r bt aft acc row
  = Ret (fst acc ++ fst (windows bt aft (pupil_sample stod l r row)),
         snd acc ++ snd (windows bt aft (pupil_sample stod l r row))).
Proof.
  intros Hl Hr. unfold pupil_row, size_le_unsigned.
  rewrite to_unsigned_small by lia.
  destruct (Z.of_nat (length row) <=? Z.max l r)%Z eqn:E.
  - apply Z.leb_le in E.
    assert (pupil_sample stod l r row = []) as ->.
    { unfold pupil_sample, number_at.
      destruct (Z.max_spec l r) as [[_ Hm]|[_ Hm]]; rewrite Hm in E.
      - rewrite (at_none row r E). destruct (at_ row 0) as [c0|]; [|reflexivity].
        destruct (stod c0); [|reflexivity].
        destruct (at_ row l) as [cl|]; [|reflexivity]. destruct (stod cl); reflexivity.
      - rewrite (at_none row l E). destruct (at_ row 0) as [c0|]; [|reflexivity].
        destruct (stod c0); reflexivity. }
    cbn. rewrite !app_nil_r. destruct acc; reflexivity.
  - apply Z.leb_gt in E. unfold pupil_sample, number_at.
    destruct (at_in_range row 0 ltac:(lia)) as (c0 & ->).
    destruct (at_in_range row l ltac:(lia)) as (cl & ->).
    destruct (at_in_range row r ltac:(lia)) as (cr & ->).
    destruct (stod c0) as [t|]; [|cbn; rewrite !app_nil_r; destruct acc; reflexivity].
    destruct (stod cl) as [x|]; [|cbn; rewrite !app_nil_r; destruct acc; reflexivity].
    destruct (stod cr) as [y|]; [|cbn; rewrite !app_nil_r; destruct acc; reflexivity].
    unfold windows. cbn [filter map fst snd].
    destruct (in_before bt t); destruct (in_after aft t); cbn [map];
      rewrite ?app_nil_r; reflexivity.
Qed.

Lemma pupil_rows_spec (l r : Z) (bt aft : Q) (rows : table) :
  (0 <= l < 2 ^ 31)%Z -> (0 <= r < 2 ^ 31)%Z ->
  forall acc,
    for_rows (pupil_row stod l r bt aft) rows acc
    = Ret (fst acc ++ fst (windows bt aft (flat_map (pupil_sample stod l r) rows)),
           snd acc ++ snd (windows bt aft (flat_map (pupil_sample stod l r) rows))).
Proof.
  intros Hl Hr. induction rows as [|row rest IH]; intro acc; cbn [for_rows flat_map].
  - cbn. rewrite !app_nil_r. destruct acc; reflexivity.
  - rewrite pupil_row_spec by assumption. cbn [bind]. rewrite IH, windows_app.
    cbn [fst snd]. rewrite <- !app_assoc. reflexivity.
Qed.

Lemma luminance_row_spec (skip : nat -> bool) (col : Z) (bt aft : Q)
      (acc : list Q * list Q) (row : list string) :
  (skip (length row) = true -> luminance_sample stod col row = []) ->
  (skip (length row) = false -> (0 <= col < Z.of_nat (length row))%Z) ->
  luminance_row stod skip col bt aft acc row
  = Ret (fst acc ++ fst (windows bt aft (luminance_sample stod col row)),
         snd acc ++ snd (windows bt aft (luminance_sample stod col row))).
Proof.
  intros Hs Hn. unfold luminance_row.
  destruct (skip (length row)) eqn:E.
  - rewrite (Hs eq_refl). cbn. rewrite !app_nil_r. destruct acc; reflexivity.
  - specialize (Hn eq_refl). unfold luminance_sample, number_at.
    destruct (at_in_range row 0 ltac:(lia)) as (c0 & ->).
    destruct (at_in_range row col ltac:(lia)) as (cl & ->).
    destruct (stod c0) as [t|]; [|cbn; rewrite !app_nil_r; destruct acc; reflexivity].
    destruct (stod cl) as [x|]; [|cbn; rewrite !app_nil_r; destruct acc; reflexivity].
    destruct (Qeq_bool x (-1)); [cbn; rewrite !app_nil_r; destruct acc; reflexivity|].
    unfold windows. cbn [filter map fst snd].
    destruct (in_before bt t); destruct (in_after aft t); cbn [map];
      rewrite ?app_nil_r; reflexivity.
Qed.

Lemma luminance_rows_spec (skip : nat -> bool) (col : Z) (bt aft : Q) (rows : table) :
  Forall (fun row =>
            (skip (length row) = true -> luminance_sample stod col row = [])
            /\ (skip (length row) = false -> (0 <= col < Z.of_nat (length row))%Z)) rows ->
  forall acc,
    for_rows (luminance_row stod skip col bt aft) rows acc
    = Ret (fst acc ++ fst (windows bt aft (flat_map (luminance_sample stod col) rows)),
           snd acc ++ snd (windows bt aft (flat_map (luminance_sample stod col) rows))).
Proof.
  induction 1 as [|row rest [Hs Hn] _ IH]; intro acc; cbn [for_rows flat_map].
  - cbn. rewrite !app_nil_r. destruct acc; reflexivity.
  - rewrite luminance_row_spec by assumption. cbn [bind]. rewrite IH, windows_app.
    cbn [fst snd]. rewrite <- !app_assoc. reflexivity.
Qed.

(** The row a search has found exists and is not empty. *)
Lemma found_row (p : list string -> bool) (data : table) (r : Z) :
  (forall row, p row = true -> row <> []) ->
  first_index_where p 1 data r -> r <> (-1)%Z ->
  exists row, at_ data r = Some row /\ nth (Z.to_nat r) data [] = row /\ row <> []
              /\ In row (tl data).
Proof.
  intros Hp [[H _]|(i & x & Hr & Hi & Hnth & Hpx & _)] Hne; [congruence|].
  subst r. exists x. unfold at_.
  assert ((Z.of_nat i <? 0)%Z = false) as -> by (apply Z.ltb_ge; lia).
  rewrite Nat2Z.id. split; [exact Hnth|]. split; [apply nth_error_nth; exact Hnth|].
  split; [apply Hp, Hpx|].
  destruct data as [|h rows]; [destruct i; discriminate|].
  destruct i as [|i]; [lia|]. cbn [tl nth_error] in *. eapply nth_error_In. exact Hnth.
Qed.

Lemma tag_row_nonempty (row : list string) :
  existsb (fun cell => contains cell "0.2 seconds") row = true -> row <> [].
Proof.
  intros H N. subst. discriminate.
Qed.

Lemma time_at_found (data : table) (r : Z) (row : list string) :
  at_ data r = Some row -> nth (Z.to_nat r) data [] = row -> row <> [] ->
  time_at stod data r = Ret (time_of stod data r)
  /\ anchor_time stod data r 0
     = match time_of stod data r with Some t => Ret t | None => Throws end.
Proof.
  intros Hat Hnth Hne. unfold time_at, anchor_time, time_of, number_at. rewrite Hat, Hnth.
  destruct row as [|c0 rest]; [congruence|]. cbn. split; [reflexivity|].
  destruct (stod c0); reflexivity.
Qed.

Lemma for_each_csv_returns {A : Type} (body : table -> outcome (option A))
      (P : table -> A -> Prop) (files : list (string * table)) :
  (forall fileName data, In (fileName, data) files ->
     exists r, body data = Ret r /\ forall out, r = Some out -> P data out) ->
  exists outs,
    for_each_csv writable body files = Ret outs
    /\ Forall (written_for files P) outs.
Proof.
  induction files as [|[fileName data] rest IH]; intro H; cbn [for_each_csv].
  - exists []. split; [reflexivity|constructor].
  - destruct (H fileName data (or_introl eq_refl)) as (r & Hr & HP). rewrite Hr.
    destruct IH as (outs & Houts & Hall).
    { intros f d Hin. apply (H f d). right. exact Hin. }
    rewrite Houts. cbn [bind].
    assert (Forall (written_for ((fileName, data) :: rest) P) outs) as Hall'.
    { eapply Forall_impl; [|exact Hall]. intros o (f & d & Hin & Hf & Hd).
      exists f, d. split; [right; exact Hin|]. split; assumption. }
    eexists. split; [reflexivity|].
    destruct r as [out|]; [|exact Hall'].
    destruct (writable (fileIndex_of fileName)); [|exact Hall'].
    constructor; [|exact Hall'].
    exists fileName, data. split; [left; reflexivity|]. split; [reflexivity|].
    apply HP. reflexivity.
Qed.

Lemma for_each_csv_returns_or_throws {A : Type} (body : table -> outcome (option A))
      (P : table -> A -> Prop) (files : list (string * table)) :
  (forall fileName data, In (fileName, data) files ->
     body data = Throws
     \/ exists r, body data = Ret r /\ forall out, r = Some out -> P data out) ->
  for_each_csv writable body files = Throws
  \/ exists outs,
       for_each_csv writable body files = Ret outs
       /\ Forall (written_for files P) outs.
Proof.
  induction files as [|[fileName data] rest IH]; intro H; cbn [for_each_csv].
  - right. exists []. split; [reflexivity|constructor].
  - destruct (H fileName data (or_introl eq_refl)) as [Ht|(r & Hr & HP)].
    + left. rewrite Ht. reflexivity.
    + rewrite Hr. cbn [bind]. destruct IH as [Ht|(outs & Houts & Hall)].
      { intros f d Hin. apply (H f d). right. exact Hin. }
      * left. rewrite Ht. reflexivity.
      * right. rewrite Houts. cbn [bind].
        assert (Forall (written_for ((fileName, data) :: rest) P) outs) as Hall'.
        { eapply Forall_impl; [|exact Hall]. intros o (f & d & Hin & Hf & Hd).
          exists f, d. split; [right; exact Hin|]. split; assumption. }
        eexists. split; [reflexivity|].
        destruct r as [out|]; [|exact Hall'].
        destruct (writable (fileIndex_of fileName)); [|exact Hall'].
        constructor; [|exact Hall'].
        exists fileName, data. split; [left; reflexivity|]. split; [reflexivity|].
        apply HP. reflexivity.
Qed.

Lemma narrow_header (headerRow : list string) (rows : table) :
  narrow (headerRow :: rows) -> (Z.of_nat (length headerRow) < 2 ^ 31)%Z.
Proof.
  intro H. inversion H; assumption.
Qed.

Lemma pupilsizeshook_file (data : table) :
  narrow data ->
  exists r,
    Pupilsizeshook.process_file stod data = Ret r
    /\ forall out, r = Some out ->
         exists bt aft, dual_event_times stod data bt aft
                        /\ out = pupil_sections stod data bt aft.
Proof.
  intro Hn. unfold Pupilsizeshook.process_file.
  destruct data as [|headerRow rows]; [exists None; split; [reflexivity|discriminate]|].
  pose proof (narrow_header _ _ Hn) as Hh.
  destruct (findPupilColumns_range headerRow) as [HL HR].
  destruct (fst (findPupilColumns headerRow) =? -1)%Z eqn:El;
    [exists None; split; [reflexivity|discriminate]|].
  destruct (snd (findPupilColumns headerRow) =? -1)%Z eqn:Er;
    [exists None; split; [reflexivity|discriminate]|].
  apply Z.eqb_neq in El, Er. cbn [orb].
  destruct (findEventColumn headerRow =? -1)%Z;
    [exists None; split; [reflexivity|discriminate]|].
  set (c := findEventColumn headerRow).
  destruct (findEventRows_where (headerRow :: rows) c) as [H02 Hsh].
  destruct (fst (findEventRows (headerRow :: rows) c) =? -1)%Z eqn:E1;
    [exists None; split; [reflexivity|discriminate]|].
  destruct (snd (findEventRows (headerRow :: rows) c) =? -1)%Z eqn:E2;
    [exists None; split; [reflexivity|discriminate]|].
  apply Z.eqb_neq in E1, E2. cbn [orb].
  destruct (found_row _ _ _ (event_cell_has_nonempty c "0.2 seconds") H02 E1)
    as (r1 & A1 & N1 & Ne1 & _).
  destruct (found_row _ _ _ (event_cell_has_nonempty c "shook") Hsh E2)
    as (r2 & A2 & N2 & Ne2 & _).
  destruct (time_at_found _ _ _ A1 N1 Ne1) as [T1 _].
  destruct (time_at_found _ _ _ A2 N2 Ne2) as [T2 _].
  rewrite T1. cbn [bind].
  destruct (time_of stod (headerRow :: rows) (fst (findEventRows (headerRow :: rows) c)))
    as [bt|] eqn:Eb; [|exists None; split; [reflexivity|discriminate]].
  rewrite T2. cbn [bind].
  destruct (time_of stod (headerRow :: rows) (snd (findEventRows (headerRow :: rows) c)))
    as [aft|] eqn:Ea; [|exists None; split; [reflexivity|discriminate]].
  rewrite pupil_rows_spec by lia. cbn [bind fst snd app].
  eexists. split; [reflexivity|]. intros out Hout. inversion Hout; subst out.
  exists bt, aft. split; [split; assumption|].
  unfold pupil_sections, windows. cbn [hd tl fst snd]. reflexivity.
Qed.

Lemma pupilsizenoshook_file (data : table) :
  narrow data ->
  exists r,
    Pupilsizenoshook.process_file stod data = Ret r
    /\ forall out, r = Some out ->
         exists bt aft, single_event_times stod data bt aft
                        /\ out = pupil_sections stod data bt aft.
Proof.
  intro Hn. unfold Pupilsizenoshook.process_file.
  destruct data as [|headerRow rows]; [exists None; split; [reflexivity|discriminate]|].
  pose proof (narrow_header _ _ Hn) as Hh.
  destruct (findPupilColumns_range headerRow) as [HL HR].
  destruct (fst (findPupilColumns headerRow) =? -1)%Z eqn:El;
    [exists None; split; [reflexivity|discriminate]|].
  destruct (snd (findPupilColumns headerRow) =? -1)%Z eqn:Er;
    [exists None; split; [reflexivity|discriminate]|].
  apply Z.eqb_neq in El, Er. cbn [orb].
  pose proof (findEventRow_where (headerRow :: rows)) as Hw.
  destruct (findEventRow (headerRow :: rows) =? -1)%Z eqn:E1;
    [exists None; split; [reflexivity|discriminate]|].
  apply Z.eqb_neq in E1.
  destruct (found_row _ _ _ tag_row_nonempty Hw E1) as (r1 & A1 & N1 & Ne1 & _).
  destruct (time_at_found _ _ _ A1 N1 Ne1) as [T1 _].
  rewrite T1. cbn [bind].
  destruct (time_of stod (headerRow :: rows) (findEventRow (headerRow :: rows)))
    as [bt|] eqn:Eb; [|exists None; split; [reflexivity|discriminate]].
  rewrite pupil_rows_spec by lia. cbn [bind fst snd app].
  eexists. split; [reflexivity|]. intros out Hout. inversion Hout; subst out.
  exists bt, (bt + 0.229). split; [split; [assumption|reflexivity]|].
  unfold pupil_sections, windows. cbn [hd tl fst snd]. reflexivity.
Qed.

(** pupilsizeshook.cpp and pupilsizenoshook.cpp: on tables whose rows
    have fewer cells than an [int] counts, [main] ends normally, with no
    access out of range and no exception, and each file it writes holds,
    for a file of the folder, the pairs of the rows after the header whose
    time, left and right cell are numbers and whose time lies in the
    window: the values -1 are kept, and a row too short for one of the
    columns is left out. *)
Theorem pupilsize_mains_write (files : list (string * table)) :
  (forall fileName data, In (fileName, data) files -> narrow data) ->
  (exists outs,
      Pupilsizeshook.main stod writable files = Ret outs
      /\ Forall (written_for files
                   (fun data out =>
                      exists bt aft, dual_event_times stod data bt aft
                                     /\ out = pupil_sections stod data bt aft)) outs)
  /\ (exists outs,
         Pupilsizenoshook.main stod writable files = Ret outs
         /\ Forall (written_for files
                      (fun data out =>
                         exists bt aft, single_event_times stod data bt aft
                                        /\ out = pupil_sections stod data bt aft)) outs).
Proof.
  intro Hn. split.
  - apply for_each_csv_returns. intros f d Hin. apply pupilsizeshook_file.
    eapply Hn. exact Hin.
  - apply for_each_csv_returns. intros f d Hin. apply pupilsizenoshook_file.
    eapply Hn. exact Hin.
Qed.

Lemma number_at_negative (row : list string) : number_at stod row (-1) = None.
Proof.
  reflexivity.
Qed.

Lemma luminance_sample_none (row : list string) (col : Z) :
  number_at stod row col = None -> luminance_sample stod col row = [].
Proof.
  intro H. unfold luminance_sample. rewrite H.
  destruct (number_at stod row 0); reflexivity.
Qed.

Lemma no_column_no_sample (rows : table) :
  flat_map (luminance_sample stod (-1)) rows = [].
Proof.
  induction rows as [|row rest IH]; [reflexivity|].
  cbn [flat_map]. rewrite IH, (luminance_sample_none row (-1)); reflexivity.
Qed.

Lemma narrow_tail (headerRow : list string) (rows : table) :
  narrow (headerRow :: rows) -> narrow rows.
Proof.
  intro H. inversion H; assumption.
Qed.

Lemma luminancenoshook_file (data : table) :
  narrow data ->
  exists r,
    Luminancenoshook.process_file stod data = Ret r
    /\ forall out, r = Some out ->
         exists bt aft, single_event_times stod data bt aft
                        /\ out = luminance_sections stod data bt aft
                        /\ (fst (findPupilColumns (hd [] data)) = 0%Z -> out = ([], [])).
Proof.
  intro Hn. unfold Luminancenoshook.process_file.
  destruct data as [|headerRow rows]; [exists None; split; [reflexivity|discriminate]|].
  pose proof (narrow_header _ _ Hn) as Hh. pose proof (narrow_tail _ _ Hn) as Hrows.
  destruct (findPupilColumns_range headerRow) as [HL _].
  destruct (fst (findPupilColumns headerRow) =? -1)%Z eqn:El;
    [exists None; split; [reflexivity|discriminate]|].
  apply Z.eqb_neq in El.
  pose proof (findEventRow_where (headerRow :: rows)) as Hw.
  destruct (findEventRow (headerRow :: rows) =? -1)%Z eqn:E1;
    [exists None; split; [reflexivity|discriminate]|].
  apply Z.eqb_neq in E1.
  destruct (found_row _ _ _ tag_row_nonempty Hw E1) as (r1 & A1 & N1 & Ne1 & _).
  destruct (time_at_found _ _ _ A1 N1 Ne1) as [T1 _].
  rewrite T1. cbn [bind].
  destruct (time_of stod (headerRow :: rows) (findEventRow (headerRow :: rows)))
    as [bt|] eqn:Eb; [|exists None; split; [reflexivity|discriminate]].
  cbn [tl]. rewrite luminance_rows_spec.
  - cbn [bind fst snd app]. eexists. split; [reflexivity|].
    intros out Hout. inversion Hout; subst out.
    exists bt, (bt + 0.229). split; [split; [assumption|reflexivity]|].
    split; [unfold luminance_sections, windows; cbn [hd tl fst snd]; reflexivity|].
    intro H0. cbn [hd] in H0. rewrite H0. cbn [Z.sub Z.add Z.opp Z.pos_sub].
    rewrite no_column_no_sample. reflexivity.
  - unfold narrow in Hrows. eapply Forall_impl; [|exact Hrows].
    intros row Hrow. cbn beta in Hrow. unfold size_le_unsigned.
    destruct (Z.eq_dec (fst (findPupilColumns headerRow)) 0) as [H0|H0].
    + rewrite H0. cbn [Z.sub Z.add Z.opp Z.pos_sub].
      assert (to_unsigned (-1) = (2 ^ 32 - 1)%Z) as -> by reflexivity.
      assert (2 ^ 32 = 2 * 2 ^ 31)%Z as E32 by reflexivity.
      split.
      * intros _. apply luminance_sample_none, number_at_negative.
      * intro H. apply Z.leb_gt in H. lia.
    + assert (2 ^ 32 = 2 * 2 ^ 31)%Z as E32 by reflexivity.
      rewrite to_unsigned_small by lia. split.
      * intro H. apply Z.leb_le in H. apply luminance_sample_none.
        unfold number_at. rewrite at_none by exact H. reflexivity.
      * intro H. apply Z.leb_gt in H. lia.
Qed.

(** luminancenoshook.cpp: on tables whose rows have fewer cells than an
    [int] counts, [main] ends normally, with no access out of range and
    no exception, and each file it writes holds the luminance values
    other than -1 of the rows in the window, read from the column in
    front of the left pupil column; when the left pupil column is the
    first one, every row is passed over and both sections are empty. *)
Theorem luminancenoshook_main_writes (files : list (string * table)) :
  (forall fileName data, In (fileName, data) files -> narrow data) ->
  exists outs,
    Luminancenoshook.main stod writable files = Ret outs
    /\ Forall (written_for files
                 (fun data out =>
                    exists bt aft,
                      single_event_times stod data bt aft
                      /\ out = luminance_sections stod data bt aft
                      /\ (fst (findPupilColumns (hd [] data)) = 0%Z -> out = ([], []))))
              outs.
Proof.
  intro Hn. apply for_each_csv_returns. intros f d Hin. apply luminancenoshook_file.
  eapply Hn. exact Hin.
Qed.

Lemma luminanceshook_file (data : table) :
  narrow data ->
  fst (findPupilColumns (hd [] data)) <> 0%Z ->
  Luminanceshook.process_file stod data = Throws
  \/ exists r,
       Luminanceshook.process_file stod data = Ret r
       /\ forall out, r = Some out ->
            exists bt aft, dual_event_times stod data bt aft
                           /\ out = luminance_sections stod data bt aft.
Proof.
  intros Hn H0. unfold Luminanceshook.process_file.
  destruct data as [|headerRow rows];
    [right; exists None; split; [reflexivity|discriminate]|].
  cbn [hd] in H0.
  pose proof (narrow_header _ _ Hn) as Hh. pose proof (narrow_tail _ _ Hn) as Hrows.
  destruct (findPupilColumns_range headerRow) as [HL _].
  destruct (fst (findPupilColumns headerRow) =? -1)%Z eqn:El;
    [right; exists None; split; [reflexivity|discriminate]|].
  destruct (snd (findPupilColumns headerRow) =? -1)%Z eqn:Er;
    [right; exists None; split; [reflexivity|discriminate]|].
  apply Z.eqb_neq in El, Er. cbn [orb].
  destruct (findEventColumn headerRow =? -1)%Z;
    [right; exists None; split; [reflexivity|discriminate]|].
  set (c := findEventColumn headerRow).
  destruct (findEventRows_where (headerRow :: rows) c) as [H02 Hsh].
  destruct (fst (findEventRows (headerRow :: rows) c) =? -1)%Z eqn:E1;
    [right; exists None; split; [reflexivity|discriminate]|].
  destruct (snd (findEventRows (headerRow :: rows) c) =? -1)%Z eqn:E2;
    [right; exists None; split; [reflexivity|discriminate]|].
  apply Z.eqb_neq in E1, E2. cbn [orb].
  destruct (found_row _ _ _ (event_cell_has_nonempty c "0.2 seconds") H02 E1)
    as (r1 & A1 & N1 & Ne1 & _).
  destruct (found_row _ _ _ (event_cell_has_nonempty c "shook") Hsh E2)
    as (r2 & A2 & N2 & Ne2 & _).
  destruct (time_at_found _ _ _ A1 N1 Ne1) as [_ T1].
  destruct (time_at_found _ _ _ A2 N2 Ne2) as [_ T2].
  rewrite T1.
  destruct (time_of stod (headerRow :: rows) (fst (findEventRows (headerRow :: rows) c)))
    as [bt|] eqn:Eb; [|left; reflexivity].
  cbn [bind]. rewrite T2.
  destruct (time_of stod (headerRow :: rows) (snd (findEventRows (headerRow :: rows) c)))
    as [aft|] eqn:Ea; [|left; reflexivity].
  cbn [bind]. right. cbn [tl]. rewrite luminance_rows_spec.
  - cbn [bind fst snd app]. eexists. split; [reflexivity|].
    intros out Hout. inversion Hout; subst out.
    exists bt, aft. split; [split; assumption|].
    unfold luminance_sections, windows. cbn [hd tl fst snd]. reflexivity.
  - unfold narrow in Hrows. eapply Forall_impl; [|exact Hrows].
    intros row Hrow. cbn beta in Hrow. unfold size_le_unsigned.
    assert (2 ^ 32 = 2 * 2 ^ 31)%Z as E32 by reflexivity.
    rewrite Z.max_l by lia. rewrite to_unsigned_small by lia. split.
    + intro H. apply Z.leb_le in H. apply luminance_sample_none.
      unfold number_at. rewrite at_none by exact H. reflexivity.
    + intro H. apply Z.leb_gt in H. lia.
Qed.

(** luminanceshook.cpp: when in every table the left pupil column is not
    the first one (and the rows have fewer cells than an [int] counts),
    [main] makes no access out of range: it ends with the exception of a
    marker row whose time is no number, which it does not catch, or it
    ends normally, and each file it writes holds the luminance values
    other than -1 of the rows in the window. *)
Theorem luminanceshook_main_in_range (files : list (string * table)) :
  (forall fileName data, In (fileName, data) files ->
     narrow data /\ fst (findPupilColumns (hd [] data)) <> 0%Z) ->
  Luminanceshook.main stod writable files = Throws
  \/ exists outs,
       Luminanceshook.main stod writable files = Ret outs
       /\ Forall (written_for files
                    (fun data out =>
                       exists bt aft, dual_event_times stod data bt aft
                                      /\ out = luminance_sections stod data bt aft)) outs.
Proof.
  intro Hn. apply for_each_csv_returns_or_throws. intros f d Hin.
  destruct (Hn f d Hin) as [H1 H2]. apply luminanceshook_file; assumption.
Qed.

(** With no column in front of the left pupil column, a row of the loop
    of luminanceshook.cpp is passed over when its first cell is missing
    or no number, and else indexed at -1. *)
Lemma luminance_row_no_column (bt aft : Q) (acc : list Q * list Q) (row : list string) :
  luminance_row stod (fun size => size_le_unsigned size (Z.max (-1) 0)) (-1) bt aft acc row
  = match number_at stod row 0 with
    | Some _ => Undefined
    | None => Ret acc
    end.
Proof.
  unfold luminance_row, number_at. destruct row as [|c0 rest]; [reflexivity|].
  assert (size_le_unsigned (length (c0 :: rest)) (Z.max (-1) 0) = false) as ->.
  { unfold size_le_unsigned. apply Z.leb_gt. cbn [length].
    assert (to_unsigned (Z.max (-1) 0) = 0%Z) as -> by reflexivity. lia. }
  cbn. destruct (stod c0); reflexivity.
Qed.

Lemma luminance_rows_no_column (bt aft : Q) (rows : table) :
  forall acc,
    (for_rows (luminance_row stod (fun size => size_le_unsigned size (Z.max (-1) 0))
                             (-1) bt aft) rows acc = Undefined)
    \/ (for_rows (luminance_row stod (fun size => size_le_unsigned size (Z.max (-1) 0))
                                (-1) bt aft) rows acc = Ret acc
        /\ forall row, In row rows -> number_at stod row 0 = None).
Proof.
  induction rows as [|row rest IH]; intro acc; cbn [for_rows].
  - right. split; [reflexivity|]. intros row [].
  - rewrite luminance_row_no_column.
    destruct (number_at stod row 0) as [t|] eqn:E; [left; reflexivity|].
    cbn [bind]. destruct (IH acc) as [H|[H Hall]]; [left; exact H|right].
    split; [exact H|]. intros x [<-|Hx]; [exact E|apply Hall, Hx].
Qed.

(** luminanceshook.cpp: when the left pupil column is the first one, the
    luminance column is taken to be -1, and no file is ever written for
    the table; when the two marker rows are found and their times are
    numbers, a row is indexed at -1, out of its range. *)
Theorem luminanceshook_column_zero (data : table) :
  fst (findPupilColumns (hd [] data)) = 0%Z ->
  (forall out, Luminanceshook.process_file stod data <> Ret (Some out))
  /\ (forall bt aft,
        snd (findPupilColumns (hd [] data)) <> (-1)%Z ->
        findEventColumn (hd [] data) <> (-1)%Z ->
        fst (findEventRows data (findEventColumn (hd [] data))) <> (-1)%Z ->
        snd (findEventRows data (findEventColumn (hd [] data))) <> (-1)%Z ->
        dual_event_times stod data bt aft ->
        Luminanceshook.process_file stod data = Undefined).
Proof.
  intro H0.
  assert (forall bt aft,
            snd (findPupilColumns (hd [] data)) <> (-1)%Z ->
            findEventColumn (hd [] data) <> (-1)%Z ->
            fst (findEventRows data (findEventColumn (hd [] data))) <> (-1)%Z ->
            snd (findEventRows data (findEventColumn (hd [] data))) <> (-1)%Z ->
            dual_event_times stod data bt aft ->
            Luminanceshook.process_file stod data = Undefined) as Hundef.
  { intros bt aft Hr Hc E1 E2 [Tb Ta]. unfold Luminanceshook.process_file.
    destruct data as [|headerRow rows]; [cbn in Hc; congruence|]. cbn [hd] in *.
    rewrite H0. apply Z.eqb_neq in Hr. rewrite Hr. cbn [Z.eqb orb].
    apply Z.eqb_neq in Hc. rewrite Hc. apply Z.eqb_neq in Hc.
    set (c := findEventColumn headerRow) in *.
    destruct (findEventRows_where (headerRow :: rows) c) as [H02 Hsh].
    destruct (found_row _ _ _ (event_cell_has_nonempty c "0.2 seconds") H02 E1)
      as (r1 & A1 & N1 & Ne1 & In1).
    destruct (found_row _ _ _ (event_cell_has_nonempty c "shook") Hsh E2)
      as (r2 & A2 & N2 & Ne2 & _).
    destruct (time_at_found _ _ _ A1 N1 Ne1) as [_ T1].
    destruct (time_at_found _ _ _ A2 N2 Ne2) as [_ T2].
    apply Z.eqb_neq in E1, E2. rewrite E1, E2. cbn [orb].
    rewrite T1, Tb. cbn [bind]. rewrite T2, Ta. cbn [bind].
    cbn [Z.sub Z.add Z.opp Z.pos_sub].
    destruct (luminance_rows_no_column bt aft (tl (headerRow :: rows)) ([], []))
      as [H|[_ Hall]]; [rewrite H; reflexivity|exfalso].
    specialize (Hall r1 In1). unfold time_of in Tb. rewrite N1 in Tb. congruence. }
  split; [|exact Hundef].
  intros out Hout. pose proof Hout as Hcopy. unfold Luminanceshook.process_file in Hout.
  destruct data as [|headerRow rows]; [discriminate|]. cbn [hd] in *.
  destruct (snd (findPupilColumns headerRow) =? -1)%Z eqn:Er;
    [rewrite orb_true_r in Hout; discriminate|].
  rewrite H0 in Hout. cbn [Z.eqb orb] in Hout.
  destruct (findEventColumn headerRow =? -1)%Z eqn:Ec; [discriminate|].
  set (c := findEventColumn headerRow) in *.
  destruct (fst (findEventRows (headerRow :: rows) c) =? -1)%Z eqn:E1; [discriminate|].
  destruct (snd (findEventRows (headerRow :: rows) c) =? -1)%Z eqn:E2; [discriminate|].
  cbn [orb] in Hout. apply Z.eqb_neq in Er, Ec, E1, E2.
  destruct (findEventRows_where (headerRow :: rows) c) as [H02 Hsh].
  destruct (found_row _ _ _ (event_cell_has_nonempty c "0.2 seconds") H02 E1)
    as (r1 & A1 & N1 & Ne1 & In1).
  destruct (found_row _ _ _ (event_cell_has_nonempty c "shook") Hsh E2)
    as (r2 & A2 & N2 & Ne2 & _).
  destruct (time_at_found _ _ _ A1 N1 Ne1) as [_ T1].
  destruct (time_at_found _ _ _ A2 N2 Ne2) as [_ T2].
  destruct (time_of stod (headerRow :: rows) (fst (findEventRows (headerRow :: rows) c)))
    as [bt|] eqn:Eb; [|rewrite T1 in Hout; discriminate].
  destruct (time_of stod (headerRow :: rows) (snd (findEventRows (headerRow :: rows) c)))
    as [aft|] eqn:Ea; [|rewrite T1, T2 in Hout; discriminate].
  assert (Luminanceshook.process_file stod (headerRow :: rows) = Undefined) as Hu.
  { apply (Hundef bt aft); try assumption. split; assumption. }
  rewrite Hu in Hcopy. discriminate.
Qed.

End WithLibrary.

End RawProperties.

Lemma pupilsize_mains_write_witness :
  exists outs,
    Pupilsizeshook.main stod_decimal (fun _ => true) [("00001_a.csv"%string, RawExamples.shook_table)]
    = Ret outs.
Proof.
  destruct (RawProperties.pupilsize_mains_write stod_decimal (fun _ => true)
              [("00001_a.csv"%string, RawExamples.shook_table)])
    as [(outs & H & _) _].
  - intros f d [H|[]]. inversion H; subst.
    repeat constructor; vm_compute; reflexivity.
  - exists outs. exact H.
Defined.

Lemma luminancenoshook_main_writes_witness :
  exists outs,
    Luminancenoshook.main stod_decimal (fun _ => true)
      [("00001_a.csv"%string, RawExamples.shook_table)] = Ret outs.
Proof.
  destruct (RawProperties.luminancenoshook_main_writes stod_decimal (fun _ => true)
              [("00001_a.csv"%string, RawExamples.shook_table)])
    as (outs & H & _).
  - intros f d [H|[]]. inversion H; subst.
    repeat constructor; vm_compute; reflexivity.
  - exists outs. exact H.
Defined.

Lemma luminanceshook_main_in_range_witness :
  Luminanceshook.main stod_decimal (fun _ => true)
    [("00001_a.csv"%string, RawExamples.shook_table)] <> Undefined.
Proof.
  destruct (RawProperties.luminanceshook_main_in_range stod_decimal (fun _ => true)
              [("00001_a.csv"%string, RawExamples.shook_table)])
    as [H|(outs & H & _)].
  - intros f d [H|[]]. inversion H; subst. split.
    + repeat constructor; vm_compute; reflexivity.
    + vm_compute. discriminate.
  - rewrite H. discriminate.
  - rewrite H. discriminate.
Defined.

Lemma luminanceshook_column_zero_witness :
  Luminanceshook.process_file stod_decimal RawExamples.left_first_table = Undefined.
Proof.
  apply (RawProperties.luminanceshook_column_zero stod_decimal RawExamples.left_first_table
           ltac:(reflexivity)) with (bt := 1) (aft := 2);
    try (vm_compute; discriminate).
  split; vm_compute; reflexivity.
Defined.

(** ** calibration.cpp *)

Module CalibrationProperties.

Import TTestAfterMain Calibration.

Lemma count_In (s : list string) (x : string) : count s x = true <-> In x s.
Proof.
  unfold count. rewrite existsb_exists. split.
  - intros (y & Hy & E). apply String.eqb_eq in E. subst. exact Hy.
  - intro H. exists x. split; [exact H|apply String.eqb_refl].
Qed.

Lemma scan_folder_spec (folder : option (list string)) :
  forall own allIndices,
    increasing own -> increasing allIndices ->
    increasing (fst (scan_folder folder (own, allIndices)))
    /\ increasing (snd (scan_folder folder (own, allIndices)))
    /\ (forall x, In x (fst (scan_folder folder (own, allIndices)))
                  <-> In x own \/ In x (indices folder))
    /\ (forall x, In x (snd (scan_folder folder (own, allIndices)))
                  <-> In x allIndices \/ In x (indices folder)).
Proof.
  destruct folder as [names|]; cbn [scan_folder indices].
  - induction names as [|name rest IH]; intros own allIndices Ho Ha; cbn [fold_left map].
    + cbn [fst snd In]. repeat split; try assumption; tauto.
    + destruct (IH (insert_index own (fileIndex_of name))
                   (insert_index allIndices (fileIndex_of name))
                   (MainProperties.insert_index_increasing _ _ Ho)
                   (MainProperties.insert_index_increasing _ _ Ha))
        as (H1 & H2 & H3 & H4).
      split; [exact H1|]. split; [exact H2|]. split; intro x.
      * rewrite H3, MainProperties.insert_index_In. cbn [In]. intuition congruence.
      * rewrite H4, MainProperties.insert_index_In. cbn [In]. intuition congruence.
  - intros own allIndices Ho Ha. cbn [fst snd In]. repeat split; try assumption; tauto.
Qed.

(** The comparison file lists every index that has a .csv file in one of
    the three folders, each once and in increasing order; the first
    answer of a line is "YES" exactly when the index has a file in
    evolab, the second exactly when it has one in shook or in noshook; a
    folder that does not exist counts as empty. *)
Theorem calibration_table (evolab shook noshook : option (list string)) :
  exists rows,
    main evolab shook noshook true = Some rows
    /\ increasing (map (fun r => fst (fst r)) rows)
    /\ (forall x, In x (map (fun r => fst (fst r)) rows)
                  <-> In x (indices evolab) \/ In x (indices shook)
                      \/ In x (indices noshook))
    /\ (forall x e s, In (x, e, s) rows ->
          (e = true <-> In x (indices evolab))
          /\ (s = true <-> In x (indices shook) \/ In x (indices noshook))).
Proof.
  unfold main.
  destruct (scan_folder_spec evolab [] [] I I) as (_ & A1 & E1 & E2).
  destruct (scan_folder evolab ([], [])) as [evolabIndices all1]. cbn [fst snd] in *.
  destruct (scan_folder_spec shook [] all1 I A1) as (_ & A2 & S1 & S2).
  destruct (scan_folder shook ([], all1)) as [shookIndices all2]. cbn [fst snd] in *.
  destruct (scan_folder_spec noshook [] all2 I A2) as (_ & A3 & N1 & N2).
  destruct (scan_folder noshook ([], all2)) as [noshookIndices allIndices].
  cbn [fst snd] in *.
  eexists. split; [reflexivity|].
  rewrite map_map. cbn [fst]. rewrite map_id.
  split; [exact A3|]. split.
  - intro x. rewrite N2, S2, E2. cbn [In]. tauto.
  - intros x e s Hin. apply in_map_iff in Hin. destruct Hin as (y & Hy & _).
    inversion Hy; subst. split.
    + rewrite count_In, E1. cbn [In]. tauto.
    + rewrite orb_true_iff, !count_In, S1, N1. cbn [In]. tauto.
Qed.

End CalibrationProperties.

(** ** findcalibration.cpp *)

Module FindcalibrationProperties.

Import Findcalibration.

Lemma prefix_lower (s2 : string) :
  forall s1, prefix s1 s2 = true -> prefix (toLowerCase s1) (toLowerCase s2) = true.
Proof.
  induction s2 as [|b s2 IH]; intros s1 H; destruct s1 as [|a s1]; cbn in *;
    try reflexivity; try discriminate.
  destruct (ascii_dec a b) as [->|N]; [|discriminate].
  destruct (ascii_dec (tolower b) (tolower b)) as [_|N]; [|congruence].
  apply IH, H.
Qed.

Lemma contains_lower (hay needle : string) :
  contains hay needle = true -> contains (toLowerCase hay) (toLowerCase needle) = true.
Proof.
  induction hay as [|c rest IH]; cbn [contains toLowerCase]; intro H.
  - apply orb_true_iff in H. destruct H as [H|H]; [|discriminate].
    apply prefix_lower in H. cbn [toLowerCase] in H. rewrite H. reflexivity.
  - apply orb_true_iff in H. apply orb_true_iff. destruct H as [H|H].
    + left. apply prefix_lower in H. exact H.
    + right. apply IH, H.
Qed.

Lemma keyword_at_nil (keyword : string) (i j : nat) : keyword_at keyword [] i j = false.
Proof.
  unfold keyword_at. destruct i; reflexivity.
Qed.

(** A new, empty line adds no cell. *)
Lemma keyword_at_new_line (keyword : string) (P : table) (i j : nat) :
  keyword_at keyword (P ++ [[]]) i j = keyword_at keyword P i j.
Proof.
  unfold keyword_at. destruct (Nat.lt_ge_cases i (length P)) as [H|H].
  - rewrite nth_error_app1 by exact H. reflexivity.
  - rewrite nth_error_app2 by exact H.
    assert (nth_error P i = None) as -> by (apply nth_error_None; exact H).
    destruct (i - length P)%nat as [|k]; cbn [nth_error].
    + destruct j; reflexivity.
    + destruct k; reflexivity.
Qed.

(** One more cell on the last line. *)
Lemma keyword_at_new_cell (keyword : string) (P : table) (cs : list string) (c : string)
      (i j : nat) :
  keyword_at keyword (P ++ [cs ++ [c]]) i j
  = if (i =? length P)%nat && (j =? length cs)%nat
    then contains (toLowerCase c) keyword
    else keyword_at keyword (P ++ [cs]) i j.
Proof.
  unfold keyword_at. destruct (Nat.lt_ge_cases i (length P)) as [H|H].
  - rewrite !nth_error_app1 by exact H.
    assert ((i =? length P)%nat = false) as -> by (apply Nat.eqb_neq; lia). reflexivity.
  - rewrite !nth_error_app2 by exact H.
    destruct (i =? length P)%nat eqn:E.
    + apply Nat.eqb_eq in E. subst i. rewrite Nat.sub_diag. cbn [nth_error andb].
      destruct (Nat.lt_ge_cases j (length cs)) as [Hj|Hj].
      * rewrite nth_error_app1 by exact Hj.
        assert ((j =? length cs)%nat = false) as -> by (apply Nat.eqb_neq; lia).
        reflexivity.
      * rewrite nth_error_app2 by exact Hj.
        assert (nth_error cs j = None) as -> by (apply nth_error_None; exact Hj).
        destruct (j =? length cs)%nat eqn:Ej.
        -- apply Nat.eqb_eq in Ej. subst j. rewrite Nat.sub_diag. reflexivity.
        -- apply Nat.eqb_neq in Ej.
           destruct (j - length cs)%nat as [|k] eqn:Ek; [lia|]. cbn [nth_error].
           destruct k; reflexivity.
    + apply Nat.eqb_neq in E. cbn [andb].
      destruct (i - length P)%nat as [|k] eqn:Ek; [lia|]. cbn [nth_error].
      destruct k; reflexivity.
Qed.

(** A keyword is only found at a cell that exists. *)
Lemma keyword_at_bound (keyword : string) (P : table) (cs : list string) (i j : nat) :
  keyword_at keyword (P ++ [cs]) i j = true ->
  (i < length P)%nat \/ (i = length P /\ (j < length cs)%nat).
Proof.
  unfold keyword_at. intro H.
  destruct (Nat.lt_ge_cases i (length P)) as [Hi|Hi]; [left; exact Hi|right].
  rewrite nth_error_app2 in H by exact Hi.
  destruct (i - length P)%nat as [|k] eqn:Ek.
  - split; [lia|]. cbn [nth_error] in H.
    destruct (nth_error cs j) eqn:E; [|discriminate].
    apply nth_error_Some. congruence.
  - cbn [nth_error] in H. destruct k; discriminate.
Qed.

Lemma first_cell_step (keyword : string) (P : table) (cs : list string) (c : string)
      (found : bool) (row col : Z) :
  first_cell_with keyword (P ++ [cs]) found row col ->
  first_cell_with keyword (P ++ [cs ++ [c]])
    (if contains (toLowerCase c) keyword && negb found then true else found)
    (if contains (toLowerCase c) keyword && negb found then Z.of_nat (length P) else row)
    (if contains (toLowerCase c) keyword && negb found then Z.of_nat (length cs) else col).
Proof.
  intros [(Hf & Hr & Hc & Hnone)|(i & j & Hf & Hr & Hc & Hat & Hbefore)].
  - subst found. cbn [negb]. rewrite andb_true_r.
    destruct (contains (toLowerCase c) keyword) eqn:E.
    + right. exists (length P), (length cs). repeat split.
      * rewrite keyword_at_new_cell, !Nat.eqb_refl. exact E.
      * intros i' j' Hb. rewrite keyword_at_new_cell.
        destruct ((i' =? length P)%nat && (j' =? length cs)%nat) eqn:Eq; [|apply Hnone].
        apply andb_true_iff in Eq. destruct Eq as [E1 E2].
        apply Nat.eqb_eq in E1, E2. unfold reads_before in Hb. lia.
    + left. repeat split; try assumption.
      intros i j. rewrite keyword_at_new_cell.
      destruct ((i =? length P)%nat && (j =? length cs)%nat); [exact E|apply Hnone].
  - subst found. cbn [negb]. rewrite andb_false_r.
    right. exists i, j. repeat split; try assumption.
    + rewrite keyword_at_new_cell.
      destruct ((i =? length P)%nat && (j =? length cs)%nat) eqn:Eq; [|exact Hat].
      apply andb_true_iff in Eq. destruct Eq as [E1 E2]. apply Nat.eqb_eq in E1, E2.
      apply keyword_at_bound in Hat. lia.
    + intros i' j' Hb. rewrite keyword_at_new_cell.
      destruct ((i' =? length P)%nat && (j' =? length cs)%nat) eqn:Eq;
        [|apply Hbefore, Hb].
      apply andb_true_iff in Eq. destruct Eq as [E1 E2]. apply Nat.eqb_eq in E1, E2.
      apply keyword_at_bound in Hat. unfold reads_before in Hb. lia.
Qed.

(** What the loops keep true: both searches are right for the cells read
    so far, and the index is untouched. *)
Lemma scan_cells_inv (P : table) (cells : list string) :
  forall cs result,
    first_cell_with "start calibration" (P ++ [cs])
                    (hasStart result) (startRow result) (startCol result) ->
    first_cell_with "finished calibration" (P ++ [cs])
                    (hasFinish result) (finishRow result) (finishCol result) ->
    let r := fst (fold_left (scan_cell (Z.of_nat (length P))) cells
                            (result, Z.of_nat (length cs))) in
    first_cell_with "start calibration" (P ++ [cs ++ cells])
                    (hasStart r) (startRow r) (startCol r)
    /\ first_cell_with "finished calibration" (P ++ [cs ++ cells])
                       (hasFinish r) (finishRow r) (finishCol r)
    /\ index r = index result.
Proof.
  induction cells as [|c rest IH]; intros cs result Hs Hf; cbn zeta; cbn [fold_left].
  - rewrite app_nil_r. cbn [fst]. repeat split; assumption.
  - pose proof (first_cell_step _ P cs c _ _ _ Hs) as Hs'.
    pose proof (first_cell_step _ P cs c _ _ _ Hf) as Hf'.
    assert (exists result',
               scan_cell (Z.of_nat (length P)) (result, Z.of_nat (length cs)) c
               = (result', Z.of_nat (length (cs ++ [c])))
               /\ first_cell_with "start calibration" (P ++ [cs ++ [c]])
                    (hasStart result') (startRow result') (startCol result')
               /\ first_cell_with "finished calibration" (P ++ [cs ++ [c]])
                    (hasFinish result') (finishRow result') (finishCol result')
               /\ index result' = index result) as (result' & E & Hs2 & Hf2 & Hi).
    { unfold scan_cell. rewrite length_app. cbn [length].
      replace (Z.of_nat (length cs + 1)) with (Z.of_nat (length cs) + 1)%Z by lia.
      eexists. split; [reflexivity|].
      destruct (contains (toLowerCase c) "start calibration" && negb (hasStart result))
        eqn:E1;
        destruct (contains (toLowerCase c) "finished calibration"
                  && negb (hasFinish result)) eqn:E2;
        cbn [hasStart hasFinish startRow startCol finishRow finishCol index];
        rewrite ?E2;
        cbn [hasStart hasFinish startRow startCol finishRow finishCol index];
        repeat split; assumption. }
    rewrite E. specialize (IH (cs ++ [c]) result' Hs2 Hf2). cbn zeta in IH.
    rewrite <- app_assoc in IH. cbn [app] in IH.
    destruct IH as (H1 & H2 & H3). repeat split; try assumption. congruence.
Qed.

Lemma first_cell_with_ext (keyword : string) (t t' : table) (found : bool) (row col : Z) :
  (forall i j, keyword_at keyword t' i j = keyword_at keyword t i j) ->
  first_cell_with keyword t found row col -> first_cell_with keyword t' found row col.
Proof.
  intros E [(Hf & Hr & Hc & Hnone)|(i & j & Hf & Hr & Hc & Hat & Hbefore)].
  - left. repeat split; try assumption. intros i j. rewrite E. apply Hnone.
  - right. exists i, j. repeat split; try assumption.
    + rewrite E. exact Hat.
    + intros i' j' Hb. rewrite E. apply Hbefore, Hb.
Qed.

Lemma scan_lines_inv (rows : table) :
  forall P result,
    first_cell_with "start calibration" P
                    (hasStart result) (startRow result) (startCol result) ->
    first_cell_with "finished calibration" P
                    (hasFinish result) (finishRow result) (finishCol result) ->
    let r := fst (fold_left scan_line rows (result, Z.of_nat (length P))) in
    first_cell_with "start calibration" (P ++ rows)
                    (hasStart r) (startRow r) (startCol r)
    /\ first_cell_with "finished calibration" (P ++ rows)
                       (hasFinish r) (finishRow r) (finishCol r)
    /\ index r = index result.
Proof.
  induction rows as [|cells rest IH]; intros P result Hs Hf; cbn zeta; cbn [fold_left].
  - rewrite app_nil_r. cbn [fst]. repeat split; assumption.
  - assert (scan_line (result, Z.of_nat (length P)) cells
            = (fst (fold_left (scan_cell (Z.of_nat (length P))) cells (result, 0%Z)),
               (Z.of_nat (length P) + 1)%Z)) as -> by reflexivity.
    destruct (scan_cells_inv P cells [] result) as (Hs' & Hf' & Hi).
    + apply (first_cell_with_ext _ P); [apply keyword_at_new_line|exact Hs].
    + apply (first_cell_with_ext _ P); [apply keyword_at_new_line|exact Hf].
    + cbn [app length Z.of_nat] in Hs', Hf', Hi.
      specialize (IH (P ++ [cells]) _ Hs' Hf'). cbn zeta in IH.
      rewrite length_app in IH. cbn [length] in IH.
      replace (Z.of_nat (length P + 1)) with (Z.of_nat (length P) + 1)%Z in IH by lia.
      rewrite <- app_assoc in IH. cbn [app] in IH.
      destruct IH as (H1 & H2 & H3). repeat split; try assumption. congruence.
Qed.

(** searchCalibrationKeywords reports, for each of the two keywords,
    whether a cell of the file holds it in any capitalisation, and the
    row and the column of the first such cell in reading order (-1 and -1
    when there is none); a cell that holds a keyword in some mixture of
    capitals is found; the index is the first five characters of the
    file name. *)
Theorem searchCalibrationKeywords_first (fileName : string) (file : option string) :
  first_cell_with "start calibration" (loadCSV file)
    (hasStart (searchCalibrationKeywords fileName file))
    (startRow (searchCalibrationKeywords fileName file))
    (startCol (searchCalibrationKeywords fileName file))
  /\ first_cell_with "finished calibration" (loadCSV file)
       (hasFinish (searchCalibrationKeywords fileName file))
       (finishRow (searchCalibrationKeywords fileName file))
       (finishCol (searchCalibrationKeywords fileName file))
  /\ index (searchCalibrationKeywords fileName file) = fileIndex_of fileName
  /\ (forall cells cell written,
        In cells (loadCSV file) -> In cell cells ->
        contains cell written = true ->
        (toLowerCase written = "start calibration"%string ->
         hasStart (searchCalibrationKeywords fileName file) = true)
        /\ (toLowerCase written = "finished calibration"%string ->
            hasFinish (searchCalibrationKeywords fileName file) = true)).
Proof.
  assert (first_cell_with "start calibration" (loadCSV file)
            (hasStart (searchCalibrationKeywords fileName file))
            (startRow (searchCalibrationKeywords fileName file))
            (startCol (searchCalibrationKeywords fileName file))
          /\ first_cell_with "finished calibration" (loadCSV file)
               (hasFinish (searchCalibrationKeywords fileName file))
               (finishRow (searchCalibrationKeywords fileName file))
               (finishCol (searchCalibrationKeywords fileName file))
          /\ index (searchCalibrationKeywords fileName file) = fileIndex_of fileName)
    as (Hs & Hf & Hi).
  { unfold searchCalibrationKeywords. destruct file as [content|].
    - apply (scan_lines_inv (loadCSV (Some content)) []
               (mkResult (fileIndex_of fileName) false false (-1) (-1) (-1) (-1)));
        left; repeat split; intros; apply keyword_at_nil.
    - cbn [loadCSV hasStart hasFinish startRow startCol finishRow finishCol index].
      repeat split; left; repeat split; intros; apply keyword_at_nil. }
  split; [exact Hs|]. split; [exact Hf|]. split; [exact Hi|].
  intros cells cell written Hcells Hcell Hw.
  apply In_nth_error in Hcells. destruct Hcells as (i & Hi').
  apply In_nth_error in Hcell. destruct Hcell as (j & Hj).
  apply contains_lower in Hw.
  split; intro E; rewrite E in Hw.
  - destruct Hs as [(_ & _ & _ & Hnone)|(i0 & j0 & H & _)]; [|exact H].
    specialize (Hnone i j). unfold keyword_at in Hnone. rewrite Hi', Hj in Hnone.
    congruence.
  - destruct Hf as [(_ & _ & _ & Hnone)|(i0 & j0 & H & _)]; [|exact H].
    specialize (Hnone i j). unfold keyword_at in Hnone. rewrite Hi', Hj in Hnone.
    congruence.
Qed.

Lemma classify_counts (files : list (string * option string)) :
  forall st,
    totalFiles (fold_left classify files st) = (totalFiles st + Z.of_nat (length files))%Z
    /\ (countBoth (fold_left classify files st)
        + countOnlyStart (fold_left classify files st)
        + countOnlyFinish (fold_left classify files st)
        + countNone (fold_left classify files st)
        = countBoth st + countOnlyStart st + countOnlyFinish st + countNone st
          + Z.of_nat (length files))%Z
    /\ (countBoth st <= countBoth (fold_left classify files st))%Z
    /\ (countOnlyStart st <= countOnlyStart (fold_left classify files st))%Z
    /\ (countOnlyFinish st <= countOnlyFinish (fold_left classify files st))%Z
    /\ (countNone st <= countNone (fold_left classify files st))%Z
    /\ moved (fold_left classify files st)
       = moved st
         ++ map fst (filter (fun entry =>
                               hasStart (searchCalibrationKeywords (fst entry) (snd entry))
                               && hasFinish (searchCalibrationKeywords (fst entry)
                                                                       (snd entry)))
                            files)
    /\ (countBoth (fold_left classify files st)
        = countBoth st
          + Z.of_nat (length (filter
               (fun entry =>
                  hasStart (searchCalibrationKeywords (fst entry) (snd entry))
                  && hasFinish (searchCalibrationKeywords (fst entry) (snd entry)))
               files)))%Z.
Proof.
  induction files as [|entry rest IH]; intro st; cbn [fold_left length filter map].
  - rewrite app_nil_r. repeat split; lia.
  - destruct (IH (classify st entry)) as (H1 & H2 & H3 & H4 & H5 & H6 & H7 & H8).
    rewrite H1, H2, H7, H8. unfold classify.
    destruct (hasStart (searchCalibrationKeywords (fst entry) (snd entry))) eqn:Es;
      destruct (hasFinish (searchCalibrationKeywords (fst entry) (snd entry))) eqn:Ef;
      cbn [andb totalFiles countBoth countOnlyStart countOnlyFinish countNone moved
           map length];
      unfold classify in H3, H4, H5, H6; rewrite Es, Ef in H3, H4, H5, H6;
      cbn [andb totalFiles countBoth countOnlyStart countOnlyFinish countNone moved]
        in H3, H4, H5, H6;
      rewrite <- ?app_assoc; cbn [app]; repeat split; try reflexivity; lia.
Qed.

(** findcalibration.cpp: every regular .csv file of the folder is counted
    in exactly one of the four categories, so the four counts add up to
    the number of files; the files counted as complete are exactly those
    in which both keywords are found, and these are the files that are
    moved. *)
Theorem findcalibration_main_counts (files : list (string * option string)) :
  exists c,
    main (Some files) = Some c
    /\ totalFiles c = Z.of_nat (length files)
    /\ (countBoth c + countOnlyStart c + countOnlyFinish c + countNone c = totalFiles c)%Z
    /\ (0 <= countBoth c)%Z /\ (0 <= countOnlyStart c)%Z
    /\ (0 <= countOnlyFinish c)%Z /\ (0 <= countNone c)%Z
    /\ moved c
       = map fst (filter (fun entry =>
                            hasStart (searchCalibrationKeywords (fst entry) (snd entry))
                            && hasFinish (searchCalibrationKeywords (fst entry)
                                                                    (snd entry)))
                         files)
    /\ countBoth c = Z.of_nat (length (moved c)).
Proof.
  unfold main. eexists. split; [reflexivity|].
  destruct (classify_counts files (mkCounts 0 0 0 0 0 []))
    as (H1 & H2 & H3 & H4 & H5 & H6 & H7 & H8).
  cbn [totalFiles countBoth countOnlyStart countOnlyFinish countNone moved app] in *.
  repeat split; try lia; try assumption.
  rewrite H7, length_map, H8. lia.
Qed.

End FindcalibrationProperties.

(** ** The models on small inputs *)

Example luminance_file_sections :
  fold_left (LuminanceMain.read_file stod_decimal) [Some SectionExamples.luminance_file]
            ([], [])
  = ([10; 12], [20; 22]).
Proof.
  vm_compute. reflexivity.
Qed.

Example pupil_file_counts :
  let acc := fold_left (PupilsizecalMain.read_file SectionExamples.parse_pair)
                       [Some SectionExamples.pupil_file] PupilsizecalMain.accumulators0 in
  (Pupilsizecal.count (PupilsizecalMain.globalLeftBefore acc),
   Pupilsizecal.count (PupilsizecalMain.globalRightBefore acc),
   Pupilsizecal.count (PupilsizecalMain.globalLeftAfter acc),
   Pupilsizecal.count (PupilsizecalMain.globalRightAfter acc))
  = (1, 2, 1, 0)%Z.
Proof.
  vm_compute. reflexivity.
Qed.

Example evolab_file_keywords :
  Findcalibration.searchCalibrationKeywords "00012_x.csv"
    (Some CalibrationExamples.evolab_file)
  = Findcalibration.mkResult "00012" true true 2 1 3 2.
Proof.
  vm_compute. reflexivity.
Qed.

Example raw_sections_of_shook_table :
  Luminanceshook.main stod_decimal (fun _ => true)
    [("00001_a.csv"%string, RawExamples.shook_table)]
  = Ret [("00001"%string, ([10; 11], [12]))]
  /\ Luminancenoshook.main stod_decimal (fun _ => true)
       [("00001_a.csv"%string, RawExamples.left_first_table)]
     = Ret [("00001"%string, ([], []))].
Proof.
  split; vm_compute; reflexivity.
Qed.
